(** * gsRegrid: regridding of curvilinear structured grids

    A shallow embedding of [Packages/cdms2/Lib/gsRegrid.py] (the Python
    binding of the libcf regridding kernels) together with the properties
    of its specification.

    Conventions of the embedding.
    - A Python exception is a value of [exn]; a computation that may raise
      returns a [result].
    - Numeric array elements are exact rationals ([Q]); the numpy dtype of
      an array is kept as a tag next to its data.  What numpy does in
      machine arithmetic or by reading bytes (the conversion of a value to
      another dtype, an integer buffer read as doubles) is a parameter of
      the development ([astype], [ints_as_doubles]).
    - numpy arrays and Python lists that the module shares with its caller
      live in a [heap] and are passed by reference ([loc]).
    - Every call into the native library is recorded in a [trace]; what the
      library answers is a parameter of the development ([libcf]). *)

From Stdlib Require Import ZArith QArith Qround Lia.
From stdpp Require Import base list strings pretty.

Local Open Scope nat_scope.

(** ** Python exceptions *)

Inductive dtype :=
| bool_ | int8 | int16 | int32 | int64
| uint8 | uint16 | uint32 | uint64
| float16 | float32 | float64
| complex64 | complex128 | object_.

#[global] Instance dtype_eq_dec : EqDecision dtype.
Proof. solve_decision. Defined.

(** The messages of the [CDMSError]s the module raises, one constructor per
    [raise CDMSError, ...] statement whose message can be built. *)
Inductive cdms_msg :=
| StatusError (status : Z) (lineno : nat)          (* catchError *)
| InvalidType (dt : dtype)                         (* getNetCDFFillValue *)
| FunkyMixture (shapes : list (list nat))          (* makeCurvilinear *)
| LoLength (len_lo ndims : nat)                    (* addForbiddenBox *)
| HiLength (len_hi ndims : nat)                    (* addForbiddenBox *)
| SrcDataWrongShape (shp : list nat) (dims : list Z)   (* apply *)
| DstDataWrongShape (shp : list nat) (dims : list Z)   (* apply *)
| InvalidSrcDataType (dt : dtype)                  (* apply *)
| InvalidDstDataType (dt : dtype).                 (* apply *)

Inductive exn :=
| CDMSError (m : cdms_msg)
| TypeError
| IndexError
| ValueError
| AttributeError
| UnboundLocalError
| OSError
| ArgumentError.                 (* ctypes.ArgumentError *)

Inductive result (A : Type) :=
| Ok (a : A)
| Raise (e : exn).
Arguments Ok {A} a.
Arguments Raise {A} e.

Definition rbind {A B} (c : result A) (k : A -> result B) : result B :=
  match c with
  | Ok a => k a
  | Raise e => Raise e
  end.

Declare Scope result_scope.
Delimit Scope result_scope with res.
Notation "x <- c ;; k" := (rbind c (fun x => k))
  (at level 100, c at next level, right associativity) : result_scope.
Notation "c ;;; k" := (rbind c (fun _ => k))
  (at level 100, right associativity) : result_scope.

(** [for x in l: s = body(x, s)] for a loop body that may raise. *)
Fixpoint for_each {A S} (l : list A) (body : A -> S -> result S) (s : S)
  : result S :=
  match l with
  | [] => Ok s
  | x :: l' => (s' <- body x s ;; for_each l' body s')%res
  end.

(** [range(n)] *)
Definition range (n : nat) : list nat := seq 0 n.

(** The classes of error the specification names; all of them are
    [CDMSError] in the code and differ by the message only. *)
Definition is_DimensionMismatch (e : exn) : Prop :=
  match e with
  | CDMSError (LoLength _ _) | CDMSError (HiLength _ _) => True
  | _ => False
  end.

Definition is_ShapeMismatch (e : exn) : Prop :=
  match e with
  | CDMSError (FunkyMixture _)
  | CDMSError (SrcDataWrongShape _ _)
  | CDMSError (DstDataWrongShape _ _) => True
  | _ => False
  end.

Definition is_UnsupportedType (e : exn) : Prop :=
  match e with
  | CDMSError (InvalidSrcDataType _) | CDMSError (InvalidDstDataType _) => True
  | _ => False
  end.

(** ** ctypes *)

(** The value a [c_int] holds after a Python integer is stored in it:
    ctypes keeps the low 32 bits, read back as a signed number. *)
Definition c_int (z : Z) : Z :=
  ((z + 2 ^ 31) mod 2 ^ 32 - 2 ^ 31)%Z.

(** A Python integer passed to a foreign function that declares no
    argument types: ctypes passes a C [int], the low 32 bits of the
    integer, and raises [ArgumentError] before the call when the integer
    does not fit in 64 bits, as an unsigned or as a signed number. *)
Definition c_int_arg (z : Z) : result Z :=
  if decide (- 2 ^ 63 <= z < 2 ^ 64)%Z then Ok (c_int z)
  else Raise ArgumentError.

(** The ctypes array type [c_int * n] called without arguments: a
    zero-initialised array. *)
Definition c_int_array (n : nat) : list Z := replicate n 0%Z.

(** [arr[i] = v] on a ctypes array: an index outside the array raises. *)
Definition c_int_setitem (arr : list Z) (i : nat) (v : Z) : result (list Z) :=
  if decide (i < length arr) then Ok (<[i := c_int v]> arr)
  else Raise IndexError.

(** An argument of a ctypes array constructor. *)
Inductive pyarg :=
| PyInt (z : Z)
| PyTuple (t : list Z).

(** The constructor of the ctypes array type [c_int * n], called with the
    positional arguments [args]: the i-th argument is stored in the i-th
    element, which must exist, and must be an integer. *)
Definition c_int_array_init (n : nat) (args : list pyarg) : result (list Z) :=
  for_each (range (length args))
    (fun i arr =>
       match args !! i with
       | Some arg =>
           if decide (i < length arr) then
             match arg with
             | PyInt z => Ok (<[i := c_int z]> arr)
             | PyTuple _ => Raise TypeError
             end
           else Raise IndexError
       | None => Raise IndexError
       end)
    (c_int_array n).

(** ** numpy arrays *)

Record ndarray := mk_ndarray {
  dtype_of : dtype;
  shape : list nat;
  data : list Q                    (* the elements, in row-major order *)
}.

(** Number of elements of an array of the given shape. *)
Definition size_of_shape (shp : list nat) : nat := foldr Nat.mul 1 shp.

(** [len(a)]: the first dimension; a 0-d array has no length. *)
Definition py_len (a : ndarray) : result nat :=
  match shape a with
  | [] => Raise TypeError
  | d :: _ => Ok d
  end.

(** [t[k]] on a tuple or list, with Python's negative indices. *)
Definition getitem {A} (t : list A) (k : Z) : result A :=
  let k' := if (k <? 0)%Z then (k + Z.of_nat (length t))%Z else k in
  if (k' <? 0)%Z then Raise IndexError
  else match t !! Z.to_nat k' with
       | Some x => Ok x
       | None => Raise IndexError
       end.

(** [numpy.ones(shp, dt)] *)
Definition numpy_ones (shp : list nat) (dt : dtype) : ndarray :=
  {| dtype_of := dt; shape := shp; data := replicate (size_of_shape shp) 1%Q |}.

(** [numpy.zeros(shp, dt)] *)
Definition numpy_zeros (shp : list nat) (dt : dtype) : ndarray :=
  {| dtype_of := dt; shape := shp; data := replicate (size_of_shape shp) 0%Q |}.

(** [numpy.outer(a, b)]: both arguments are flattened, and
    [out[i, j] = a[i] * b[j]].  At every call site of the module the two
    arguments have the same dtype, which is the dtype of the result. *)
Definition numpy_outer (a b : ndarray) : ndarray :=
  {| dtype_of := dtype_of a;
     shape := [length (data a); length (data b)];
     data := flat_map (fun x => map (fun y => (x * y)%Q) (data b)) (data a) |}.

(** [a.reshape(dims)]: the number of elements must not change. *)
Definition reshape (a : ndarray) (dims : list nat) : result ndarray :=
  if decide (size_of_shape dims = length (data a))
  then Ok {| dtype_of := dtype_of a; shape := dims; data := data a |}
  else Raise ValueError.

(** Row-major offset of a multi-index, [None] when an index is out of its
    bound or the number of indices is not the number of dimensions. *)
Fixpoint ravel (shp ks : list nat) (acc : nat) : option nat :=
  match shp, ks with
  | [], [] => Some acc
  | d :: shp', k :: ks' =>
      if decide (k < d) then ravel shp' ks' (acc * d + k) else None
  | _, _ => None
  end.

(** [a[k_0, ..., k_{N-1}]] for non-negative indices. *)
Definition item (a : ndarray) (ks : list nat) : result Q :=
  match ravel (shape a) ks 0 with
  | Some off =>
      match data a !! off with
      | Some x => Ok x
      | None => Raise IndexError
      end
  | None => Raise IndexError
  end.

(** ** Module-level functions of gsRegrid.py *)

(** [getPeriodicityArray(ndims, is_periodic)] *)
Definition getPeriodicityArray (ndims : nat) (is_periodic : list bool)
  : result (list Z) :=
  (res <- for_each (range ndims) (fun i res => c_int_setitem res i 0)
            (c_int_array ndims) ;;
   for_each (range (length is_periodic))
     (fun i res =>
        b <- getitem is_periodic (Z.of_nat i) ;;
        if (b : bool) then c_int_setitem res i 1 else Ok res)
     res)%res.

(** [getTensorProduct(axis, dim, dims)] *)
Definition getTensorProduct (axis : ndarray) (dim : nat) (dims : list nat)
  : result ndarray :=
  reshape
    (numpy_outer
       (numpy_outer (numpy_ones (take dim dims) (dtype_of axis)) axis)
       (numpy_ones (drop (dim + 1) dims) (dtype_of axis)))
    dims.

(** ** The store, the native library and the monad of the module *)

Abbreviation loc := nat (only parsing).

(** The objects the module shares with its callers: numpy arrays, and Python
    lists of (references to) arrays. *)
Inductive obj :=
| ObjArray (a : ndarray)
| ObjList (l : list loc).

Abbreviation heap := (list obj) (only parsing).

(** The entry points of the native library, with the values (not the
    pointers) the binding passes to them.  The number of dimensions, the
    length of a Python list of coordinates, is recorded as the number it
    is (ctypes keeps its low 32 bits). *)
Inductive call :=
| nccf_def_coord (ndims : nat) (dims : list Z) (dimnames : list string)
    (data : list Q) (save : Z) (name standard_name units : string)
| nccf_def_grid (coordids : list Z) (name : string)
| nccf_def_regrid (src_gridid dst_gridid : Z)
| nccf_add_regrid_forbidden (regridid : Z) (lo hi : list Z)
| nccf_compute_regrid_weights (regridid : Z) (nitermax : Z) (tolpos : Q)
    (isPeriodic : list Z)
| nccf_def_data (gridid : Z) (name standard_name units time_dimname : string)
| nccf_set_data_double (dataid : Z) (data : list Q) (save : Z) (fill_value : Q)
| nccf_set_data_float (dataid : Z) (data : list Q) (save : Z) (fill_value : Q)
| nccf_set_data_int (dataid : Z) (data : list Q) (save : Z) (fill_value : Z)
| nccf_apply_regrid (regridid src_dataid dst_dataid : Z)
| nccf_free_data (dataid : Z)
| nccf_get_regrid_weights (regridid : Z) (dinds : list Q)
| nccf_get_multi_index (ndims : nat) (dims : list Z) (flat_index : Z)
| nccf_find_indices_double (ndims : nat) (dims : list Z)
    (src_coords : list (list Q)) (isPeriodic : list Z) (pos : list Q)
    (niter : Z) (tol : Q) (res : list Q).

(** What a native call hands back: its status, and what it wrote through
    the pointers it was given (an integer passed [byref], an integer
    buffer, a double passed [byref], a buffer of doubles). *)
Record reply := mk_reply {
  status : Z;
  out_int : Z;
  out_ints : list Z;
  out_real : Q;
  out_reals : list Q
}.

Record world := mk_world {
  w_heap : heap;
  w_trace : list call                  (* the native calls made so far *)
}.

Definition M (A : Type) : Type := world -> result A * world.

Definition ret {A} (a : A) : M A := fun w => (Ok a, w).

Definition raise {A} (e : exn) : M A := fun w => (Raise e, w).

Definition bind {A B} (c : M A) (k : A -> M B) : M B :=
  fun w =>
    match c w with
    | (Ok a, w') => k a w'
    | (Raise e, w') => (Raise e, w')
    end.

Definition lift {A} (r : result A) : M A := fun w => (r, w).

Declare Scope py_scope.
Delimit Scope py_scope with py.
Notation "x <- c ;; k" := (bind c (fun x => k))
  (at level 100, c at next level, right associativity) : py_scope.
Notation "c ;;; k" := (bind c (fun _ => k))
  (at level 100, right associativity) : py_scope.

(** [for x in l: s = body(x, s)] in the monad. *)
Fixpoint forM {A S} (l : list A) (body : A -> S -> M S) (s : S) : M S :=
  match l with
  | [] => ret s
  | x :: l' => (s' <- body x s ;; forM l' body s')%py
  end.

(** A new object. *)
Definition alloc (o : obj) : M loc :=
  fun w => (Ok (length (w_heap w)),
            {| w_heap := w_heap w ++ [o]; w_trace := w_trace w |}).

(** The array behind a reference; anything else has no [shape], [dtype]
    or [ctypes] attribute. *)
Definition read_array (l : loc) : M ndarray :=
  fun w =>
    match w_heap w !! l with
    | Some (ObjArray a) => (Ok a, w)
    | _ => (Raise AttributeError, w)
    end.

(** The elements of the list behind a reference. *)
Definition read_list (l : loc) : M (list loc) :=
  fun w =>
    match w_heap w !! l with
    | Some (ObjList xs) => (Ok xs, w)
    | _ => (Raise TypeError, w)
    end.

(** [lst[i]] on the list object [lst]. *)
Definition list_getitem (lst : loc) (i : nat) : M loc :=
  (xs <- read_list lst ;; lift (getitem xs (Z.of_nat i)))%py.

(** [lst[i] = v]: the list object itself is updated. *)
Definition list_setitem (lst : loc) (i : nat) (v : loc) : M unit :=
  (xs <- read_list lst ;;
   if decide (i < length xs)
   then fun w => (Ok tt, {| w_heap := <[lst := ObjList (<[i := v]> xs)]> (w_heap w);
                            w_trace := w_trace w |})
   else raise IndexError)%py.

(** What is left in a buffer of the size of [old] after native code wrote
    [new] from its start. *)
Definition write_buffer {A} (old new : list A) : list A :=
  take (length old) new ++ drop (length new) old.

(** Native code writes [new] through the data pointer of the array [l]. *)
Definition poke_array (l : loc) (new : list Q) : M unit :=
  (a <- read_array l ;;
   fun w => (Ok tt,
             {| w_heap := <[l := ObjArray {| dtype_of := dtype_of a;
                                             shape := shape a;
                                             data := write_buffer (data a) new |}]>
                            (w_heap w);
                w_trace := w_trace w |}))%py.

(** [catchError(status, lineno)] *)
Definition catchError (status : Z) (lineno : nat) : M unit :=
  if decide (status ≠ 0%Z) then raise (CDMSError (StatusError status lineno))
  else ret tt.

(** [makeCurvilinear(coords)].  The list [coords] is the caller's object:
    the second loop assigns to its elements, and the function returns a
    reference to that same list. *)
Definition makeCurvilinear (coords : loc) : M (loc * list nat) :=
  (cs <- read_list coords ;;
   let ndims := length cs in
   cd <-
     forM (range ndims)
       (fun i '(count1DAxes, dims) =>
          c <- list_getitem coords i ;;
          coord <- read_array c ;;
          if decide (length (shape coord) = 1) then
            (* axis *)
            n <- lift (py_len coord) ;;
            ret (count1DAxes + 1, dims ++ [n])
          else if decide (length (shape coord) = ndims) then
            (* fully curvilinear *)
            d <- lift (getitem (shape coord) (Z.of_nat i)) ;;
            ret (count1DAxes, dims ++ [d])
          else
            (* assumption: all 1D axes precede curvilinear coordinates *)
            d <- lift (getitem (shape coord)
                         (Z.of_nat i - Z.of_nat count1DAxes)) ;;
            ret (count1DAxes, dims ++ [d]))
       (0, []) ;;
   let dims := cd.2 in
   forM (range ndims)
     (fun i _ =>
        c <- list_getitem coords i ;;
        a <- read_array c ;;
        let nd := length (shape a) in
        if decide (nd = ndims) then
          (* already in curvilinear form, keep as is *)
          ret tt
        else if decide (nd = 1) then
          (* it's an axis *)
          r <- lift (getTensorProduct a i dims) ;;
          l <- alloc (ObjArray r) ;;
          list_setitem coords i l
        else if decide (ndims = 3 ∧ nd = 2 ∧ 0 < i) then
          (* assume leading coordinate is an axis *)
          c0 <- list_getitem coords 0 ;;
          a0 <- read_array c0 ;;
          n0 <- lift (py_len a0) ;;
          let o1 := numpy_ones [n0] (dtype_of a) in
          r <- lift (reshape (numpy_outer o1 a) dims) ;;
          l <- alloc (ObjArray r) ;;
          list_setitem coords i l
        else
          xs <- read_list coords ;;
          shapes <- forM xs (fun x acc => ax <- read_array x ;;
                                          ret (acc ++ [shape ax])) [] ;;
          raise (CDMSError (FunkyMixture shapes)))
     tt ;;;
   ret (coords, dims))%py.

(** [numpy.array(a, dt)]: a copy of [a] with dtype [dt].  Each value is
    converted on its own; [astype src dst x] is the value of dtype [dst]
    that numpy makes of the value [x] of dtype [src].  The conversion is
    done in machine arithmetic (a 64-bit integer above [2^53] is rounded
    when it becomes a float64), and the model takes it from its
    environment. *)
Definition numpy_array (astype : dtype -> dtype -> Q -> Q) (a : ndarray)
    (dt : dtype) : ndarray :=
  {| dtype_of := dt; shape := shape a;
     data := map (astype (dtype_of a) dt) (data a) |}.

(** A Python number, a float or an integer: the fill values of
    [libCFConfig], the items of an index set. *)
Inductive pynum :=
| PyFloat (q : Q)
| PyInteger (z : Z).

(** The integers of a list of Python numbers that holds integers only. *)
Fixpoint integers (l : list pynum) : option (list Z) :=
  match l with
  | [] => Some []
  | PyInteger z :: l' => option_map (cons z) (integers l')
  | PyFloat _ :: _ => None
  end.

(** [reduce(f, l)] without an initial value. *)
Definition reduce {A} (f : A -> A -> A) (l : list A) : result A :=
  match l with
  | [] => Raise TypeError
  | x :: l' => Ok (fold_left f l' x)
  end.

(** Reading a local variable that no assignment has bound yet. *)
Definition local {A} (v : option A) : M A :=
  match v with
  | Some a => ret a
  | None => raise UnboundLocalError
  end.

(** ** class Regrid *)

Module Regrid.

Record self := mk_self {
  regridid : Z;
  src_gridid : Z;
  dst_gridid : Z;
  ndims : nat;
  src_dims : list Z;
  dst_dims : list Z;
  src_coords : list loc;
  dst_coords : list loc;
  src_coordids : list Z;
  dst_coordids : list Z
}.

Section Methods.

(** What the module takes from its environment: the path of the shared
    library and whether the loader finds it, the fill values of
    [libCFConfig], and the answers of the native library, which may
    depend on the calls it has received before. *)
Variable LIBCFDIR : string.
Variable CDLL : string -> bool.
Variable NC_FILL_DOUBLE NC_FILL_FLOAT : Q.
Variable NC_FILL_INT : Z.
Variable libcf : list call -> call -> reply.

(** What numpy does in machine arithmetic and in memory: the conversion
    of a value from one dtype to another, and the doubles that native
    code finds when it reads, through a pointer to doubles, the bytes of
    the array that numpy builds from a list of Python integers (the index
    [k] of a 64-bit integer array is read as the double with the bits of
    [k]). *)
Variable astype : dtype -> dtype -> Q -> Q.
Variable ints_as_doubles : list Z -> list Q.

(** [self.lib.f(...)] *)
Definition native (c : call) : M reply :=
  fun w => (Ok (libcf (w_trace w) c),
            {| w_heap := w_heap w; w_trace := w_trace w ++ [c] |}).

(** [Regrid(src_grid, dst_grid)].  [CDLL] raises when the library cannot
    be loaded and returns a true object otherwise, so the loop over the
    suffixes ends in its first round.  The two messages about the number
    of dimensions are written without the [%] operator between the format
    and its arguments: evaluating them calls a string. *)
Definition __init__ (src_grid dst_grid : loc) : M self :=
  ((if CDLL (LIBCFDIR +:+ ".so") then ret tt else raise OSError) ;;;
   (* Number of space dimensions *)
   sg <- read_list src_grid ;;
   let ndims := length sg in
   dg <- read_list dst_grid ;;
   if decide (length dg ≠ ndims) then raise TypeError
   else if decide (ndims ≤ 0) then raise TypeError
   else
     (* Convert src_grid/dst_grid to curvilinear grid, if need be *)
     grids <- (if decide (1 < ndims) then
                 s <- makeCurvilinear src_grid ;;
                 d <- makeCurvilinear dst_grid ;;
                 ret (s.1, Some s.2, d.1, Some d.2)
               else ret (src_grid, None, dst_grid, None)) ;;
     let '(src_grid, src_dims, dst_grid, dst_dims) := grids in
     (* Build coordinate objects *)
     st <- forM (range ndims)
             (fun i st =>
                let '(src_dimnames, dst_dimnames, self_src_dims, self_dst_dims) := st in
                let src_dimnames := <[i := "src_n" +:+ pretty i]> src_dimnames in
                let dst_dimnames := <[i := "dst_n" +:+ pretty i]> dst_dimnames in
                sd <- local src_dims ;;
                v <- lift (getitem sd (Z.of_nat i)) ;;
                self_src_dims <- lift (c_int_setitem self_src_dims i (Z.of_nat v)) ;;
                dd <- local dst_dims ;;
                v <- lift (getitem dd (Z.of_nat i)) ;;
                self_dst_dims <- lift (c_int_setitem self_dst_dims i (Z.of_nat v)) ;;
                ret (src_dimnames, dst_dimnames, self_src_dims, self_dst_dims))
             (replicate ndims "", replicate ndims "",
              c_int_array ndims, c_int_array ndims) ;;
     let '(src_dimnames, dst_dimnames, self_src_dims, self_dst_dims) := st in
     st <- forM (range ndims)
             (fun i st =>
                let '(self_src_coords, self_dst_coords,
                      self_src_coordids, self_dst_coordids) := st in
                c <- list_getitem src_grid i ;;
                a <- read_array c ;;
                let data_ := numpy_array astype a float64 in
                l <- alloc (ObjArray data_) ;;
                let self_src_coords := self_src_coords ++ [l] in
                r <- native (nccf_def_coord ndims self_src_dims src_dimnames
                               (data data_) 0 ("src_coord" +:+ pretty i) "" "") ;;
                catchError (status r) 206 ;;;
                self_src_coordids <- lift (c_int_setitem self_src_coordids i (out_int r)) ;;
                c <- list_getitem dst_grid i ;;
                a <- read_array c ;;
                let data_ := numpy_array astype a float64 in
                l <- alloc (ObjArray data_) ;;
                let self_dst_coords := self_dst_coords ++ [l] in
                r <- native (nccf_def_coord ndims self_dst_dims dst_dimnames
                               (data data_) 0 ("dst_coord" +:+ pretty i) "" "") ;;
                catchError (status r) 218 ;;;
                self_dst_coordids <- lift (c_int_setitem self_dst_coordids i (out_int r)) ;;
                ret (self_src_coords, self_dst_coords,
                     self_src_coordids, self_dst_coordids))
             ([], [], c_int_array ndims, c_int_array ndims) ;;
     let '(self_src_coords, self_dst_coords,
           self_src_coordids, self_dst_coordids) := st in
     (* Build grid objects *)
     r <- native (nccf_def_grid self_src_coordids "src_grid") ;;
     catchError (status r) 224 ;;;
     let self_src_gridid := out_int r in
     r <- native (nccf_def_grid self_dst_coordids "dst_grid") ;;
     catchError (status r) 228 ;;;
     let self_dst_gridid := out_int r in
     (* Create regrid object *)
     r <- native (nccf_def_regrid self_src_gridid self_dst_gridid) ;;
     catchError (status r) 233 ;;;
     ret {| regridid := out_int r;
            src_gridid := self_src_gridid;
            dst_gridid := self_dst_gridid;
            ndims := ndims;
            src_dims := self_src_dims;
            dst_dims := self_dst_dims;
            src_coords := self_src_coords;
            dst_coords := self_dst_coords;
            src_coordids := self_src_coordids;
            dst_coordids := self_dst_coordids |})%py.

(** [addForbiddenBox(self, lo, hi)].  The two index arrays are built by
    calling the array type with one argument, the tuple itself. *)
Definition addForbiddenBox (s : self) (lo hi : list Z) : M unit :=
  (* Check lo and hi *)
  (if decide (length lo ≠ ndims s) then
     raise (CDMSError (LoLength (length lo) (ndims s)))
   else if decide (length hi ≠ ndims s) then
     raise (CDMSError (HiLength (length hi) (ndims s)))
   else
     (* Apply *)
     loIndices <- lift (c_int_array_init (ndims s) [PyTuple lo]) ;;
     hiIndices <- lift (c_int_array_init (ndims s) [PyTuple hi]) ;;
     r <- native (nccf_add_regrid_forbidden (regridid s) loIndices hiIndices) ;;
     catchError (status r) 279)%py.

(** [computeWeights(self, nitermax, tolpos, is_periodic)] *)
Definition computeWeights (s : self) (nitermax : Z) (tolpos : Q)
    (is_periodic : list bool) : M unit :=
  (isPeriodic <- lift (getPeriodicityArray (ndims s) is_periodic) ;;
   nitermax <- lift (c_int_arg nitermax) ;;
   r <- native (nccf_compute_regrid_weights (regridid s) nitermax tolpos
                  isPeriodic) ;;
   catchError (status r) 297)%py.

(** The test on the shape of a field in [apply]:
    [reduce(operator.iand, [shape[i] == dims[i] for i in range(ndims)])] *)
Definition shape_test (shp : list nat) (dims : list Z) (n : nat)
  : result bool :=
  (eqs <- for_each (range n)
            (fun i acc =>
               x <- getitem shp (Z.of_nat i) ;;
               d <- getitem dims (Z.of_nat i) ;;
               Ok (acc ++ [bool_decide (Z.of_nat x = d)]))
            [] ;;
   reduce andb eqs)%res.

(** The chain of comparisons on the dtype of a field in [apply], which
    the method writes out once for [src_data] and once for [dst_data];
    the two copies differ by the line numbers they report and by the
    message of the last branch. *)
Definition set_data (dataid : Z) (a : ndarray) (line_double line_float
    line_int : nat) (invalid : dtype -> cdms_msg) : M unit :=
  (if decide (dtype_of a = float64) then
     r <- native (nccf_set_data_double dataid (data a) 0 NC_FILL_DOUBLE) ;;
     catchError (status r) line_double
   else if decide (dtype_of a = float32) then
     r <- native (nccf_set_data_float dataid (data a) 0 NC_FILL_FLOAT) ;;
     catchError (status r) line_float
   else if decide (dtype_of a = int32) then
     r <- native (nccf_set_data_int dataid (data a) 0 (c_int NC_FILL_INT)) ;;
     catchError (status r) line_int
   else raise (CDMSError (invalid (dtype_of a))))%py.

(** [apply(self, src_data, dst_data)].  The native interpolation writes
    into the buffer of [dst_data]. *)
Definition apply (s : self) (src_data dst_data : loc) : M unit :=
  (* Check *)
  (src <- read_array src_data ;;
   ok <- lift (shape_test (shape src) (src_dims s) (ndims s)) ;;
   if Bool.eqb ok false then
     raise (CDMSError (SrcDataWrongShape (shape src) (src_dims s)))
   else
   dst <- read_array dst_data ;;
   ok <- lift (shape_test (shape dst) (dst_dims s) (ndims s)) ;;
   if Bool.eqb ok false then
     raise (CDMSError (DstDataWrongShape (shape dst) (dst_dims s)))
   else
   (* Create data objects *)
   r <- native (nccf_def_data (src_gridid s) "src_data" "" "" "") ;;
   catchError (status r) 331 ;;;
   let src_dataid := out_int r in
   set_data src_dataid src 337 343 349 InvalidSrcDataType ;;;
   r <- native (nccf_def_data (dst_gridid s) "dst_data" "" "" "") ;;
   catchError (status r) 358 ;;;
   let dst_dataid := out_int r in
   set_data dst_dataid dst 364 370 376 InvalidDstDataType ;;;
   (* Now apply weights *)
   r <- native (nccf_apply_regrid (regridid s) src_dataid dst_dataid) ;;
   poke_array dst_data (out_reals r) ;;;
   catchError (status r) 383 ;;;
   (* Clean up *)
   r <- native (nccf_free_data src_dataid) ;;
   catchError (status r) 387 ;;;
   r <- native (nccf_free_data dst_dataid) ;;
   catchError (status r) 389)%py.

(** [numpy.array(l).ctypes.data_as(POINTER(c_double))] for a list [l] of
    Python numbers: what native code reads through the pointer.  A list
    of integers makes an integer array, whose bytes are read as doubles.
    Any other list (one with a float in it, and the empty list) makes a
    float64 array: its items are the floats of the list, and the
    integers of the list converted to float64. *)
Definition double_buffer (l : list pynum) : list Q :=
  match l, integers l with
  | _ :: _, Some zs => ints_as_doubles zs
  | _, _ => map (fun x => match x with
                          | PyFloat q => q
                          | PyInteger z => astype object_ float64 (inject_Z z)
                          end) l
  end.

(** [getIndicesAndWeights(self, dst_indices)] *)
Definition getIndicesAndWeights (s : self) (dst_indices : list pynum)
  : M (list (list Z) * list Q) :=
  (let dinds := double_buffer dst_indices in
   let sinds := c_int_array (2 ^ ndims s) in
   let weights := data (numpy_zeros [2 ^ ndims s] float64) in
   r <- native (nccf_get_regrid_weights (regridid s) dinds) ;;
   let sinds := write_buffer sinds (out_ints r) in
   let weights := write_buffer weights (out_reals r) in
   catchError (status r) 443 ;;;
   (* convert the flat indices to index sets *)
   ori_inds <- forM (range (2 ^ ndims s))
                 (fun i ori_inds =>
                    let inx := replicate (ndims s) 0%Z in
                    flat <- lift (getitem sinds (Z.of_nat i)) ;;
                    r <- native (nccf_get_multi_index (ndims s) (src_dims s) flat) ;;
                    let inx := write_buffer inx (out_ints r) in
                    ret (ori_inds ++ [inx]))
                 [] ;;
   ret (ori_inds, weights))%py.

(** [_findIndices(self, targetPos, nitermax, tolpos, dindicesGuess,
    is_periodic)].  The status of the native call is not looked at. *)
Definition _findIndices (s : self) (targetPos : loc) (nitermax : Z)
    (tolpos : Q) (dindicesGuess : loc) (is_periodic : list bool)
  : M (loc * Z * Q) :=
  (pos <- read_array targetPos ;;
   isPeriodic <- lift (getPeriodicityArray (ndims s) is_periodic) ;;
   guess <- read_array dindicesGuess ;;
   res <- alloc (ObjArray guess) ;;                  (* copy.copy *)
   let niter := c_int nitermax in
   let tol := tolpos in
   coords <- forM (range (ndims s))
               (fun i acc =>
                  c <- lift (getitem (src_coords s) (Z.of_nat i)) ;;
                  a <- read_array c ;;
                  ret (acc ++ [data a]))
               [] ;;
   r <- native (nccf_find_indices_double (ndims s) (src_dims s) coords
                  isPeriodic (data pos) niter tol (data guess)) ;;
   poke_array res (out_reals r) ;;;
   ret (res, out_int r, out_real r))%py.

End Methods.

End Regrid.

(** ** The multilinear weights of a stencil *)

(** Modelled from the spec: the weights of a stencil are computed by the
    native library ([nccf_compute_regrid_weights], read back through
    [nccf_get_regrid_weights]), whose code is not part of the Python module.
    The fractional remainder of a fractional index gives the weight along
    each dimension. *)
Definition frac (x : Q) : Q := (x - inject_Z (Qfloor x))%Q.

(** Modelled from the spec: the [2^n] corners of the stencil, obtained by
    adding 0 or 1 to each dimension of the lower corner; [true] stands for
    the upper side of a dimension. *)
Fixpoint corners (n : nat) : list (list bool) :=
  match n with
  | 0 => [[]]
  | S n' => map (cons false) (corners n') ++ map (cons true) (corners n')
  end.

(** Modelled from the spec: the weight of a corner is the product over the
    dimensions of [1 - frac_k] for the lower side and [frac_k] for the upper
    side. *)
Fixpoint corner_weight (fracs : list Q) (corner : list bool) : Q :=
  match fracs, corner with
  | f :: fracs', up :: corner' =>
      ((if up then f else 1 - f) * corner_weight fracs' corner')%Q
  | _, _ => 1%Q
  end.

(** Modelled from the spec: the weights of the stencil of a fractional
    index, one for each corner. *)
Definition stencil_weights (findex : list Q) : list Q :=
  map (corner_weight (map frac findex)) (corners (length findex)).

Definition Qsum (l : list Q) : Q := foldr Qplus 0%Q l.

(** The numeric types [apply] has a branch for. *)
Definition supported_dtype (dt : dtype) : bool :=
  bool_decide (dt = float64 \/ dt = float32 \/ dt = int32).

(** A result that is no exception of the module's own checks: a value, or
    the error [catchError] raises for a native call that failed. *)
Definition ok_or_status {A} (r : result A) : Prop :=
  match r with
  | Ok _ => True
  | Raise (CDMSError (StatusError _ _)) => True
  | Raise _ => False
  end.

(** ** How the module may change the store *)

Definition is_array (w : world) (l : loc) : Prop :=
  exists a, w_heap w !! l = Some (ObjArray a).

(** Every list of the store holds references to arrays. *)
Definition lists_of_arrays (w : world) : Prop :=
  forall l xs, w_heap w !! l = Some (ObjList xs) -> Forall (is_array w) xs.

(** From [w] to [w']: every array is still there with its value, every
    list is still a list of the same length, and lists of arrays are still
    lists of arrays. *)
Definition evolves (w w' : world) : Prop :=
  (forall l a, w_heap w !! l = Some (ObjArray a) ->
               w_heap w' !! l = Some (ObjArray a)) /\
  (forall l xs, w_heap w !! l = Some (ObjList xs) ->
                exists xs', w_heap w' !! l = Some (ObjList xs') /\
                            length xs' = length xs) /\
  (lists_of_arrays w -> lists_of_arrays w').

(** A computation that only ever takes such steps, whether it returns or
    raises. *)
Definition steady {A} (c : M A) : Prop :=
  forall w, evolves w (c w).2.

(** ** The data of the module's own test *)

Module Test.

(* source grid, tensor product of axes *)
Definition src_x : ndarray :=
  {| dtype_of := int64; shape := [4]; data := [1; 2; 3; 4]%Q |}.
Definition src_y : ndarray :=
  {| dtype_of := int64; shape := [3]; data := [10; 20; 30]%Q |}.
Definition src_z : ndarray :=
  {| dtype_of := int64; shape := [2]; data := [100; 200]%Q |}.

(* destination grid, product of axes *)
Definition dst_x : ndarray :=
  {| dtype_of := float64; shape := [4];
     data := [3 # 2; 2; 5 # 2; 7 # 2]%Q |}.
Definition dst_y : ndarray :=
  {| dtype_of := float64; shape := [3]; data := [15; 20; 25]%Q |}.
Definition dst_z : ndarray :=
  {| dtype_of := float64; shape := [2]; data := [120; 180]%Q |}.

(** The store before [Regrid([src_x, src_y, src_z], [dst_x, dst_y,
    dst_z])]: the six axes, then the two lists. *)
Definition src_grid : loc := 6.
Definition dst_grid : loc := 7.
Definition w0 : world :=
  {| w_heap := [ObjArray src_x; ObjArray src_y; ObjArray src_z;
                ObjArray dst_x; ObjArray dst_y; ObjArray dst_z;
                ObjList [0; 1; 2]; ObjList [3; 4; 5]];
     w_trace := [] |}.

(** A native library in which every call succeeds; a new handle is the
    number of calls made before, and the weights of any stencil are
    those of the fractional index (1/2, 4/5, 2/5). *)
Definition libcf (tr : list call) (c : call) : reply :=
  {| status := 0;
     out_int := Z.of_nat (length tr);
     out_ints := [];
     out_real := 0;
     out_reals := match c with
                  | nccf_get_regrid_weights _ _ =>
                      stencil_weights [1 # 2; 4 # 5; 2 # 5]%Q
                  | _ => []
                  end |}.

(** A native library whose locator gives up: it reports a failure, the
    iteration budget as used up, a residual of 1, and leaves the guess
    where it was. *)
Definition stuck_libcf (tr : list call) (c : call) : reply :=
  match c with
  | nccf_find_indices_double _ _ _ _ _ niter _ res =>
      {| status := 1; out_int := niter; out_ints := [];
         out_real := 1; out_reals := res |}
  | _ => libcf tr c
  end.

(** The conversion of a value to another dtype, on the values of the
    test: they are integers below [2^53] and doubles, which the
    conversion to float64 leaves as they are. *)
Definition astype (src dst : dtype) (x : Q) : Q := x.

(** The doubles read from the bytes of an array of 64-bit integers, on
    the indices [0 <= k < 2^52] of the test: the subnormal number
    [k * 2^-1074]. *)
Definition ints_as_doubles (l : list Z) : list Q :=
  map (fun k => inject_Z k * (1 # 2 ^ 1074))%Q l.

Definition init : result Regrid.self * world :=
  Regrid.__init__ "libcf" (fun _ => true) libcf astype src_grid dst_grid w0.

(** The operator of the test, and the store once it is built. *)
Definition rg : Regrid.self :=
  {| Regrid.regridid := 8;
     Regrid.src_gridid := 6;
     Regrid.dst_gridid := 7;
     Regrid.ndims := 3;
     Regrid.src_dims := [4; 3; 2]%Z;
     Regrid.dst_dims := [4; 3; 2]%Z;
     Regrid.src_coords := [14; 16; 18];
     Regrid.dst_coords := [15; 17; 19];
     Regrid.src_coordids := [0; 2; 4]%Z;
     Regrid.dst_coordids := [1; 3; 5]%Z |}.
Definition w1 : world := init.2.

(** [src_data] and [dst_data] of the test: the field [x * y + z] on the
    source grid and the background value on the destination grid. *)
Definition src_data : ndarray :=
  {| dtype_of := float32; shape := [4; 3; 2];
     data := [110; 210; 120; 220; 130; 230;
              120; 220; 140; 240; 160; 260;
              130; 230; 160; 260; 190; 290;
              140; 240; 180; 280; 220; 320]%Q |}.
Definition dst_data : ndarray :=
  {| dtype_of := float32; shape := [4; 3; 2];
     data := replicate 24 (-1)%Q |}.

(** The store of the test when [apply] is called. *)
Definition w2 : world :=
  {| w_heap := w_heap w1 ++ [ObjArray src_data; ObjArray dst_data];
     w_trace := w_trace w1 |}.
Definition src_data_loc : loc := 20.
Definition dst_data_loc : loc := 21.

(** The fill values of netCDF, which [libCFConfig] passes on. *)
Definition NC_FILL_DOUBLE : Q := inject_Z (99692099683868690 * 10 ^ 20).
Definition NC_FILL_FLOAT : Q := inject_Z (99692099683868690 * 10 ^ 20).
Definition NC_FILL_INT : Z := (-2147483647)%Z.

(** The store of the test when [_findIndices] is called: the target
    position (1.5, 18, 140) and a guess for its fractional index. *)
Definition target_pos : ndarray :=
  {| dtype_of := float64; shape := [3]; data := [3 # 2; 18; 140]%Q |}.
Definition guess : ndarray :=
  {| dtype_of := float64; shape := [3]; data := [1; 1; 1 # 2]%Q |}.
Definition w_locate : world :=
  {| w_heap := w_heap w1 ++ [ObjArray target_pos; ObjArray guess];
     w_trace := w_trace w1 |}.
Definition target_pos_loc : loc := 20.
Definition guess_loc : loc := 21.

(** A field with a fourth dimension, and one with two dimensions only,
    next to the fields of the test. *)
Definition src_data_4d : ndarray :=
  {| dtype_of := float32; shape := [4; 3; 2; 5];
     data := replicate 120 0%Q |}.
Definition src_data_2d : ndarray :=
  {| dtype_of := float32; shape := [4; 3]; data := replicate 12 0%Q |}.
Definition w3 : world :=
  {| w_heap := w_heap w2 ++ [ObjArray src_data_4d; ObjArray src_data_2d];
     w_trace := w_trace w2 |}.
Definition src_data_4d_loc : loc := 22.
Definition src_data_2d_loc : loc := 23.

(** One-dimensional grids: [Regrid([src_x], [dst_x])], and the lists
    [[src_x, src_x]] and [[]] for grids of other lengths. *)
Definition w_1d : world :=
  {| w_heap := [ObjArray src_x; ObjArray dst_x;
                ObjList [0]; ObjList [1]; ObjList [0; 0]; ObjList []];
     w_trace := [] |}.

(** Three 2-D descriptors for a 3-D grid. *)
Definition plane : ndarray :=
  {| dtype_of := float64; shape := [2; 2]; data := [0; 1; 2; 3]%Q |}.
Definition w_planes : world :=
  {| w_heap := [ObjArray plane; ObjArray plane; ObjArray plane;
                ObjList [0; 1; 2]];
     w_trace := [] |}.

End Test.

(** * The rest of the module *)

(** ** The functions of gsRegrid.py that only read *)

(** [getNetCDFFillValue(dtype)], with the constants of [libCFConfig] as
    parameters. *)
Definition getNetCDFFillValue (NC_FILL_DOUBLE NC_FILL_FLOAT : Q)
    (NC_FILL_INT NC_FILL_SHORT NC_FILL_BYTE : Z) (dt : dtype)
  : result pynum :=
  if decide (dt = float64) then Ok (PyFloat NC_FILL_DOUBLE)
  else if decide (dt = float32) then Ok (PyFloat NC_FILL_FLOAT)
  else if decide (dt = int32) then Ok (PyInteger NC_FILL_INT)
  else if decide (dt = int16) then Ok (PyInteger NC_FILL_SHORT)
  else if decide (dt = int8) then Ok (PyInteger NC_FILL_BYTE)
  else Raise (CDMSError (InvalidType dt)).

(** [Regrid.getSrcGrid(self)] and [Regrid.getDstGrid(self)]: the lists of
    coordinate arrays the constructor stored. *)
Definition getSrcGrid (s : Regrid.self) : list loc := Regrid.src_coords s.
Definition getDstGrid (s : Regrid.self) : list loc := Regrid.dst_coords s.

(** ** Closed forms and frames *)

(** The elements of the tensor product of an axis placed at dimension
    [dim] of a grid of sizes [dims]: each value of the axis is repeated over
    the dimensions after [dim], and the whole is repeated over the
    dimensions before it. *)
Definition tensor_data (axis : list Q) (dim : nat) (dims : list nat) : list Q :=
  concat (replicate (size_of_shape (take dim dims))
            (flat_map (replicate (size_of_shape (drop (dim + 1) dims))) axis)).

(** The flags of a periodicity list on [n] axes. *)
Definition flags_of (n : nat) (is_periodic : list bool) : list Z :=
  map (fun i => match is_periodic !! i with
                | Some true => 1%Z
                | _ => 0%Z
                end) (seq 0 n).

(** From [w] to [w']: the store has not shrunk, and every object that was
    there, except at the references in [P], is the same. *)
Definition frame (P : loc -> Prop) (w w' : world) : Prop :=
  length (w_heap w) <= length (w_heap w') /\
  forall l, l < length (w_heap w) -> ~ P l -> w_heap w' !! l = w_heap w !! l.

(** A computation that writes to the references in [P] and to new objects
    only, whether it returns or raises. *)
Definition framed {A} (P : loc -> Prop) (c : M A) : Prop :=
  forall w, frame P w (c w).2.

(** A computation that makes no native call. *)
Definition quiet {A} (c : M A) : Prop :=
  forall w, w_trace (c w).2 = w_trace w.

(** From [w] to [w']: the store has the same objects, except that the
    array at [l], if there is one, may hold other values; it keeps its
    dtype, its shape and its number of elements. *)
Definition same_but_data (l : loc) (w w' : world) : Prop :=
  length (w_heap w') = length (w_heap w) /\
  (forall l', l' <> l -> w_heap w' !! l' = w_heap w !! l') /\
  match w_heap w !! l with
  | Some (ObjArray a) =>
      exists a', w_heap w' !! l = Some (ObjArray a') /\
                 dtype_of a' = dtype_of a /\
                 shape a' = shape a /\
                 length (data a') = length (data a)
  | o => w_heap w' !! l = o
  end.

(** A computation that changes at most the values of the array at [l]. *)
Definition data_only {A} (l : loc) (c : M A) : Prop :=
  forall w, same_but_data l w (c w).2.

(** A computation that leaves the store and the trace as they are. *)
Definition reads {A} (c : M A) : Prop :=
  forall w, (c w).2 = w.

(** ** More data: a curvilinear grid, a field of 16-bit integers *)

Module Data.

(** The two coordinates of a 2 x 2 curvilinear grid, and the lists of a
    source and a destination grid made of them. *)
Definition xx : ndarray :=
  {| dtype_of := float64; shape := [2; 2]; data := [0; 0; 1; 1]%Q |}.
Definition yy : ndarray :=
  {| dtype_of := float64; shape := [2; 2]; data := [0; 1; 0; 1]%Q |}.
Definition src_grid : loc := 2.
Definition dst_grid : loc := 3.
Definition w_curvilinear : world :=
  {| w_heap := [ObjArray xx; ObjArray yy; ObjList [0; 1]; ObjList [0; 1]];
     w_trace := [] |}.

(** A destination field of 16-bit integers next to the source field of
    the test. *)
Definition short_data : ndarray :=
  {| dtype_of := int16; shape := [4; 3; 2]; data := replicate 24 0%Q |}.
Definition w_short : world :=
  {| w_heap := w_heap Test.w1 ++ [ObjArray Test.src_data; ObjArray short_data];
     w_trace := w_trace Test.w1 |}.
Definition src_data_loc : loc := 20.
Definition short_data_loc : loc := 21.

(** A native library in which every call reports an error, as it does
    for an identifier it does not know. *)
Definition failing_libcf (tr : list call) (c : call) : reply :=
  {| status := 1; out_int := 0; out_ints := []; out_real := 0;
     out_reals := [] |}.

End Data.

(** * Properties *)

(** ** Running the monad *)

Lemma bind_run {A B} (c : M A) (k : A -> M B) (w w' : world) (a : A) :
  c w = (Ok a, w') -> bind c k w = k a w'.
Proof. intros E. unfold bind. rewrite E. reflexivity. Qed.

Lemma bind_run_raise {A B} (c : M A) (k : A -> M B) (w w' : world) (e : exn) :
  c w = (Raise e, w') -> bind c k w = (Raise e, w').
Proof. intros E. unfold bind. rewrite E. reflexivity. Qed.

Lemma catchError_zero (lineno : nat) (w : world) :
  catchError 0 lineno w = (Ok tt, w).
Proof. reflexivity. Qed.

Lemma catchError_nonzero (st : Z) (lineno : nat) (w : world) :
  st <> 0%Z ->
  catchError st lineno w = (Raise (CDMSError (StatusError st lineno)), w).
Proof.
  intros Hst. unfold catchError. destruct (decide _); [reflexivity | contradiction].
Qed.

Lemma native_run libcf (c : call) (w : world) :
  Regrid.native libcf c w
  = (Ok (libcf (w_trace w) c),
     {| w_heap := w_heap w; w_trace := w_trace w ++ [c] |}).
Proof. reflexivity. Qed.

Lemma lift_ok {A} (r : result A) (a : A) (w : world) :
  r = Ok a -> lift r w = (Ok a, w).
Proof. intros ->. reflexivity. Qed.

Lemma read_array_run (l : loc) (a : ndarray) (w : world) :
  w_heap w !! l = Some (ObjArray a) -> read_array l w = (Ok a, w).
Proof. intros E. unfold read_array. rewrite E. reflexivity. Qed.

Lemma read_list_run (l : loc) (xs : list loc) (w : world) :
  w_heap w !! l = Some (ObjList xs) -> read_list l w = (Ok xs, w).
Proof. intros E. unfold read_list. rewrite E. reflexivity. Qed.

(** ** Arrays: sizes, offsets and lookups *)

Lemma size_of_shape_app (s1 s2 : list nat) :
  size_of_shape (s1 ++ s2) = size_of_shape s1 * size_of_shape s2.
Proof.
  induction s1 as [|d s1 IH]; simpl.
  - lia.
  - rewrite IH. lia.
Qed.

Lemma ravel_app (s1 s2 ks1 ks2 : list nat) :
  Forall2 lt ks1 s1 ->
  forall acc, ravel (s1 ++ s2) (ks1 ++ ks2) acc = ravel s1 ks1 acc ≫= ravel s2 ks2.
Proof.
  induction 1 as [|k d ks1 s1 Hk _ IH]; intros acc; simpl.
  - reflexivity.
  - destruct (decide (k < d)); [apply IH | contradiction].
Qed.

Lemma ravel_offset (shp ks : list nat) :
  Forall2 lt ks shp ->
  exists r, r < size_of_shape shp /\
            forall acc, ravel shp ks acc = Some (acc * size_of_shape shp + r).
Proof.
  induction 1 as [|k d ks shp Hk _ (r & Hr & IH)]; simpl.
  - exists 0. split; [lia | intros acc; f_equal; lia].
  - exists (k * size_of_shape shp + r). split; [nia |].
    intros acc. destruct (decide (k < d)); [| contradiction].
    rewrite IH. f_equal. lia.
Qed.

Lemma length_flat_map_const {A B} (f : A -> list B) (n : nat) (l : list A) :
  (forall x, length (f x) = n) -> length (flat_map f l) = length l * n.
Proof.
  intros Hf. induction l as [|x l IH]; simpl; [reflexivity |].
  rewrite length_app, Hf, IH. lia.
Qed.

(** In a concatenation of blocks of [n] elements, element [j] of block [i]
    sits at offset [i * n + j]. *)
Lemma lookup_flat_map_const {A B} (f : A -> list B) (n : nat) (l : list A) :
  (forall x, length (f x) = n) ->
  forall i j, j < n ->
    flat_map f l !! (i * n + j) = l !! i ≫= fun x => f x !! j.
Proof.
  intros Hf. induction l as [|x l IH]; intros i j Hj; simpl.
  - destruct i; reflexivity.
  - destruct i as [|i]; simpl.
    + rewrite lookup_app_l by (rewrite Hf; lia). reflexivity.
    + rewrite lookup_app_r by (rewrite Hf; lia).
      rewrite Hf. replace (n + i * n + j - n) with (i * n + j) by lia.
      apply IH, Hj.
Qed.

Lemma Qmult_1_l_eq (x : Q) : (1 * x)%Q = x.
Proof. destruct x as [[|p|p] d]; reflexivity. Qed.

Lemma Qmult_1_r_eq (x : Q) : (x * 1)%Q = x.
Proof.
  destruct x as [n d]. unfold Qmult; simpl.
  rewrite Z.mul_1_r, Pos.mul_1_r. reflexivity.
Qed.

(** The elements of [outer(outer(ones(B), axis), ones(A))], block by block. *)
Lemma tensor_data_lookup (axis : list Q) (B A b k a : nat) (x : Q) :
  b < B -> a < A -> axis !! k = Some x ->
  flat_map (fun u => map (fun y => (u * y)%Q) (replicate A 1%Q))
    (flat_map (fun o => map (fun y => (o * y)%Q) axis) (replicate B 1%Q))
    !! ((b * length axis + k) * A + a) = Some x.
Proof.
  intros Hb Ha Hk.
  assert (k < length axis) by (eapply lookup_lt_Some; eassumption).
  rewrite (lookup_flat_map_const _ A)
    by (try (intros; rewrite length_map, length_replicate); done).
  rewrite (lookup_flat_map_const _ (length axis))
    by (try (intros; rewrite length_map); done).
  rewrite lookup_replicate_2 by lia. simpl.
  rewrite list_lookup_fmap, Hk. simpl.
  rewrite list_lookup_fmap, lookup_replicate_2 by lia. simpl.
  rewrite Qmult_1_l_eq, Qmult_1_r_eq. reflexivity.
Qed.

(** ** C4: the tensor product of an axis *)

(** C4.  For a 1-D axis of length [L] placed at dimension [i] of a grid
    with sizes [dims], where [dims[i] = L], [getTensorProduct] returns an
    array of shape [dims] whose value at every multi-index
    [(k_0, ..., k_{N-1})] is [axis[k_i]]. *)
Theorem getTensorProduct_broadcast (axis : ndarray) (i : nat) (dims : list nat) :
  shape axis = [length (data axis)] ->
  dims !! i = Some (length (data axis)) ->
  exists r,
    getTensorProduct axis i dims = Ok r /\
    shape r = dims /\
    forall ks k, Forall2 lt ks dims -> ks !! i = Some k ->
      exists x, item axis [k] = Ok x /\ item r ks = Ok x.
Proof.
  intros Hax Hi.
  pose proof (take_drop_middle dims i _ Hi) as Hsplit.
  assert (Hleni : length (take i dims) = i).
  { apply length_take_le. apply lookup_lt_Some in Hi. lia. }
  set (L := length (data axis)) in *.
  set (before := take i dims) in *.
  set (after := drop (S i) dims) in *.
  assert (Hsize : size_of_shape dims
                  = size_of_shape before * L * size_of_shape after).
  { rewrite <- Hsplit, size_of_shape_app. simpl. lia. }
  unfold getTensorProduct, reshape.
  replace (i + 1) with (S i) by lia. fold before after.
  destruct (decide _) as [_|Hne]; cycle 1.
  { exfalso. apply Hne. simpl.
    rewrite (length_flat_map_const _ (size_of_shape after))
      by (intros; rewrite length_map, length_replicate; done).
    rewrite (length_flat_map_const _ L)
      by (intros; rewrite length_map; done).
    rewrite length_replicate. lia. }
  eexists. split; [reflexivity |]. split; [reflexivity |].
  intros ks k Hks Hk.
  rewrite <- Hsplit in Hks.
  apply Forall2_app_inv_r in Hks as (kb & krest & Hkb & Hrest & ->).
  apply Forall2_cons_inv_r in Hrest as (k' & ka & Hk' & Hka & ->).
  assert (Hlenkb : length kb = i).
  { apply Forall2_length in Hkb. lia. }
  rewrite lookup_app_r in Hk by lia.
  replace (i - length kb) with 0 in Hk by lia.
  simpl in Hk. injection Hk as ->.
  destruct (ravel_offset _ _ Hkb) as (rb & Hrb & Eb).
  destruct (ravel_offset _ _ Hka) as (ra & Hra & Ea).
  destruct (lookup_lt_is_Some_2 (data axis) k Hk') as [x Hx].
  exists x. split.
  - unfold item. rewrite Hax. simpl. fold L.
    destruct (decide (k < L)) as [_|]; [| contradiction].
    rewrite Hx. reflexivity.
  - unfold item. cbn [shape data numpy_outer numpy_ones].
    rewrite <- Hsplit at 1.
    rewrite (ravel_app _ _ _ _ Hkb), Eb. simpl.
    destruct (decide (k < L)) as [_|]; [| contradiction].
    rewrite Ea.
    pose proof (tensor_data_lookup _ _ _ rb k ra x Hrb Hra Hx) as Hlookup.
    fold L in Hlookup. rewrite Hlookup. reflexivity.
Qed.

(** ** C10: the periodicity flags *)

Lemma getitem_lookup {A} (l : list A) (i : nat) (x : A) :
  l !! i = Some x -> getitem l (Z.of_nat i) = Ok x.
Proof.
  intros Hx. unfold getitem.
  destruct (Z.ltb_spec (Z.of_nat i) 0) as [?|_]; [lia |].
  destruct (Z.ltb_spec (Z.of_nat i) 0) as [?|_]; [lia |].
  rewrite Nat2Z.id, Hx. reflexivity.
Qed.

Lemma getitem_nat_inv {A} (l : list A) (i : nat) (x : A) :
  getitem l (Z.of_nat i) = Ok x -> l !! i = Some x.
Proof.
  unfold getitem.
  destruct (Z.ltb_spec (Z.of_nat i) 0) as [?|_]; [lia |].
  destruct (Z.ltb_spec (Z.of_nat i) 0) as [?|_]; [lia |].
  rewrite Nat2Z.id. destruct (l !! i); [congruence | discriminate].
Qed.

(** The first loop of [getPeriodicityArray] leaves the fresh array as it is. *)
Lemma zero_loop (n : nat) (l : list nat) :
  Forall (fun i => i < n) l ->
  for_each l (fun i res => c_int_setitem res i 0) (c_int_array n)
  = Ok (c_int_array n).
Proof.
  unfold c_int_array.
  induction 1 as [|i l Hi _ IH]; simpl; [reflexivity |].
  unfold c_int_setitem at 1. rewrite length_replicate.
  destruct (decide (i < n)); [| contradiction].
  change (c_int 0) with 0%Z. rewrite insert_replicate. exact IH.
Qed.

(** The second loop, started at index [j] with [m] rounds to go. *)
Lemma flag_loop (is_periodic : list bool) (m : nat) :
  forall (j : nat) (res : list Z),
    j + m = length is_periodic ->
    length is_periodic <= length res ->
    exists res',
      for_each (seq j m)
        (fun i res =>
           b <- getitem is_periodic (Z.of_nat i) ;;
           if (b : bool) then c_int_setitem res i 1 else Ok res)%res
        res = Ok res' /\
      length res' = length res /\
      forall i, res' !! i =
                if decide (j <= i /\ is_periodic !! i = Some true)
                then Some 1%Z else res !! i.
Proof.
  induction m as [|m IH]; intros j res Hjm Hlen; simpl.
  - exists res. split; [reflexivity |]. split; [reflexivity |].
    intros i. destruct (decide _) as [[Hji Hi]|]; [| reflexivity].
    apply lookup_lt_Some in Hi. lia.
  - destruct (lookup_lt_is_Some_2 is_periodic j ltac:(lia)) as [b Hb].
    rewrite (getitem_lookup _ _ _ Hb). simpl.
    destruct b.
    + unfold c_int_setitem at 1.
      destruct (decide (j < length res)); [| lia]. simpl.
      change (c_int 1) with 1%Z.
      destruct (IH (S j) (<[j := 1%Z]> res)) as (res' & E & Hl & Hget);
        [lia | rewrite length_insert; lia |].
      exists res'. split; [exact E |].
      split; [rewrite Hl; apply length_insert |].
      intros i. rewrite Hget.
      destruct (decide (j = i)) as [<-|Hne].
      * rewrite list_lookup_insert_eq by lia.
        destruct (decide (S j <= j /\ _)) as [[? _]|_]; [lia |].
        destruct (decide (j <= j /\ _)) as [_|Hno]; [reflexivity |].
        exfalso. apply Hno. split; [lia | exact Hb].
      * rewrite list_lookup_insert_ne by done.
        destruct (decide (S j <= i /\ _)) as [[? Hi]|Hno];
          destruct (decide (j <= i /\ _)) as [[? Hi']|Hno'];
          try reflexivity; exfalso.
        -- apply Hno'. split; [lia | exact Hi].
        -- apply Hno. split; [lia | exact Hi'].
    + destruct (IH (S j) res) as (res' & E & Hl & Hget); [lia | lia |].
      exists res'. split; [exact E |]. split; [exact Hl |].
      intros i. rewrite Hget.
      destruct (decide (S j <= i /\ _)) as [[? Hi]|Hno];
        destruct (decide (j <= i /\ _)) as [[? Hi']|Hno'];
        try reflexivity; exfalso.
      * apply Hno'. split; [lia | exact Hi].
      * destruct (decide (j = i)) as [<-|Hne]; [congruence |].
        apply Hno. split; [lia | exact Hi'].
Qed.

Lemma getPeriodicityArray_ok (n : nat) (is_periodic : list bool) :
  length is_periodic <= n ->
  exists res,
    getPeriodicityArray n is_periodic = Ok res /\
    length res = n /\
    forall i, i < n ->
      res !! i = Some (match is_periodic !! i with
                       | Some true => 1%Z
                       | _ => 0%Z
                       end).
Proof.
  intros Hlen. unfold getPeriodicityArray.
  rewrite zero_loop by (apply Forall_seq; intros; lia). simpl.
  destruct (flag_loop is_periodic (length is_periodic) 0 (c_int_array n))
    as (res & E & Hl & Hget);
    [lia | unfold c_int_array; rewrite length_replicate; lia |].
  unfold range. exists res. split; [exact E |].
  unfold c_int_array in *. rewrite length_replicate in Hl.
  split; [exact Hl |].
  intros i Hi. rewrite Hget, lookup_replicate_2 by lia.
  destruct (decide _) as [[_ ->]|Hno]; [reflexivity |].
  destruct (is_periodic !! i) as [[|]|]; try reflexivity.
  exfalso. apply Hno. split; [lia | reflexivity].
Qed.

(** C10.  For a periodicity list of length [k <= N], the flags passed on to
    the native library form an [N]-vector whose [i]-th entry is 1 exactly
    when [i < k] and the [i]-th element of the list is true, and 0
    otherwise; [computeWeights] hands that vector to
    [nccf_compute_regrid_weights] in the one call it makes (it makes none
    when ctypes refuses the iteration budget). *)
Theorem periodicity_flags (s : Regrid.self) (is_periodic : list bool) :
  length is_periodic <= Regrid.ndims s ->
  exists flags,
    getPeriodicityArray (Regrid.ndims s) is_periodic = Ok flags /\
    length flags = Regrid.ndims s /\
    (forall i, i < Regrid.ndims s ->
       flags !! i = Some (match is_periodic !! i with
                          | Some true => 1%Z
                          | _ => 0%Z
                          end)) /\
    forall libcf nitermax tolpos w,
      w_trace (Regrid.computeWeights libcf s nitermax tolpos is_periodic w).2
      = w_trace w ++ match c_int_arg nitermax with
                     | Ok n => [nccf_compute_regrid_weights (Regrid.regridid s)
                                  n tolpos flags]
                     | Raise _ => []
                     end.
Proof.
  intros Hlen.
  destruct (getPeriodicityArray_ok _ _ Hlen) as (flags & E & Hl & Hget).
  exists flags. repeat split; try assumption.
  intros libcf nitermax tolpos w.
  unfold Regrid.computeWeights, bind, lift, Regrid.native, catchError.
  rewrite E. simpl.
  destruct (c_int_arg nitermax) as [n|e]; simpl.
  - destruct (decide _); reflexivity.
  - rewrite app_nil_r. reflexivity.
Qed.

(** ** C9: the weights of a stencil add up to one *)

Lemma Qsum_app (l1 l2 : list Q) : (Qsum (l1 ++ l2) == Qsum l1 + Qsum l2)%Q.
Proof.
  induction l1 as [|x l1 IH]; simpl.
  - ring.
  - rewrite IH. ring.
Qed.

Lemma Qsum_scale (c : Q) (l : list Q) :
  (Qsum (map (Qmult c) l) == c * Qsum l)%Q.
Proof.
  induction l as [|x l IH]; simpl.
  - ring.
  - rewrite IH. ring.
Qed.

Lemma length_corners (n : nat) : length (corners n) = 2 ^ n.
Proof.
  induction n as [|n IH]; simpl; [reflexivity |].
  rewrite length_app, !length_map, IH. lia.
Qed.

Lemma corner_weights_sum (fracs : list Q) :
  (Qsum (map (corner_weight fracs) (corners (length fracs))) == 1)%Q.
Proof.
  induction fracs as [|f fracs IH]; simpl.
  - ring.
  - rewrite map_app, Qsum_app, !map_map. simpl.
    rewrite <- (map_map (corner_weight fracs) (Qmult (1 - f))).
    rewrite <- (map_map (corner_weight fracs) (Qmult f)).
    rewrite !Qsum_scale, IH. ring.
Qed.

Lemma stencil_weights_sum (findex : list Q) :
  (Qsum (stencil_weights findex) == 1)%Q.
Proof.
  unfold stencil_weights.
  rewrite <- (length_map frac findex). apply corner_weights_sum.
Qed.

Lemma length_stencil_weights (findex : list Q) :
  length (stencil_weights findex) = 2 ^ length findex.
Proof. unfold stencil_weights. rewrite length_map. apply length_corners. Qed.

Lemma length_write_buffer {A} (old new : list A) :
  length (write_buffer old new) = length old.
Proof.
  unfold write_buffer. rewrite length_app, length_take, length_drop. lia.
Qed.

Lemma write_buffer_full {A} (old new : list A) :
  length new = length old -> write_buffer old new = new.
Proof.
  intros Hlen. unfold write_buffer.
  rewrite <- Hlen, firstn_all, drop_ge by lia. apply app_nil_r.
Qed.

(** The loop of [getIndicesAndWeights] over the corners of the stencil
    does not raise. *)
Lemma multi_index_loop libcf (n : nat) (dims sinds : list Z) (l : list nat) :
  Forall (fun i => i < length sinds) l ->
  forall acc w,
  exists inds w',
    forM l
      (fun i ori_inds =>
         flat <- lift (getitem sinds (Z.of_nat i)) ;;
         r <- Regrid.native libcf (nccf_get_multi_index n dims flat) ;;
         ret (ori_inds ++ [write_buffer (replicate n 0%Z) (out_ints r)]))%py
      acc w = (Ok inds, w').
Proof.
  induction 1 as [|i l Hi _ IH]; intros acc w; simpl.
  - eexists _, _. reflexivity.
  - destruct (lookup_lt_is_Some_2 sinds i Hi) as [flat Hflat].
    erewrite bind_run; cycle 1.
    { erewrite bind_run by (apply lift_ok, getitem_lookup, Hflat).
      erewrite bind_run by apply native_run. reflexivity. }
    apply IH.
Qed.

(** C9.  When the native library answers [getIndicesAndWeights] with the
    multilinear weights of a valid stencil of an [N]-dimensional operator,
    the method returns [2^N] weights whose sum is 1. *)
Theorem stencil_weights_normalized libcf astype ints_as_doubles
    (s : Regrid.self) (dst_indices : list pynum) (findex : list Q)
    (w : world) :
  let r := libcf (w_trace w)
             (nccf_get_regrid_weights (Regrid.regridid s)
                (Regrid.double_buffer astype ints_as_doubles dst_indices)) in
  length findex = Regrid.ndims s ->
  status r = 0%Z ->
  out_reals r = stencil_weights findex ->
  exists inds weights w',
    Regrid.getIndicesAndWeights libcf astype ints_as_doubles s dst_indices w
    = (Ok (inds, weights), w') /\
    weights = stencil_weights findex /\
    length weights = 2 ^ Regrid.ndims s /\
    (Qsum weights == 1)%Q.
Proof.
  intros r HN Hstatus Hweights. unfold r in *. clear r.
  unfold Regrid.getIndicesAndWeights. cbv zeta.
  erewrite bind_run by apply native_run.
  rewrite Hstatus, Hweights.
  erewrite bind_run by apply catchError_zero.
  match goal with
  | |- context [bind (forM ?l _ ?acc0) _ ?w0] =>
      assert (Hbound : Forall (fun i => i < length
                (write_buffer (c_int_array (2 ^ Regrid.ndims s))
                   (out_ints (libcf (w_trace w)
                                (nccf_get_regrid_weights (Regrid.regridid s)
                                   (Regrid.double_buffer astype
                                      ints_as_doubles dst_indices)))))) l);
      [| destruct (multi_index_loop libcf (Regrid.ndims s) (Regrid.src_dims s)
                     _ l Hbound acc0 w0) as (inds & w' & E)]
  end.
  { apply Forall_seq. intros i Hi.
    rewrite length_write_buffer. unfold c_int_array.
    rewrite length_replicate. lia. }
  erewrite bind_run by exact E.
  eexists _, _, _. split; [reflexivity |].
  rewrite write_buffer_full
    by (rewrite length_stencil_weights, HN; simpl;
        rewrite length_replicate; lia).
  split; [reflexivity |].
  split; [rewrite length_stencil_weights, HN; reflexivity |].
  apply stencil_weights_sum.
Qed.

(** ** C8: the index locator does not raise on non-convergence *)

Lemma alloc_run (o : obj) (w : world) :
  alloc o w = (Ok (length (w_heap w)),
               {| w_heap := w_heap w ++ [o]; w_trace := w_trace w |}).
Proof. reflexivity. Qed.

Lemma poke_array_run (l : loc) (a : ndarray) (new : list Q) (w : world) :
  w_heap w !! l = Some (ObjArray a) ->
  poke_array l new w
  = (Ok tt,
     {| w_heap := <[l := ObjArray {| dtype_of := dtype_of a;
                                     shape := shape a;
                                     data := write_buffer (data a) new |}]>
                    (w_heap w);
        w_trace := w_trace w |}).
Proof.
  intros E. unfold poke_array.
  erewrite bind_run by (apply read_array_run, E). reflexivity.
Qed.

(** Collecting the data pointers of the source coordinates reads the store
    and leaves it as it is. *)
Lemma src_coords_loop (coords : list loc) (w : world) (l : list nat) :
  Forall (fun i => exists c a, coords !! i = Some c /\
                               w_heap w !! c = Some (ObjArray a)) l ->
  forall acc,
  exists ptrs,
    forM l
      (fun i acc =>
         c <- lift (getitem coords (Z.of_nat i)) ;;
         a <- read_array c ;;
         ret (acc ++ [data a]))%py
      acc w = (Ok ptrs, w).
Proof.
  induction 1 as [|i l (c & a & Hc & Ha) _ IH]; intros acc; simpl.
  - eexists. reflexivity.
  - erewrite bind_run; cycle 1.
    { erewrite bind_run by (apply lift_ok, getitem_lookup, Hc).
      erewrite bind_run by (apply read_array_run, Ha). reflexivity. }
    apply IH.
Qed.

(** C8.  Whatever the native locator answers -- in particular whatever its
    status, the iteration count and the tolerance it reports -- the method
    [_findIndices] returns the triple (fractional index, iterations used,
    achieved tolerance).  The fractional index is a new array; the guess
    and every other object of the caller are left as they were. *)
Theorem findIndices_returns libcf (s : Regrid.self) (targetPos guess : loc)
    (pos g : ndarray) (nitermax : Z) (tolpos : Q) (is_periodic : list bool)
    (w : world) :
  w_heap w !! targetPos = Some (ObjArray pos) ->
  w_heap w !! guess = Some (ObjArray g) ->
  length (Regrid.src_coords s) = Regrid.ndims s ->
  Forall (is_array w) (Regrid.src_coords s) ->
  length is_periodic <= Regrid.ndims s ->
  exists flags ptrs w',
    let r := libcf (w_trace w)
               (nccf_find_indices_double (Regrid.ndims s) (Regrid.src_dims s)
                  ptrs flags (data pos) (c_int nitermax) tolpos (data g)) in
    let res := length (w_heap w) in
    getPeriodicityArray (Regrid.ndims s) is_periodic = Ok flags /\
    Regrid._findIndices libcf s targetPos nitermax tolpos guess is_periodic w
    = (Ok (res, out_int r, out_real r), w') /\
    w_heap w' !! guess = Some (ObjArray g) /\
    (forall l, l < length (w_heap w) -> w_heap w' !! l = w_heap w !! l) /\
    w_heap w' !! res
    = Some (ObjArray {| dtype_of := dtype_of g; shape := shape g;
                        data := write_buffer (data g) (out_reals r) |}).
Proof.
  intros Hpos Hguess Hlen Hcoords Hper.
  destruct (getPeriodicityArray_ok _ _ Hper) as (flags & Eflags & _ & _).
  set (w1 := {| w_heap := w_heap w ++ [ObjArray g]; w_trace := w_trace w |}).
  destruct (src_coords_loop (Regrid.src_coords s) w1
              (range (Regrid.ndims s))) with (acc := @nil (list Q))
    as [ptrs Eptrs].
  { apply Forall_seq. intros i Hi.
    destruct (lookup_lt_is_Some_2 (Regrid.src_coords s) i ltac:(lia)) as [c Hc].
    rewrite Forall_lookup in Hcoords.
    destruct (Hcoords _ _ Hc) as [a Ha].
    exists c, a. split; [exact Hc |].
    unfold w1. simpl.
    rewrite lookup_app_l by (eapply lookup_lt_Some; eassumption).
    exact Ha. }
  exists flags, ptrs. eexists. cbv zeta.
  split; [exact Eflags |].
  unfold Regrid._findIndices. cbv zeta.
  erewrite bind_run by (apply read_array_run, Hpos).
  erewrite bind_run by (apply lift_ok, Eflags).
  erewrite bind_run by (apply read_array_run, Hguess).
  erewrite bind_run by apply alloc_run. fold w1.
  erewrite bind_run by exact Eptrs.
  erewrite bind_run by apply native_run.
  erewrite bind_run; cycle 1.
  { apply poke_array_run with (a := g). simpl.
    apply list_lookup_middle. reflexivity. }
  split; [reflexivity |]. simpl.
  assert (Hfresh : forall l, l < length (w_heap w) ->
            <[length (w_heap w) := ObjArray
                {| dtype_of := dtype_of g; shape := shape g;
                   data := write_buffer (data g)
                             (out_reals (libcf (w_trace w)
                                (nccf_find_indices_double (Regrid.ndims s)
                                   (Regrid.src_dims s) ptrs flags (data pos)
                                   (c_int nitermax) tolpos (data g)))) |}]>
              (w_heap w ++ [ObjArray g]) !! l = w_heap w !! l).
  { intros l Hl. rewrite list_lookup_insert_ne by lia.
    apply lookup_app_l, Hl. }
  split; [| split].
  - rewrite Hfresh by (eapply lookup_lt_Some; eassumption). exact Hguess.
  - exact Hfresh.
  - apply list_lookup_insert_eq. rewrite length_app. simpl. lia.
Qed.

(** ** C7: the dispatch of [apply] on the numeric type *)

Lemma fold_left_andb_true (n : nat) :
  fold_left andb (replicate n true) true = true.
Proof. induction n as [|n IH]; simpl; [reflexivity | exact IH]. Qed.

(** On a field whose shape is the grid's, every comparison of the shape
    test holds. *)
Lemma shape_eqs_loop (shp : list nat) (m : nat) :
  forall (j : nat) (acc : list bool),
    j + m <= length shp ->
    for_each (seq j m)
      (fun i acc =>
         x <- getitem shp (Z.of_nat i) ;;
         d <- getitem (map Z.of_nat shp) (Z.of_nat i) ;;
         Ok (acc ++ [bool_decide (Z.of_nat x = d)]))%res
      acc = Ok (acc ++ replicate m true).
Proof.
  induction m as [|m IH]; intros j acc Hj; simpl.
  - rewrite app_nil_r. reflexivity.
  - destruct (lookup_lt_is_Some_2 shp j ltac:(lia)) as [x Hx].
    rewrite (getitem_lookup _ _ _ Hx). simpl.
    rewrite (getitem_lookup (map Z.of_nat shp) j (Z.of_nat x))
      by (rewrite list_lookup_fmap, Hx; reflexivity).
    simpl. rewrite bool_decide_eq_true_2 by reflexivity.
    rewrite IH by lia. rewrite <- app_assoc. reflexivity.
Qed.

Lemma shape_test_same (shp : list nat) (dims : list Z) (n : nat) :
  map Z.of_nat shp = dims -> length dims = n -> 0 < n ->
  Regrid.shape_test shp dims n = Ok true.
Proof.
  intros <- Hlen Hn. rewrite length_map in Hlen.
  unfold Regrid.shape_test, range.
  rewrite shape_eqs_loop by lia. simpl.
  destruct n as [|n]; [lia |]. simpl.
  rewrite fold_left_andb_true. reflexivity.
Qed.

Section Apply.

Variables (NC_FILL_DOUBLE NC_FILL_FLOAT : Q) (NC_FILL_INT : Z).
Variable libcf : list call -> call -> reply.
Hypothesis libcf_ok : forall tr c, status (libcf tr c) = 0%Z.

Lemma set_data_supported (dataid : Z) (a : ndarray) (l1 l2 l3 : nat)
    (invalid : dtype -> cdms_msg) (w : world) :
  supported_dtype (dtype_of a) = true ->
  exists c, Regrid.set_data NC_FILL_DOUBLE NC_FILL_FLOAT NC_FILL_INT libcf
              dataid a l1 l2 l3 invalid w
            = (Ok tt, {| w_heap := w_heap w; w_trace := w_trace w ++ [c] |}).
Proof using libcf_ok.
  intros Hsup. apply bool_decide_eq_true_1 in Hsup.
  unfold Regrid.set_data.
  destruct (decide (dtype_of a = float64));
    [| destruct (decide (dtype_of a = float32));
       [| destruct (decide (dtype_of a = int32)); [| exfalso; tauto]]].
  all: eexists; erewrite bind_run by apply native_run;
    rewrite libcf_ok; reflexivity.
Qed.

Lemma set_data_unsupported (dataid : Z) (a : ndarray) (l1 l2 l3 : nat)
    (invalid : dtype -> cdms_msg) (w : world) :
  supported_dtype (dtype_of a) = false ->
  Regrid.set_data NC_FILL_DOUBLE NC_FILL_FLOAT NC_FILL_INT libcf
    dataid a l1 l2 l3 invalid w
  = (Raise (CDMSError (invalid (dtype_of a))), w).
Proof.
  intros Hsup. apply bool_decide_eq_false_1 in Hsup.
  unfold Regrid.set_data.
  destruct (decide (dtype_of a = float64)); [exfalso; tauto |].
  destruct (decide (dtype_of a = float32)); [exfalso; tauto |].
  destruct (decide (dtype_of a = int32)); [exfalso; tauto |].
  reflexivity.
Qed.

(** What [apply] returns on two fields of the right shape, by the numeric
    types of the fields. *)
Lemma apply_by_dtype (s : Regrid.self) (src_data dst_data : loc)
    (src dst : ndarray) (w : world) :
  w_heap w !! src_data = Some (ObjArray src) ->
  w_heap w !! dst_data = Some (ObjArray dst) ->
  0 < Regrid.ndims s ->
  length (Regrid.src_dims s) = Regrid.ndims s ->
  length (Regrid.dst_dims s) = Regrid.ndims s ->
  map Z.of_nat (shape src) = Regrid.src_dims s ->
  map Z.of_nat (shape dst) = Regrid.dst_dims s ->
  (Regrid.apply NC_FILL_DOUBLE NC_FILL_FLOAT NC_FILL_INT libcf
     s src_data dst_data w).1
  = if supported_dtype (dtype_of src) then
      if supported_dtype (dtype_of dst) then Ok tt
      else Raise (CDMSError (InvalidDstDataType (dtype_of dst)))
    else Raise (CDMSError (InvalidSrcDataType (dtype_of src))).
Proof using libcf_ok.
  intros Hsrc Hdst HN Hls Hld Hss Hsd.
  unfold Regrid.apply. cbv zeta.
  erewrite bind_run by (apply read_array_run, Hsrc).
  erewrite bind_run
    by (apply lift_ok, shape_test_same; eassumption).
  cbn [Bool.eqb].
  erewrite bind_run by (apply read_array_run, Hdst).
  erewrite bind_run
    by (apply lift_ok, shape_test_same; eassumption).
  cbn [Bool.eqb].
  erewrite bind_run by apply native_run.
  rewrite libcf_ok.
  erewrite bind_run by apply catchError_zero.
  destruct (supported_dtype (dtype_of src)) eqn:Esrc; cycle 1.
  { erewrite bind_run_raise by (apply set_data_unsupported, Esrc).
    reflexivity. }
  edestruct set_data_supported as [c1 E1]; [exact Esrc |].
  erewrite bind_run by exact E1.
  erewrite bind_run by apply native_run.
  rewrite libcf_ok.
  erewrite bind_run by apply catchError_zero.
  destruct (supported_dtype (dtype_of dst)) eqn:Edst; cycle 1.
  { erewrite bind_run_raise by (apply set_data_unsupported, Edst).
    reflexivity. }
  edestruct set_data_supported as [c2 E2]; [exact Edst |].
  erewrite bind_run by exact E2.
  erewrite bind_run by apply native_run.
  erewrite bind_run by (apply poke_array_run; simpl; exact Hdst).
  rewrite libcf_ok.
  erewrite bind_run by apply catchError_zero.
  erewrite bind_run by apply native_run.
  rewrite libcf_ok.
  erewrite bind_run by apply catchError_zero.
  erewrite bind_run by apply native_run.
  rewrite libcf_ok. reflexivity.
Qed.

End Apply.

(** A native call followed by [catchError]: the rest runs when the status
    is zero. *)
Lemma bind_native_catch {A} libcf (c : call) (lineno : nat)
    (k : reply -> M A) (w : world) :
  bind (Regrid.native libcf c)
    (fun r => bind (catchError (status r) lineno) (fun _ => k r)) w
  = let r := libcf (w_trace w) c in
    let w' := {| w_heap := w_heap w; w_trace := w_trace w ++ [c] |} in
    if decide (status r <> 0%Z)
    then (Raise (CDMSError (StatusError (status r) lineno)), w')
    else k r w'.
Proof.
  unfold bind, Regrid.native, catchError. simpl.
  destruct (decide _); reflexivity.
Qed.

Lemma native_catch_last libcf (c : call) (lineno : nat) (w : world) :
  ok_or_status
    (bind (Regrid.native libcf c) (fun r => catchError (status r) lineno) w).1.
Proof.
  unfold bind, Regrid.native, catchError. simpl.
  destruct (decide _); exact I.
Qed.

(** Whatever the native library answers, [set_data] on a supported type
    leaves the store alone and raises at most the error of a failed call. *)
Lemma set_data_cases (NC_FILL_DOUBLE NC_FILL_FLOAT : Q) (NC_FILL_INT : Z)
    libcf (dataid : Z) (a : ndarray) (l1 l2 l3 : nat)
    (invalid : dtype -> cdms_msg) (w : world) :
  supported_dtype (dtype_of a) = true ->
  exists w',
    w_heap w' = w_heap w /\
    (Regrid.set_data NC_FILL_DOUBLE NC_FILL_FLOAT NC_FILL_INT libcf
       dataid a l1 l2 l3 invalid w = (Ok tt, w') \/
     exists st ln,
       Regrid.set_data NC_FILL_DOUBLE NC_FILL_FLOAT NC_FILL_INT libcf
         dataid a l1 l2 l3 invalid w
       = (Raise (CDMSError (StatusError st ln)), w')).
Proof.
  intros Hsup. apply bool_decide_eq_true_1 in Hsup.
  unfold Regrid.set_data.
  destruct (decide (dtype_of a = float64));
    [| destruct (decide (dtype_of a = float32));
       [| destruct (decide (dtype_of a = int32)); [| exfalso; tauto]]].
  all: unfold bind, Regrid.native, catchError; simpl;
    destruct (decide _); eexists; (split; [| eauto]); reflexivity.
Qed.

(** With both numeric types supported, no answer of the native library
    makes [apply] raise an error about the type or the shape. *)
Lemma apply_supported_any_library (NC_FILL_DOUBLE NC_FILL_FLOAT : Q)
    (NC_FILL_INT : Z) libcf (s : Regrid.self) (src_data dst_data : loc)
    (src dst : ndarray) (w : world) :
  w_heap w !! src_data = Some (ObjArray src) ->
  w_heap w !! dst_data = Some (ObjArray dst) ->
  0 < Regrid.ndims s ->
  length (Regrid.src_dims s) = Regrid.ndims s ->
  length (Regrid.dst_dims s) = Regrid.ndims s ->
  map Z.of_nat (shape src) = Regrid.src_dims s ->
  map Z.of_nat (shape dst) = Regrid.dst_dims s ->
  supported_dtype (dtype_of src) = true ->
  supported_dtype (dtype_of dst) = true ->
  ok_or_status
    (Regrid.apply NC_FILL_DOUBLE NC_FILL_FLOAT NC_FILL_INT libcf
       s src_data dst_data w).1.
Proof.
  intros Hsrc Hdst HN Hls Hld Hss Hsd Esrc Edst.
  unfold Regrid.apply. cbv zeta.
  erewrite bind_run by (apply read_array_run, Hsrc).
  erewrite bind_run by (apply lift_ok, shape_test_same; eassumption).
  cbn [Bool.eqb].
  erewrite bind_run by (apply read_array_run, Hdst).
  erewrite bind_run by (apply lift_ok, shape_test_same; eassumption).
  cbn [Bool.eqb].
  rewrite bind_native_catch. cbv zeta.
  destruct (decide _); [exact I |].
  match goal with
  | |- context [bind (Regrid.set_data _ _ _ _ ?d _ ?a1 ?a2 ?a3 ?inv) _ ?w0] =>
      destruct (set_data_cases NC_FILL_DOUBLE NC_FILL_FLOAT NC_FILL_INT libcf
                  d src a1 a2 a3 inv w0 Esrc)
        as (w1 & Hh1 & [E1 | (st & ln & E1)])
  end.
  2: { erewrite bind_run_raise by exact E1. exact I. }
  erewrite bind_run by exact E1.
  rewrite bind_native_catch. cbv zeta.
  destruct (decide _); [exact I |].
  match goal with
  | |- context [bind (Regrid.set_data _ _ _ _ ?d _ ?a1 ?a2 ?a3 ?inv) _ ?w0] =>
      destruct (set_data_cases NC_FILL_DOUBLE NC_FILL_FLOAT NC_FILL_INT libcf
                  d dst a1 a2 a3 inv w0 Edst)
        as (w2 & Hh2 & [E2 | (st & ln & E2)])
  end.
  2: { erewrite bind_run_raise by exact E2. exact I. }
  erewrite bind_run by exact E2.
  erewrite bind_run by apply native_run.
  erewrite bind_run
    by (apply poke_array_run with (a := dst); simpl;
        rewrite Hh2; simpl; rewrite Hh1; exact Hdst).
  unfold bind at 1. unfold catchError at 1.
  destruct (decide _); [exact I |]. unfold ret at 1.
  rewrite bind_native_catch. cbv zeta.
  destruct (decide _); [exact I |].
  apply native_catch_last.
Qed.

(** X20.  Whatever the native library answers, an error of [apply] about
    the numeric type comes from a field whose type is not supported. *)
Lemma apply_type_error_only_if (NC_FILL_DOUBLE NC_FILL_FLOAT : Q)
    (NC_FILL_INT : Z) libcf (s : Regrid.self) (src_data dst_data : loc)
    (src dst : ndarray) (w : world) (e : exn) :
  w_heap w !! src_data = Some (ObjArray src) ->
  w_heap w !! dst_data = Some (ObjArray dst) ->
  0 < Regrid.ndims s ->
  length (Regrid.src_dims s) = Regrid.ndims s ->
  length (Regrid.dst_dims s) = Regrid.ndims s ->
  map Z.of_nat (shape src) = Regrid.src_dims s ->
  map Z.of_nat (shape dst) = Regrid.dst_dims s ->
  (Regrid.apply NC_FILL_DOUBLE NC_FILL_FLOAT NC_FILL_INT libcf
     s src_data dst_data w).1 = Raise e ->
  is_UnsupportedType e ->
  supported_dtype (dtype_of src) = false \/
  supported_dtype (dtype_of dst) = false.
Proof.
  intros Hsrc Hdst HN Hls Hld Hss Hsd Hout He.
  destruct (supported_dtype (dtype_of src)) eqn:Esrc; [| left; reflexivity].
  destruct (supported_dtype (dtype_of dst)) eqn:Edst; [| right; reflexivity].
  exfalso.
  pose proof (apply_supported_any_library NC_FILL_DOUBLE NC_FILL_FLOAT
                NC_FILL_INT libcf s src_data dst_data src dst w
                Hsrc Hdst HN Hls Hld Hss Hsd Esrc Edst) as Hbenign.
  rewrite Hout in Hbenign.
  destruct e as [[]| | | | | | |]; simpl in He, Hbenign; contradiction.
Qed.

(** The native call of [set_data] on a supported type, whatever the
    library answers: which entry point it is goes by the dtype, and the
    status of the call decides between a return and the error of the
    line. *)
Lemma set_data_run (NC_FILL_DOUBLE NC_FILL_FLOAT : Q) (NC_FILL_INT : Z)
    libcf (dataid : Z) (a : ndarray) (l1 l2 l3 : nat)
    (invalid : dtype -> cdms_msg) (w : world) :
  supported_dtype (dtype_of a) = true ->
  let c := if decide (dtype_of a = float64)
           then nccf_set_data_double dataid (data a) 0 NC_FILL_DOUBLE
           else if decide (dtype_of a = float32)
           then nccf_set_data_float dataid (data a) 0 NC_FILL_FLOAT
           else nccf_set_data_int dataid (data a) 0 (c_int NC_FILL_INT) in
  let ln := if decide (dtype_of a = float64) then l1
            else if decide (dtype_of a = float32) then l2 else l3 in
  let r := libcf (w_trace w) c in
  Regrid.set_data NC_FILL_DOUBLE NC_FILL_FLOAT NC_FILL_INT libcf
    dataid a l1 l2 l3 invalid w
  = (if decide (status r <> 0%Z)
     then Raise (CDMSError (StatusError (status r) ln)) else Ok tt,
     {| w_heap := w_heap w; w_trace := w_trace w ++ [c] |}).
Proof.
  intros Hsup. apply bool_decide_eq_true_1 in Hsup.
  cbv zeta. unfold Regrid.set_data.
  destruct (decide (dtype_of a = float64));
    [| destruct (decide (dtype_of a = float32));
       [| destruct (decide (dtype_of a = int32)); [| exfalso; tauto]]].
  all: unfold bind, Regrid.native, catchError; simpl;
    destruct (decide _); reflexivity.
Qed.

(** C7, as amended.  On two fields of the right shape, [apply] raises the
    error of an unsupported numeric type exactly when the type of a field
    is not 64-bit float, 32-bit float or 32-bit integer and every native
    call made before the type of that field is tested has reported
    success: a call that fails is reported first, as a status error.
    When both types are supported no answer of the library leads to a
    type error, and when the native calls succeed [apply] runs to its
    end. *)
Theorem apply_unsupported_type (NC_FILL_DOUBLE NC_FILL_FLOAT : Q)
    (NC_FILL_INT : Z) (libcf : list call -> call -> reply)
    (s : Regrid.self) (src_data dst_data : loc) (src dst : ndarray)
    (w : world) :
  w_heap w !! src_data = Some (ObjArray src) ->
  w_heap w !! dst_data = Some (ObjArray dst) ->
  0 < Regrid.ndims s ->
  length (Regrid.src_dims s) = Regrid.ndims s ->
  length (Regrid.dst_dims s) = Regrid.ndims s ->
  map Z.of_nat (shape src) = Regrid.src_dims s ->
  map Z.of_nat (shape dst) = Regrid.dst_dims s ->
  let out := (Regrid.apply NC_FILL_DOUBLE NC_FILL_FLOAT NC_FILL_INT libcf
                s src_data dst_data w).1 in
  (* the native calls that precede the test of the type of [dst_data] *)
  let d1 := nccf_def_data (Regrid.src_gridid s) "src_data" "" "" "" in
  let r1 := libcf (w_trace w) d1 in
  let c1 := if decide (dtype_of src = float64)
            then nccf_set_data_double (out_int r1) (data src) 0
                   NC_FILL_DOUBLE
            else if decide (dtype_of src = float32)
            then nccf_set_data_float (out_int r1) (data src) 0 NC_FILL_FLOAT
            else nccf_set_data_int (out_int r1) (data src) 0
                   (c_int NC_FILL_INT) in
  let r2 := libcf (w_trace w ++ [d1]) c1 in
  let d2 := nccf_def_data (Regrid.dst_gridid s) "dst_data" "" "" "" in
  let r3 := libcf (w_trace w ++ [d1; c1]) d2 in
  ((exists e, out = Raise e /\ is_UnsupportedType e) <->
   status r1 = 0%Z /\
   (supported_dtype (dtype_of src) = false \/
    (status r2 = 0%Z /\ status r3 = 0%Z /\
     supported_dtype (dtype_of dst) = false))) /\
  (supported_dtype (dtype_of src) = true ->
   supported_dtype (dtype_of dst) = true -> ok_or_status out) /\
  ((forall tr c, status (libcf tr c) = 0%Z) ->
   supported_dtype (dtype_of src) = true ->
   supported_dtype (dtype_of dst) = true -> out = Ok tt).
Proof.
  intros Hsrc Hdst HN Hls Hld Hss Hsd. cbv zeta.
  destruct (supported_dtype (dtype_of src)) eqn:Esrc;
    [destruct (supported_dtype (dtype_of dst)) eqn:Edst |].
  - (* both types are supported *)
    pose proof (apply_supported_any_library NC_FILL_DOUBLE NC_FILL_FLOAT
                  NC_FILL_INT libcf s src_data dst_data src dst w
                  Hsrc Hdst HN Hls Hld Hss Hsd Esrc Edst) as Hbenign.
    split; [split | split].
    + intros (e & E & He). rewrite E in Hbenign.
      destruct e as [[]| | | | | | |]; simpl in He, Hbenign; contradiction.
    + intros [_ [H | (_ & _ & H)]]; discriminate.
    + intros _ _. exact Hbenign.
    + intros Hok _ _.
      rewrite (apply_by_dtype _ _ _ libcf Hok s src_data dst_data src dst w)
        by assumption.
      rewrite Esrc, Edst. reflexivity.
  - (* the type of [dst_data] is not supported *)
    split; [| split; intros; discriminate].
    unfold Regrid.apply. cbv zeta.
    erewrite bind_run by (apply read_array_run, Hsrc).
    erewrite bind_run by (apply lift_ok, shape_test_same; eassumption).
    cbn [Bool.eqb].
    erewrite bind_run by (apply read_array_run, Hdst).
    erewrite bind_run by (apply lift_ok, shape_test_same; eassumption).
    cbn [Bool.eqb].
    rewrite bind_native_catch. cbv zeta.
    destruct (decide (status _ <> 0%Z)) as [H1|H1].
    { simpl. split.
      - intros (e & E & He). injection E as <-. destruct He.
      - intros [H _]. contradiction. }
    apply dec_stable in H1.
    match goal with
    | |- context [bind (Regrid.set_data _ _ _ _ ?d _ ?a1 ?a2 ?a3 ?inv) _ ?w0] =>
        pose proof (set_data_run NC_FILL_DOUBLE NC_FILL_FLOAT NC_FILL_INT
                      libcf d src a1 a2 a3 inv w0 Esrc) as E1
    end.
    cbv zeta in E1. cbn [w_trace w_heap] in E1.
    destruct (decide (status _ <> 0%Z)) as [H2|H2] in E1.
    { erewrite bind_run_raise by exact E1. simpl. split.
      - intros (e & E & He). injection E as <-. destruct He.
      - intros [_ [H | (H & _)]]; [discriminate | contradiction]. }
    apply dec_stable in H2.
    erewrite bind_run by exact E1.
    rewrite bind_native_catch. cbv zeta. cbn [w_trace w_heap].
    rewrite <- app_assoc. cbn [app].
    destruct (decide (status _ <> 0%Z)) as [H3|H3].
    { simpl. split.
      - intros (e & E & He). injection E as <-. destruct He.
      - intros [_ [H | (_ & H & _)]]; [discriminate | contradiction]. }
    apply dec_stable in H3.
    erewrite bind_run_raise by (apply set_data_unsupported, Edst).
    simpl. split.
    + intros _. split; [exact H1 |]. right.
      split; [exact H2 |]. split; [exact H3 | reflexivity].
    + intros _. eexists. split; [reflexivity | exact I].
  - (* the type of [src_data] is not supported *)
    split; [| split; intros; discriminate].
    unfold Regrid.apply. cbv zeta.
    erewrite bind_run by (apply read_array_run, Hsrc).
    erewrite bind_run by (apply lift_ok, shape_test_same; eassumption).
    cbn [Bool.eqb].
    erewrite bind_run by (apply read_array_run, Hdst).
    erewrite bind_run by (apply lift_ok, shape_test_same; eassumption).
    cbn [Bool.eqb].
    rewrite bind_native_catch. cbv zeta.
    destruct (decide (status _ <> 0%Z)) as [H1|H1].
    { simpl. split.
      - intros (e & E & He). injection E as <-. destruct He.
      - intros [H _]. contradiction. }
    apply dec_stable in H1.
    erewrite bind_run_raise by (apply set_data_unsupported, Esrc).
    simpl. split.
    + intros _. split; [exact H1 | left; reflexivity].
    + intros _. eexists. split; [reflexivity | exact I].
Qed.

(** ** What the normalizer does to the store *)

Lemma evolves_refl (w : world) : evolves w w.
Proof. repeat split; eauto. Qed.

Lemma evolves_trans (w1 w2 w3 : world) :
  evolves w1 w2 -> evolves w2 w3 -> evolves w1 w3.
Proof.
  intros (Ha & Hl & Hw) (Ha' & Hl' & Hw'). repeat split; eauto.
  intros l xs Hxs. destruct (Hl _ _ Hxs) as (xs' & Hxs' & Hlen).
  destruct (Hl' _ _ Hxs') as (xs'' & Hxs'' & Hlen').
  exists xs''. split; [exact Hxs'' | congruence].
Qed.

Lemma steady_ret {A} (a : A) : steady (ret a).
Proof. intros w. apply evolves_refl. Qed.

Lemma steady_raise {A} (e : exn) : steady (@raise A e).
Proof. intros w. apply evolves_refl. Qed.

Lemma steady_lift {A} (r : result A) : steady (lift r).
Proof. intros w. apply evolves_refl. Qed.

Lemma steady_read_array (l : loc) : steady (read_array l).
Proof.
  intros w. unfold read_array.
  destruct (w_heap w !! l) as [[]|]; apply evolves_refl.
Qed.

Lemma steady_read_list (l : loc) : steady (read_list l).
Proof.
  intros w. unfold read_list.
  destruct (w_heap w !! l) as [[]|]; apply evolves_refl.
Qed.

Lemma steady_bind {A B} (c : M A) (k : A -> M B) :
  steady c -> (forall a, steady (k a)) -> steady (bind c k).
Proof.
  intros Hc Hk w. unfold bind. specialize (Hc w).
  destruct (c w) as [[a|e] w1]; simpl in *; [| exact Hc].
  eapply evolves_trans; [exact Hc | apply Hk].
Qed.

Lemma steady_forM {A S} (l : list A) (body : A -> S -> M S) :
  (forall x s, steady (body x s)) -> forall s, steady (forM l body s).
Proof.
  intros Hbody. induction l as [|x l IH]; intros s; simpl.
  - apply steady_ret.
  - apply steady_bind; [apply Hbody | exact IH].
Qed.

Lemma steady_list_getitem (lst : loc) (i : nat) : steady (list_getitem lst i).
Proof.
  unfold list_getitem. apply steady_bind; [apply steady_read_list |].
  intros xs. apply steady_lift.
Qed.

Lemma is_array_alloc (w : world) (o : obj) (l : loc) :
  is_array w l ->
  is_array {| w_heap := w_heap w ++ [o]; w_trace := w_trace w |} l.
Proof.
  intros [a Ha]. exists a. simpl.
  rewrite lookup_app_l by (eapply lookup_lt_Some; eassumption). exact Ha.
Qed.

(** A new array. *)
Lemma steady_alloc_array (a : ndarray) : steady (alloc (ObjArray a)).
Proof.
  intros w. unfold alloc. simpl. repeat split.
  - intros l b Hb. simpl.
    rewrite lookup_app_l by (eapply lookup_lt_Some; eassumption). exact Hb.
  - intros l xs Hxs. exists xs. split; [| reflexivity]. simpl.
    rewrite lookup_app_l by (eapply lookup_lt_Some; eassumption). exact Hxs.
  - intros Hwf l xs Hxs. simpl in Hxs.
    destruct (decide (l < length (w_heap w))) as [Hl|Hl].
    + rewrite lookup_app_l in Hxs by exact Hl.
      eapply Forall_impl; [apply (Hwf _ _ Hxs) |].
      intros x. apply is_array_alloc.
    + rewrite lookup_app_r in Hxs by lia.
      destruct (l - length (w_heap w)) as [|[|n]]; simpl in Hxs; discriminate.
Qed.

(** A new array stored in an element of a list. *)
Lemma steady_store_new_array (lst : loc) (i : nat) (a : ndarray) :
  steady (bind (alloc (ObjArray a)) (fun l => list_setitem lst i l)).
Proof.
  intros w. unfold bind, alloc, list_setitem, bind, read_list. simpl.
  set (w1 := {| w_heap := w_heap w ++ [ObjArray a]; w_trace := w_trace w |}).
  assert (H1 : evolves w w1) by apply (steady_alloc_array a w).
  destruct ((w_heap w ++ [ObjArray a]) !! lst) as [[b|xs]|] eqn:Hlst;
    simpl; try exact H1.
  destruct (decide (i < length xs)) as [Hi|Hi]; simpl; [| exact H1].
  eapply evolves_trans; [exact H1 |]. unfold w1. clear H1 w1.
  assert (Hlt : lst < length (w_heap w ++ [ObjArray a]))
    by (eapply lookup_lt_Some; eassumption).
  repeat split; simpl.
  - intros l b Hb.
    rewrite list_lookup_insert_ne by congruence. exact Hb.
  - intros l ys Hys. destruct (decide (lst = l)) as [<-|Hne].
    + rewrite list_lookup_insert_eq by exact Hlt.
      eexists. split; [reflexivity |].
      rewrite length_insert. congruence.
    + rewrite list_lookup_insert_ne by exact Hne. eauto.
  - intros Hwf l ys Hys. simpl in Hys.
    assert (Hkeep : forall x,
              is_array {| w_heap := w_heap w ++ [ObjArray a];
                          w_trace := w_trace w |} x ->
              is_array {| w_heap := <[lst := ObjList (<[i := length (w_heap w)]> xs)]>
                                      (w_heap w ++ [ObjArray a]);
                          w_trace := w_trace w |} x).
    { intros x [b Hb]. exists b. simpl in *.
      rewrite list_lookup_insert_ne by congruence. exact Hb. }
    destruct (decide (lst = l)) as [<-|Hne].
    + rewrite list_lookup_insert_eq in Hys by exact Hlt.
      injection Hys as <-.
      apply Forall_insert.
      * eapply Forall_impl; [apply (Hwf _ _ Hlst) | exact Hkeep].
      * apply Hkeep. exists a. simpl.
        apply list_lookup_middle. reflexivity.
    + rewrite list_lookup_insert_ne in Hys by exact Hne.
      eapply Forall_impl; [apply (Hwf _ _ Hys) | exact Hkeep].
Qed.

Ltac steady_tac :=
  repeat first
    [ apply steady_ret
    | apply steady_raise
    | apply steady_lift
    | apply steady_read_array
    | apply steady_read_list
    | apply steady_list_getitem
    | apply steady_store_new_array
    | apply steady_forM; intros
    | apply steady_bind; [| intros]
    | progress cbv zeta
    | match goal with
      | |- steady (if ?b then _ else _) => destruct b
      | |- steady (match ?p with (_, _) => _ end) => destruct p
      | |- steady (match ?u with tt => _ end) => destruct u
      end ].

(** The normalizer only creates arrays and stores them in its list. *)
Lemma steady_makeCurvilinear (coords : loc) : steady (makeCurvilinear coords).
Proof. unfold makeCurvilinear. steady_tac. Qed.

(** The part of the purity of the normalizer that holds: whether it
    returns or raises, no array of the caller is modified. *)
Lemma makeCurvilinear_keeps_arrays (coords l : loc) (a : ndarray) (w : world) :
  w_heap w !! l = Some (ObjArray a) ->
  w_heap (makeCurvilinear coords w).2 !! l = Some (ObjArray a).
Proof. intros Ha. apply (steady_makeCurvilinear coords w), Ha. Qed.

Lemma bind_ok_inv {A B} (c : M A) (k : A -> M B) (w w' : world) (b : B) :
  bind c k w = (Ok b, w') ->
  exists a w1, c w = (Ok a, w1) /\ k a w1 = (Ok b, w').
Proof.
  unfold bind. destruct (c w) as [[a|e] w1]; intros H; [eauto | discriminate].
Qed.

Lemma ret_ok_inv {A} (a b : A) (w w' : world) :
  ret a w = (Ok b, w') -> a = b /\ w = w'.
Proof. unfold ret. intros H. injection H as -> ->. split; reflexivity. Qed.

(** A loop whose body, when it returns, has made a measure of the state
    grow by one. *)
Lemma forM_measure {A St} (m : St -> nat) (l : list A)
    (body : A -> St -> M St) :
  (forall x s w s' w', body x s w = (Ok s', w') -> m s' = S (m s)) ->
  forall s w s' w',
    forM l body s w = (Ok s', w') -> m s' = m s + length l.
Proof.
  intros Hbody. induction l as [|x l IH]; intros s w s' w' H; simpl in *.
  - apply ret_ok_inv in H as [-> _]. lia.
  - apply bind_ok_inv in H as (s1 & w1 & E & H).
    apply Hbody in E. apply IH in H. lia.
Qed.

(** When the normalizer returns, it returns the reference it was given,
    and one size for each descriptor of the list. *)
Lemma makeCurvilinear_returns (coords c : loc) (xs : list loc)
    (dims : list nat) (w w' : world) :
  w_heap w !! coords = Some (ObjList xs) ->
  makeCurvilinear coords w = (Ok (c, dims), w') ->
  c = coords /\ length dims = length xs.
Proof.
  intros Hxs H. unfold makeCurvilinear in H.
  apply bind_ok_inv in H as (cs & w1 & Ecs & H).
  rewrite (read_list_run _ _ _ Hxs) in Ecs. injection Ecs as <- <-.
  apply bind_ok_inv in H as (cd & w2 & Eloop & H). cbv zeta in H.
  apply bind_ok_inv in H as (u & w3 & _ & H).
  apply ret_ok_inv in H as [H _]. injection H as <- <-.
  split; [reflexivity |].
  apply (forM_measure (fun cd => length cd.2)) in Eloop.
  - rewrite Eloop. unfold range. rewrite length_seq. reflexivity.
  - clear. intros i [cnt dims] w s' w' H.
    apply bind_ok_inv in H as (c & w1 & _ & H).
    apply bind_ok_inv in H as (coord & w2 & _ & H).
    repeat match type of H with
           | (if ?b then _ else _) _ = _ => destruct b
           end;
      apply bind_ok_inv in H as (d & w3 & _ & H);
      apply ret_ok_inv in H as [<- _]; simpl;
      rewrite length_app; simpl; lia.
Qed.

(** ** C2: the normalizer and the caller's list *)

(** C2.  [makeCurvilinear] applied to the list [[src_x, src_y, src_z]] of
    the test returns that same list object, and the three elements of the
    list have been replaced: the caller's list is not left unchanged. *)
Theorem makeCurvilinear_overwrites_list :
  let out := makeCurvilinear Test.src_grid Test.w0 in
  out.1 = Ok (Test.src_grid, [4; 3; 2]) /\
  w_heap Test.w0 !! Test.src_grid = Some (ObjList [0; 1; 2]) /\
  w_heap out.2 !! Test.src_grid = Some (ObjList [8; 9; 10]).
Proof. vm_compute. repeat split. Qed.

(** ** C1: the construction of an operator *)

(** A one-dimensional pair of grids never gets past the loop that copies
    the sizes: [src_dims] is bound by the conversion to curvilinear
    coordinates only, which is skipped when there is one dimension. *)
Lemma init_one_dimension (LIBCFDIR : string) (CDLL : string -> bool)
    libcf astype
    (src_grid dst_grid : loc) (x y : loc) (w : world) :
  CDLL (LIBCFDIR +:+ ".so") = true ->
  w_heap w !! src_grid = Some (ObjList [x]) ->
  w_heap w !! dst_grid = Some (ObjList [y]) ->
  Regrid.__init__ LIBCFDIR CDLL libcf astype src_grid dst_grid w
  = (Raise UnboundLocalError, w).
Proof.
  intros Hlib Hsrc Hdst. unfold Regrid.__init__. rewrite Hlib.
  erewrite bind_run by reflexivity.
  erewrite bind_run by (apply read_list_run, Hsrc).
  erewrite bind_run by (apply read_list_run, Hdst).
  reflexivity.
Qed.

(** Grids of different lengths, and empty grids, are refused, but the
    exception is the [TypeError] of calling the format string. *)
Lemma init_length_error (LIBCFDIR : string) (CDLL : string -> bool)
    libcf astype
    (src_grid dst_grid : loc) (xs ys : list loc) (w : world) :
  CDLL (LIBCFDIR +:+ ".so") = true ->
  w_heap w !! src_grid = Some (ObjList xs) ->
  w_heap w !! dst_grid = Some (ObjList ys) ->
  length ys <> length xs \/ length xs = 0 ->
  Regrid.__init__ LIBCFDIR CDLL libcf astype src_grid dst_grid w
  = (Raise TypeError, w).
Proof.
  intros Hlib Hsrc Hdst Hlen. unfold Regrid.__init__. rewrite Hlib.
  erewrite bind_run by reflexivity.
  erewrite bind_run by (apply read_list_run, Hsrc).
  erewrite bind_run by (apply read_list_run, Hdst).
  destruct (decide (length ys <> length xs)); [reflexivity |].
  destruct (decide (length xs <= 0)); [reflexivity | lia].
Qed.

(** C1.  [Regrid([src_x], [dst_x])], a pair of one-dimensional grids,
    does not build an operator: it raises [UnboundLocalError].  Grids of
    different lengths and empty grids raise [TypeError], which is not the
    [CDMSError] the constructor means to raise. *)
Theorem init_one_dimension_fails :
  (Regrid.__init__ "libcf" (fun _ => true) Test.libcf Test.astype 2 3 Test.w_1d).1
  = Raise UnboundLocalError /\
  (Regrid.__init__ "libcf" (fun _ => true) Test.libcf Test.astype 4 3 Test.w_1d).1
  = Raise TypeError /\
  (Regrid.__init__ "libcf" (fun _ => true) Test.libcf Test.astype 5 5 Test.w_1d).1
  = Raise TypeError.
Proof.
  split; [| split].
  - erewrite init_one_dimension; reflexivity.
  - erewrite init_length_error; try reflexivity. left. simpl. lia.
  - erewrite init_length_error; try reflexivity. right. reflexivity.
Qed.

(** ** The construction of an operator with two dimensions or more *)

Lemma list_getitem_run (lst : loc) (i : nat) (xs : list loc) (c : loc)
    (w : world) :
  w_heap w !! lst = Some (ObjList xs) -> xs !! i = Some c ->
  list_getitem lst i w = (Ok c, w).
Proof.
  intros Hxs Hc. unfold list_getitem.
  erewrite bind_run by (apply read_list_run, Hxs).
  apply lift_ok, getitem_lookup, Hc.
Qed.


(** A loop over [range(n)] whose body keeps an invariant, indexed by the
    round, and does not raise: the loop returns, with the invariant of the
    last round. *)
Lemma forM_range_invariant {St} (I : nat -> St -> world -> Prop) (n : nat)
    (body : nat -> St -> M St) :
  (forall i s w, i < n -> I i s w ->
     exists s' w', body i s w = (Ok s', w') /\ I (S i) s' w') ->
  forall s w, I 0 s w ->
    exists s' w', forM (range n) body s w = (Ok s', w') /\ I n s' w'.
Proof.
  intros Hbody. unfold range.
  assert (Hgen : forall m j s w, j + m = n -> I j s w ->
            exists s' w', forM (seq j m) body s w = (Ok s', w') /\ I n s' w').
  { induction m as [|m IH]; intros j s w Hj HI; simpl.
    - replace n with j by lia. eexists _, _. split; [reflexivity | exact HI].
    - destruct (Hbody j s w ltac:(lia) HI) as (s1 & w1 & E & HI1).
      erewrite bind_run by exact E.
      apply IH; [lia | exact HI1]. }
  intros s w HI. apply Hgen; [lia | exact HI].
Qed.

Lemma c_int_setitem_run (arr : list Z) (i : nat) (v : Z) :
  i < length arr -> c_int_setitem arr i v = Ok (<[i := c_int v]> arr).
Proof.
  intros Hi. unfold c_int_setitem.
  destruct (decide _); [reflexivity | contradiction].
Qed.


(** ** C3: forbidden boxes *)

Lemma c_int_array_init_tuple (n : nat) (t : list Z) :
  0 < n -> c_int_array_init n [PyTuple t] = Raise TypeError.
Proof.
  intros Hn. unfold c_int_array_init, c_int_array. simpl.
  rewrite length_replicate.
  destruct (decide (0 < n)); [reflexivity | lia].
Qed.

(** On an operator with at least one dimension, no call of
    [addForbiddenBox] reaches the native library. *)
Lemma addForbiddenBox_raises libcf (s : Regrid.self) (lo hi : list Z)
    (w : world) :
  0 < Regrid.ndims s ->
  exists e, Regrid.addForbiddenBox libcf s lo hi w = (Raise e, w).
Proof.
  intros HN. unfold Regrid.addForbiddenBox.
  destruct (decide (length lo <> Regrid.ndims s)); [eexists; reflexivity |].
  destruct (decide (length hi <> Regrid.ndims s)); [eexists; reflexivity |].
  exists TypeError.
  erewrite bind_run_raise; [reflexivity |].
  unfold lift. rewrite c_int_array_init_tuple by exact HN. reflexivity.
Qed.

(** A box whose arity is wrong is refused with the error of the method,
    and nothing is passed to the native library. *)
Lemma addForbiddenBox_arity libcf (s : Regrid.self) (lo hi : list Z)
    (w : world) :
  length lo <> Regrid.ndims s \/ length hi <> Regrid.ndims s ->
  exists e, Regrid.addForbiddenBox libcf s lo hi w = (Raise e, w) /\
            is_DimensionMismatch e.
Proof.
  intros Hlen. unfold Regrid.addForbiddenBox.
  destruct (decide (length lo <> Regrid.ndims s));
    [eexists; split; [reflexivity | exact I] |].
  destruct (decide (length hi <> Regrid.ndims s));
    [eexists; split; [reflexivity | exact I] |].
  tauto.
Qed.

(** C3.  On the operator of the test, [addForbiddenBox([0, 0, 0],
    [1, 1, 1])], whose two index vectors have the length of the grid,
    raises [TypeError] and registers no box. *)
Theorem addForbiddenBox_fails :
  Regrid.addForbiddenBox Test.libcf Test.rg [0; 0; 0]%Z [1; 1; 1]%Z Test.w1
  = (Raise TypeError, Test.w1).
Proof. vm_compute. reflexivity. Qed.

(** ** C5: the descriptors the normalizer rejects *)

(** C5.  Three 2-D descriptors for a 3-D grid are not among the accepted
    patterns, and [makeCurvilinear] rejects them with [IndexError], raised
    while it collects the sizes, instead of its [CDMSError]. *)
Theorem makeCurvilinear_planes_IndexError :
  (makeCurvilinear 3 Test.w_planes).1 = Raise IndexError.
Proof. vm_compute. reflexivity. Qed.

(** ** C6: the shape test of [apply] *)

Lemma for_each_ext {A S} (l : list A) (f g : A -> S -> result S) :
  Forall (fun x => forall s, f x s = g x s) l ->
  forall s, for_each l f s = for_each l g s.
Proof.
  induction 1 as [|x l Hx _ IH]; intros s; simpl; [reflexivity |].
  rewrite Hx. destruct (g x s); simpl; [apply IH | reflexivity].
Qed.

(** The test looks at the first [n] dimensions of the field only. *)
Lemma shape_test_extra (shp extra : list nat) (dims : list Z) (n : nat) :
  n <= length shp ->
  Regrid.shape_test (shp ++ extra) dims n = Regrid.shape_test shp dims n.
Proof.
  intros Hn. unfold Regrid.shape_test. f_equal.
  apply for_each_ext, Forall_seq. intros i Hi acc.
  destruct (lookup_lt_is_Some_2 shp i ltac:(lia)) as [x Hx].
  rewrite (getitem_lookup shp i x Hx).
  rewrite (getitem_lookup (shp ++ extra) i x)
    by (rewrite lookup_app_l by lia; exact Hx).
  reflexivity.
Qed.

(** When the test on a shape fails, [apply] raises its error before any
    native call: the store and the trace are as they were. *)
Lemma apply_shape_error (NC_FILL_DOUBLE NC_FILL_FLOAT : Q) (NC_FILL_INT : Z)
    libcf (s : Regrid.self) (src_data dst_data : loc) (src dst : ndarray)
    (w : world) :
  w_heap w !! src_data = Some (ObjArray src) ->
  w_heap w !! dst_data = Some (ObjArray dst) ->
  Regrid.shape_test (shape src) (Regrid.src_dims s) (Regrid.ndims s) = Ok false \/
  (Regrid.shape_test (shape src) (Regrid.src_dims s) (Regrid.ndims s) = Ok true /\
   Regrid.shape_test (shape dst) (Regrid.dst_dims s) (Regrid.ndims s) = Ok false) ->
  exists e,
    Regrid.apply NC_FILL_DOUBLE NC_FILL_FLOAT NC_FILL_INT libcf
      s src_data dst_data w = (Raise e, w) /\
    is_ShapeMismatch e.
Proof.
  intros Hsrc Hdst [Es | [Es Ed]]; unfold Regrid.apply.
  - erewrite bind_run by (apply read_array_run, Hsrc).
    erewrite bind_run by (apply lift_ok, Es).
    eexists. split; [reflexivity | exact I].
  - erewrite bind_run by (apply read_array_run, Hsrc).
    erewrite bind_run by (apply lift_ok, Es).
    cbn [Bool.eqb].
    erewrite bind_run by (apply read_array_run, Hdst).
    erewrite bind_run by (apply lift_ok, Ed).
    eexists. split; [reflexivity | exact I].
Qed.

(** C6.  On the operator of the test, whose source grid has the sizes
    (4, 3, 2), [apply] takes a source field of shape (4, 3, 2, 5) without
    an error and runs the native interpolation on it; a source field of
    shape (4, 3) raises [IndexError]. *)
Theorem apply_shape_of_other_rank :
  let out := Regrid.apply Test.NC_FILL_DOUBLE Test.NC_FILL_FLOAT
               Test.NC_FILL_INT Test.libcf Test.rg
               Test.src_data_4d_loc Test.dst_data_loc Test.w3 in
  out.1 = Ok tt /\
  nccf_apply_regrid 8 9 11 ∈ w_trace out.2 /\
  (Regrid.apply Test.NC_FILL_DOUBLE Test.NC_FILL_FLOAT Test.NC_FILL_INT
     Test.libcf Test.rg
     Test.src_data_2d_loc Test.dst_data_loc Test.w3).1 = Raise IndexError.
Proof.
  vm_compute. split; [reflexivity |]. split; [| reflexivity].
  repeat first [apply list_elem_of_here | apply list_elem_of_further].
Qed.

(** ** The properties at the data of the test *)

(** The model of the constructor builds the operator of the test. *)
Example test_init : Test.init = (Ok Test.rg, Test.w1).
Proof. vm_compute. reflexivity. Qed.

Lemma getTensorProduct_broadcast_witness :
  exists r,
    getTensorProduct Test.src_y 1 [4; 3; 2] = Ok r /\
    shape r = [4; 3; 2] /\
    forall ks k, Forall2 lt ks [4; 3; 2] -> ks !! 1 = Some k ->
      exists x, item Test.src_y [k] = Ok x /\ item r ks = Ok x.
Proof.
  apply (getTensorProduct_broadcast Test.src_y 1 [4; 3; 2]); reflexivity.
Defined.

Lemma periodicity_flags_witness :
  exists flags,
    getPeriodicityArray 3 [true; false] = Ok flags /\
    length flags = 3 /\
    (forall i, i < 3 ->
       flags !! i = Some (match [true; false] !! i with
                          | Some true => 1%Z
                          | _ => 0%Z
                          end)) /\
    forall libcf nitermax tolpos w,
      w_trace (Regrid.computeWeights libcf Test.rg nitermax tolpos
                 [true; false] w).2
      = w_trace w ++ match c_int_arg nitermax with
                     | Ok n => [nccf_compute_regrid_weights 8 n tolpos flags]
                     | Raise _ => []
                     end.
Proof.
  apply (periodicity_flags Test.rg [true; false]). simpl. lia.
Defined.

Lemma stencil_weights_normalized_witness :
  exists inds weights w',
    Regrid.getIndicesAndWeights Test.libcf Test.astype Test.ints_as_doubles
      Test.rg [PyInteger 0; PyInteger 0; PyInteger 0] Test.w1
    = (Ok (inds, weights), w') /\
    weights = stencil_weights [1 # 2; 4 # 5; 2 # 5]%Q /\
    length weights = 2 ^ 3 /\
    (Qsum weights == 1)%Q.
Proof.
  apply (stencil_weights_normalized Test.libcf Test.astype
           Test.ints_as_doubles Test.rg
           [PyInteger 0; PyInteger 0; PyInteger 0]
           [1 # 2; 4 # 5; 2 # 5]%Q Test.w1); reflexivity.
Defined.

Lemma findIndices_returns_witness :
  exists flags ptrs w',
    let r := Test.stuck_libcf (w_trace Test.w_locate)
               (nccf_find_indices_double 3 [4; 3; 2]%Z ptrs flags
                  (data Test.target_pos) (c_int 20) (1 # 100)
                  (data Test.guess)) in
    let res := length (w_heap Test.w_locate) in
    getPeriodicityArray 3 [false] = Ok flags /\
    Regrid._findIndices Test.stuck_libcf Test.rg Test.target_pos_loc 20
      (1 # 100) Test.guess_loc [false] Test.w_locate
    = (Ok (res, out_int r, out_real r), w') /\
    w_heap w' !! Test.guess_loc = Some (ObjArray Test.guess) /\
    (forall l, l < length (w_heap Test.w_locate) ->
               w_heap w' !! l = w_heap Test.w_locate !! l) /\
    w_heap w' !! res
    = Some (ObjArray {| dtype_of := dtype_of Test.guess;
                        shape := shape Test.guess;
                        data := write_buffer (data Test.guess)
                                  (out_reals r) |}).
Proof.
  apply (findIndices_returns Test.stuck_libcf Test.rg Test.target_pos_loc
           Test.guess_loc Test.target_pos Test.guess 20 (1 # 100) [false]
           Test.w_locate).
  - vm_compute. reflexivity.
  - vm_compute. reflexivity.
  - reflexivity.
  - repeat constructor; eexists; vm_compute; reflexivity.
  - simpl. lia.
Defined.

Lemma apply_unsupported_type_witness :
  exists e,
    (Regrid.apply Test.NC_FILL_DOUBLE Test.NC_FILL_FLOAT Test.NC_FILL_INT
       Test.libcf Test.rg Data.src_data_loc Data.short_data_loc
       Data.w_short).1 = Raise e /\
    is_UnsupportedType e.
Proof.
  destruct (apply_unsupported_type Test.NC_FILL_DOUBLE Test.NC_FILL_FLOAT
              Test.NC_FILL_INT Test.libcf Test.rg Data.src_data_loc
              Data.short_data_loc Test.src_data Data.short_data
              Data.w_short) as [H _].
  - vm_compute. reflexivity.
  - vm_compute. reflexivity.
  - simpl. lia.
  - reflexivity.
  - reflexivity.
  - reflexivity.
  - reflexivity.
  - apply H. split; [reflexivity |]. right.
    split; [reflexivity |]. split; reflexivity.
Defined.

(** C7, as the claim states it, fails when a native call fails before the
    type is tested: with a library whose calls report an error, a
    destination field of 16-bit integers of the right shape does not make
    [apply] raise the error of an unsupported type, but the status error
    of line 331. *)
Lemma apply_unsupported_type_counterexample :
  let out := (Regrid.apply Test.NC_FILL_DOUBLE Test.NC_FILL_FLOAT
                Test.NC_FILL_INT Data.failing_libcf Test.rg
                Data.src_data_loc Data.short_data_loc Data.w_short).1 in
  w_heap Data.w_short !! Data.src_data_loc = Some (ObjArray Test.src_data) /\
  w_heap Data.w_short !! Data.short_data_loc
  = Some (ObjArray Data.short_data) /\
  map Z.of_nat (shape Test.src_data) = Regrid.src_dims Test.rg /\
  map Z.of_nat (shape Data.short_data) = Regrid.dst_dims Test.rg /\
  out = Raise (CDMSError (StatusError 1 331)) /\
  ~ ((exists e, out = Raise e /\ is_UnsupportedType e) <->
     supported_dtype (dtype_of Test.src_data) = false \/
     supported_dtype (dtype_of Data.short_data) = false).
Proof.
  cbv zeta.
  assert (E : (Regrid.apply Test.NC_FILL_DOUBLE Test.NC_FILL_FLOAT
                 Test.NC_FILL_INT Data.failing_libcf Test.rg
                 Data.src_data_loc Data.short_data_loc Data.w_short).1
              = Raise (CDMSError (StatusError 1 331)))
    by (vm_compute; reflexivity).
  split; [vm_compute; reflexivity |].
  split; [vm_compute; reflexivity |].
  split; [reflexivity |]. split; [reflexivity |].
  split; [exact E |].
  rewrite E. intros [_ H].
  destruct H as (e & He & Hty); [right; reflexivity |].
  injection He as <-. exact Hty.
Qed.

(** * Further properties *)

(** ** The periodicity flags, for every list *)

Lemma existsb_id_lookup (l : list bool) (i : nat) :
  existsb id l = false -> l !! i <> Some true.
Proof.
  revert i. induction l as [|b l IH]; intros i H; [destruct i; discriminate |].
  simpl in H. apply orb_false_elim in H as [Hb Hl].
  destruct i as [|i]; simpl.
  - unfold id in Hb. congruence.
  - apply IH, Hl.
Qed.

(** The second loop of [getPeriodicityArray] from index [j] on: it raises
    at the first true entry that has no element in the array. *)
Lemma flag_loop_any (n : nat) (is_periodic : list bool) (m : nat) :
  forall (j : nat) (res : list Z),
    length res = n ->
    j + m = length is_periodic ->
    (existsb id (drop (j `max` n) is_periodic) = true ->
     for_each (seq j m)
       (fun i res =>
          b <- getitem is_periodic (Z.of_nat i) ;;
          if (b : bool) then c_int_setitem res i 1 else Ok res)%res
       res = Raise IndexError) /\
    (existsb id (drop (j `max` n) is_periodic) = false ->
     exists res',
       for_each (seq j m)
         (fun i res =>
            b <- getitem is_periodic (Z.of_nat i) ;;
            if (b : bool) then c_int_setitem res i 1 else Ok res)%res
         res = Ok res' /\
       length res' = n /\
       forall i, res' !! i =
                 if decide (j <= i /\ is_periodic !! i = Some true)
                 then Some 1%Z else res !! i).
Proof.
  induction m as [|m IH]; intros j res Hres Hjm; simpl.
  - rewrite drop_ge by lia. simpl. split; [discriminate |].
    intros _. exists res. split; [reflexivity |]. split; [exact Hres |].
    intros i. destruct (decide _) as [[Hji Hi]|]; [| reflexivity].
    apply lookup_lt_Some in Hi. lia.
  - destruct (lookup_lt_is_Some_2 is_periodic j ltac:(lia)) as [b Hb].
    rewrite (getitem_lookup _ _ _ Hb). simpl.
    destruct (decide (j < n)) as [Hjn|Hjn].
    + (* the index has an element *)
      replace (j `max` n) with (S j `max` n) by lia.
      destruct b.
      * rewrite c_int_setitem_run by lia. simpl.
        change (c_int 1) with 1%Z.
        destruct (IH (S j) (<[j := 1%Z]> res)) as [IHr IHo];
          [rewrite length_insert; exact Hres | lia |].
        split; [exact IHr |].
        intros Hno. destruct (IHo Hno) as (res' & E & Hl & Hget).
        exists res'. split; [exact E |]. split; [exact Hl |].
        intros i. rewrite Hget.
        destruct (decide (j = i)) as [<-|Hne].
        -- rewrite list_lookup_insert_eq by lia.
           destruct (decide (S j <= j /\ _)) as [[? _]|_]; [lia |].
           destruct (decide (j <= j /\ _)) as [_|Hn]; [reflexivity |].
           exfalso. apply Hn. split; [lia | exact Hb].
        -- rewrite list_lookup_insert_ne by done.
           destruct (decide (S j <= i /\ _)) as [[? Hi]|Hn];
             destruct (decide (j <= i /\ _)) as [[? Hi']|Hn'];
             try reflexivity; exfalso.
           ++ apply Hn'. split; [lia | exact Hi].
           ++ apply Hn. split; [lia | exact Hi'].
      * destruct (IH (S j) res Hres ltac:(lia)) as [IHr IHo].
        split; [exact IHr |].
        intros Hno. destruct (IHo Hno) as (res' & E & Hl & Hget).
        exists res'. split; [exact E |]. split; [exact Hl |].
        intros i. rewrite Hget.
        destruct (decide (S j <= i /\ _)) as [[? Hi]|Hn];
          destruct (decide (j <= i /\ _)) as [[? Hi']|Hn'];
          try reflexivity; exfalso.
        -- apply Hn'. split; [lia | exact Hi].
        -- destruct (decide (j = i)) as [<-|Hne]; [congruence |].
           apply Hn. split; [lia | exact Hi'].
    + (* the index is beyond the array *)
      replace (j `max` n) with j by lia.
      rewrite (drop_S _ _ _ Hb). simpl.
      destruct b; simpl.
      * unfold c_int_setitem.
        destruct (decide (j < length res)); [lia |]. simpl.
        split; [reflexivity | discriminate].
      * destruct (IH (S j) res Hres ltac:(lia)) as [IHr IHo].
        replace (S j `max` n) with (S j) in IHr, IHo by lia.
        split; [exact IHr |].
        intros Hno. destruct (IHo Hno) as (res' & E & Hl & Hget).
        exists res'. split; [exact E |]. split; [exact Hl |].
        intros i. rewrite Hget.
        destruct (decide (S j <= i /\ _)) as [[? Hi]|Hn];
          destruct (decide (j <= i /\ _)) as [[? Hi']|Hn'];
          try reflexivity; exfalso.
        -- apply Hn'. split; [lia | exact Hi].
        -- destruct (decide (j = i)) as [<-|Hne]; [congruence |].
           apply Hn. split; [lia | exact Hi'].
Qed.

Lemma flags_of_lookup (n : nat) (l : list bool) (i : nat) :
  flags_of n l !! i =
  if decide (i < n)
  then Some (match l !! i with Some true => 1%Z | _ => 0%Z end)
  else None.
Proof.
  unfold flags_of. rewrite list_lookup_fmap.
  destruct (decide (i < n)) as [Hi|Hi].
  - rewrite lookup_seq_lt by exact Hi. reflexivity.
  - rewrite lookup_seq_ge by lia. reflexivity.
Qed.

(** What [getPeriodicityArray] returns for every list and every number of
    dimensions. *)
Lemma getPeriodicityArray_cases (n : nat) (is_periodic : list bool) :
  getPeriodicityArray n is_periodic
  = if existsb id (drop n is_periodic) then Raise IndexError
    else Ok (flags_of n is_periodic).
Proof.
  unfold getPeriodicityArray.
  rewrite zero_loop by (apply Forall_seq; intros; lia). simpl.
  destruct (flag_loop_any n is_periodic (length is_periodic) 0 (c_int_array n))
    as [Hr Ho];
    [unfold c_int_array; apply length_replicate | lia |].
  replace (0 `max` n) with n in Hr, Ho by lia. unfold range.
  destruct (existsb id (drop n is_periodic)) eqn:Eex.
  - apply Hr. reflexivity.
  - destruct (Ho eq_refl) as (res & E & Hl & Hget).
    rewrite E. f_equal. apply list_eq. intros i.
    rewrite Hget, flags_of_lookup. unfold c_int_array.
    destruct (decide (i < n)) as [Hi|Hi].
    + rewrite lookup_replicate_2 by lia.
      destruct (decide _) as [[_ ->]|Hn]; [reflexivity |].
      destruct (is_periodic !! i) as [[|]|]; try reflexivity.
      exfalso. apply Hn. split; [lia | reflexivity].
    + destruct (decide _) as [[_ Htrue]|_].
      * exfalso. apply (existsb_id_lookup _ (i - n) Eex).
        rewrite lookup_drop. replace (n + (i - n)) with i by lia.
        exact Htrue.
      * apply lookup_ge_None_2. rewrite length_replicate. lia.
Qed.

Lemma existsb_id_true (l : list bool) :
  existsb id l = true -> exists i, l !! i = Some true.
Proof.
  induction l as [|b l IH]; simpl; [discriminate |].
  intros H. apply orb_true_iff in H as [Hb | Hl].
  - exists 0. unfold id in Hb. simpl. congruence.
  - destruct (IH Hl) as [i Hi]. exists (S i). exact Hi.
Qed.

(** X1.  [getPeriodicityArray] raises [IndexError] exactly when the list
    has a true entry at an index that is not an axis; otherwise it returns
    the flags of the list, ignoring false entries beyond the last axis. *)
Theorem getPeriodicityArray_total (n : nat) (is_periodic : list bool) :
  (getPeriodicityArray n is_periodic = Raise IndexError <->
   exists i, n <= i /\ is_periodic !! i = Some true) /\
  (getPeriodicityArray n is_periodic = Ok (flags_of n is_periodic) <->
   forall i, n <= i -> is_periodic !! i <> Some true).
Proof.
  rewrite getPeriodicityArray_cases.
  destruct (existsb id (drop n is_periodic)) eqn:Eex.
  - destruct (existsb_id_true _ Eex) as [i Hi].
    rewrite lookup_drop in Hi.
    split; split; try discriminate.
    + intros _. exists (n + i). split; [lia | exact Hi].
    + reflexivity.
    + intros Hno. exfalso. apply (Hno (n + i)); [lia | exact Hi].
  - split; split; try discriminate; try reflexivity.
    + intros (i & Hi & Htrue). exfalso.
      apply (existsb_id_lookup _ (i - n) Eex).
      rewrite lookup_drop. replace (n + (i - n)) with i by lia. exact Htrue.
    + intros _ i Hi Htrue.
      apply (existsb_id_lookup _ (i - n) Eex).
      rewrite lookup_drop. replace (n + (i - n)) with i by lia. exact Htrue.
Qed.

(** ** What [computeWeights] does *)

(** X2.  [computeWeights] never changes an object of the store.  When the
    periodicity list has a true entry beyond the last axis it raises
    [IndexError] and makes no native call; when the iteration budget does
    not fit in 64 bits ctypes raises [ArgumentError], and again no call is
    made.  Otherwise it makes exactly one call, with the low 32 bits of
    the iteration budget and the flags of the list, and raises the error
    of line 297 exactly when that call reports a status other than
    zero. *)
Theorem computeWeights_cases libcf (s : Regrid.self) (nitermax : Z)
    (tolpos : Q) (is_periodic : list bool) (w : world) :
  let out := Regrid.computeWeights libcf s nitermax tolpos is_periodic w in
  let c := nccf_compute_regrid_weights (Regrid.regridid s) (c_int nitermax)
             tolpos (flags_of (Regrid.ndims s) is_periodic) in
  w_heap out.2 = w_heap w /\
  if existsb id (drop (Regrid.ndims s) is_periodic)
  then out = (Raise IndexError, w)
  else if decide (- 2 ^ 63 <= nitermax < 2 ^ 64)%Z
  then w_trace out.2 = w_trace w ++ [c] /\
       out.1 = if decide (status (libcf (w_trace w) c) <> 0%Z)
               then Raise (CDMSError (StatusError
                                        (status (libcf (w_trace w) c)) 297))
               else Ok tt
  else out = (Raise ArgumentError, w).
Proof.
  cbv zeta. unfold Regrid.computeWeights.
  unfold bind at 1. unfold lift at 1. rewrite getPeriodicityArray_cases.
  destruct (existsb id (drop (Regrid.ndims s) is_periodic)).
  - split; reflexivity.
  - unfold bind at 1. unfold lift, c_int_arg.
    destruct (decide (- 2 ^ 63 <= nitermax < 2 ^ 64)%Z).
    + unfold bind, Regrid.native, catchError. simpl.
      destruct (decide _); repeat split; reflexivity.
    + split; reflexivity.
Qed.

(** ** The tensor product, for every axis and every grid *)

Lemma map_mult_ones (x : Q) (n : nat) :
  map (fun y => (x * y)%Q) (replicate n 1%Q) = replicate n x.
Proof.
  induction n as [|n IH]; simpl; [reflexivity |].
  rewrite Qmult_1_r_eq, IH. reflexivity.
Qed.

Lemma ones_outer (axis : list Q) (n : nat) :
  flat_map (fun o => map (fun y => (o * y)%Q) axis) (replicate n 1%Q)
  = concat (replicate n axis).
Proof.
  induction n as [|n IH]; simpl; [reflexivity |].
  rewrite IH. f_equal.
  rewrite <- (map_id axis) at 2. apply map_ext. intros y. apply Qmult_1_l_eq.
Qed.

Lemma flat_map_concat_replicate {A B} (g : A -> list B) (l : list A) (n : nat) :
  flat_map g (concat (replicate n l)) = concat (replicate n (flat_map g l)).
Proof.
  induction n as [|n IH]; simpl; [reflexivity |].
  rewrite flat_map_app, IH. reflexivity.
Qed.

Lemma outer_outer_data (axis : ndarray) (dim : nat) (dims : list nat) :
  data (numpy_outer
          (numpy_outer (numpy_ones (take dim dims) (dtype_of axis)) axis)
          (numpy_ones (drop (dim + 1) dims) (dtype_of axis)))
  = tensor_data (data axis) dim dims.
Proof.
  unfold tensor_data. simpl. rewrite ones_outer, flat_map_concat_replicate.
  f_equal. f_equal. apply flat_map_ext. intros x. apply map_mult_ones.
Qed.

Lemma length_tensor_data (axis : list Q) (dim : nat) (dims : list nat) :
  length (tensor_data axis dim dims)
  = size_of_shape (take dim dims) * length axis
    * size_of_shape (drop (dim + 1) dims).
Proof.
  unfold tensor_data.
  induction (size_of_shape (take dim dims)) as [|b IH]; simpl; [reflexivity |].
  rewrite length_app, IH.
  rewrite (length_flat_map_const _ (size_of_shape (drop (dim + 1) dims)))
    by (intros; apply length_replicate).
  lia.
Qed.

(** What [getTensorProduct] returns for every axis, dimension and sizes. *)
Lemma getTensorProduct_cases (axis : ndarray) (dim : nat) (dims : list nat) :
  getTensorProduct axis dim dims
  = if decide (size_of_shape dims
               = length (tensor_data (data axis) dim dims))
    then Ok {| dtype_of := dtype_of axis; shape := dims;
               data := tensor_data (data axis) dim dims |}
    else Raise ValueError.
Proof.
  unfold getTensorProduct, reshape. rewrite outer_outer_data.
  destruct (decide _); reflexivity.
Qed.

Lemma size_of_shape_pos (shp : list nat) :
  Forall (lt 0) shp -> 0 < size_of_shape shp.
Proof.
  induction 1 as [|d shp Hd _ IH]; simpl; [lia | nia].
Qed.

(** X3.  In a grid without an empty dimension, [getTensorProduct] returns
    exactly when the size of the dimension is the length of the axis; it
    then returns an array of the dtype of the axis and of the shape of the
    grid, in which each value of the axis is repeated over the later
    dimensions and the whole over the earlier ones.  For every other size
    it raises [ValueError]. *)
Theorem getTensorProduct_total (axis : ndarray) (dim d : nat)
    (dims : list nat) :
  dims !! dim = Some d ->
  Forall (lt 0) dims ->
  getTensorProduct axis dim dims
  = if decide (d = length (data axis))
    then Ok {| dtype_of := dtype_of axis; shape := dims;
               data := tensor_data (data axis) dim dims |}
    else Raise ValueError.
Proof.
  intros Hd Hpos. rewrite getTensorProduct_cases, length_tensor_data.
  pose proof (take_drop_middle dims dim d Hd) as Hsplit.
  assert (Hsize : size_of_shape dims
                  = size_of_shape (take dim dims) * d
                    * size_of_shape (drop (dim + 1) dims)).
  { rewrite <- Hsplit at 1. rewrite size_of_shape_app. simpl.
    replace (dim + 1) with (S dim) by lia. lia. }
  assert (0 < size_of_shape (take dim dims))
    by (apply size_of_shape_pos, Forall_take, Hpos).
  assert (0 < size_of_shape (drop (dim + 1) dims))
    by (apply size_of_shape_pos, Forall_drop, Hpos).
  rewrite Hsize.
  destruct (decide (d = length (data axis))) as [->|Hne];
    destruct (decide _) as [E|E]; try reflexivity; exfalso.
  - apply E. reflexivity.
  - apply Hne.
    apply Nat.mul_cancel_r in E; [| lia].
    apply Nat.mul_cancel_l in E; [exact E | lia].
Qed.

(** ** The shape test of [apply], for every field *)

Lemma for_each_app {A St} (l1 l2 : list A) (body : A -> St -> result St)
    (s : St) :
  for_each (l1 ++ l2) body s
  = (s' <- for_each l1 body s ;; for_each l2 body s')%res.
Proof.
  revert s. induction l1 as [|x l1 IH]; intros s; simpl; [reflexivity |].
  destruct (body x s); simpl; [apply IH | reflexivity].
Qed.

Lemma getitem_out_of_range {A} (l : list A) (i : nat) :
  length l <= i -> getitem l (Z.of_nat i) = Raise IndexError.
Proof.
  intros Hi. unfold getitem.
  destruct (Z.ltb_spec (Z.of_nat i) 0) as [?|_]; [lia |].
  destruct (Z.ltb_spec (Z.of_nat i) 0) as [?|_]; [lia |].
  rewrite Nat2Z.id, lookup_ge_None_2 by exact Hi. reflexivity.
Qed.

(** The list of comparisons of the shape test. *)
Lemma shape_eqs (shp : list nat) (dims : list Z) (n : nat) :
  for_each (seq 0 n)
    (fun i acc =>
       x <- getitem shp (Z.of_nat i) ;;
       d <- getitem dims (Z.of_nat i) ;;
       Ok (acc ++ [bool_decide (Z.of_nat x = d)]))%res
    []
  = if decide (n <= length shp /\ n <= length dims)
    then Ok (zip_with (fun x d => bool_decide (Z.of_nat x = d))
               (take n shp) (take n dims))
    else Raise IndexError.
Proof.
  induction n as [|n IH].
  - simpl.
    destruct (decide (0 <= length shp /\ 0 <= length dims)) as [_|Hn];
      [reflexivity | exfalso; lia].
  - rewrite seq_S, for_each_app, IH. simpl.
    destruct (decide (n <= length shp /\ n <= length dims)) as [[H1 H2]|Hn];
      simpl.
    + destruct (decide (n < length shp)) as [Hs|Hs]; cycle 1.
      { rewrite getitem_out_of_range by lia. simpl.
        destruct (decide _) as [[? ?]|_]; [lia | reflexivity]. }
      destruct (lookup_lt_is_Some_2 shp n Hs) as [x Hx].
      rewrite (getitem_lookup _ _ _ Hx). simpl.
      destruct (decide (n < length dims)) as [Hd|Hd]; cycle 1.
      { rewrite getitem_out_of_range by lia. simpl.
        destruct (decide _) as [[? ?]|_]; [lia | reflexivity]. }
      destruct (lookup_lt_is_Some_2 dims n Hd) as [d Hdn].
      rewrite (getitem_lookup _ _ _ Hdn). simpl.
      destruct (decide _) as [_|Hno]; [| exfalso; lia].
      rewrite (take_S_r _ _ _ Hx), (take_S_r _ _ _ Hdn).
      rewrite zip_with_app by (rewrite !length_take; lia).
      reflexivity.
    + destruct (decide _) as [[? ?]|_]; [exfalso; lia | reflexivity].
Qed.

Lemma fold_left_andb (l : list bool) (b : bool) :
  fold_left andb l b = b && forallb id l.
Proof.
  revert b. induction l as [|c l IH]; intros b; simpl.
  - rewrite andb_true_r. reflexivity.
  - rewrite IH. unfold id at 2. rewrite andb_assoc. reflexivity.
Qed.

Lemma forallb_eqs (l1 : list nat) (l2 : list Z) :
  length l1 = length l2 ->
  forallb id (zip_with (fun x d => bool_decide (Z.of_nat x = d)) l1 l2)
  = bool_decide (map Z.of_nat l1 = l2).
Proof.
  revert l2. induction l1 as [|x l1 IH]; intros [|d l2] Hlen;
    try discriminate.
  - reflexivity.
  - cbn [zip_with forallb map]. rewrite IH by (simpl in Hlen; lia).
    unfold id at 1.
    destruct (bool_decide_reflect (Z.of_nat x = d)) as [Hxd|Hne]; simpl.
    + apply bool_decide_ext. split; [congruence |].
      intros H. injection H as _ H. exact H.
    + symmetry. apply bool_decide_eq_false_2. congruence.
Qed.

(** What the shape test of [apply] answers for every shape, list of sizes
    and number of dimensions: it compares the first [n] dimensions, and
    raises when the field or the grid has fewer. *)
Lemma shape_test_cases (shp : list nat) (dims : list Z) (n : nat) :
  Regrid.shape_test shp dims n
  = if decide (n <= length shp /\ n <= length dims)
    then if decide (n = 0) then Raise TypeError
         else Ok (bool_decide (map Z.of_nat (take n shp) = take n dims))
    else Raise IndexError.
Proof.
  unfold Regrid.shape_test, range. rewrite shape_eqs.
  destruct (decide _) as [[H1 H2]|_]; [| reflexivity]. simpl.
  destruct (decide (n = 0)) as [->|Hn]; [reflexivity |].
  rewrite <- forallb_eqs by (rewrite !length_take; lia).
  destruct n as [|n]; [contradiction |].
  destruct (lookup_lt_is_Some_2 shp 0 ltac:(lia)) as [x Hx].
  destruct (lookup_lt_is_Some_2 dims 0 ltac:(lia)) as [d Hd].
  destruct shp as [|x' shp]; [discriminate |].
  destruct dims as [|d' dims]; [discriminate |].
  simpl. rewrite fold_left_andb. reflexivity.
Qed.

(** X4.  On an operator of [N >= 1] dimensions, [apply] looks at the first
    [N] dimensions of the source field: a field with fewer dimensions
    raises [IndexError], a field whose first [N] dimensions are not the
    sizes of the source grid raises the error about the shape of
    [src_data], and in both cases nothing has been passed to the native
    library. *)
Theorem apply_src_shape (NC_FILL_DOUBLE NC_FILL_FLOAT : Q) (NC_FILL_INT : Z)
    libcf (s : Regrid.self) (src_data dst_data : loc) (src : ndarray)
    (w : world) :
  w_heap w !! src_data = Some (ObjArray src) ->
  0 < Regrid.ndims s ->
  length (Regrid.src_dims s) = Regrid.ndims s ->
  map Z.of_nat (take (Regrid.ndims s) (shape src)) <> Regrid.src_dims s ->
  Regrid.apply NC_FILL_DOUBLE NC_FILL_FLOAT NC_FILL_INT libcf
    s src_data dst_data w
  = (Raise (if decide (Regrid.ndims s <= length (shape src))
            then CDMSError (SrcDataWrongShape (shape src) (Regrid.src_dims s))
            else IndexError), w).
Proof.
  intros Hsrc HN Hlen Hne. unfold Regrid.apply.
  erewrite bind_run by (apply read_array_run, Hsrc).
  unfold bind at 1. unfold lift at 1. rewrite shape_test_cases.
  rewrite (take_ge (Regrid.src_dims s)) by lia.
  destruct (decide (Regrid.ndims s <= length (shape src))) as [Hr|Hr].
  - destruct (decide _) as [_|Hn]; [| exfalso; lia].
    destruct (decide (Regrid.ndims s = 0)); [lia |].
    rewrite bool_decide_eq_false_2 by exact Hne. reflexivity.
  - destruct (decide _) as [[? _]|_]; [contradiction | reflexivity].
Qed.

(** ** Frames: what a computation may write *)

Lemma frame_refl (P : loc -> Prop) (w : world) : frame P w w.
Proof. split; [lia | reflexivity]. Qed.

Lemma frame_trans (P : loc -> Prop) (w1 w2 w3 : world) :
  frame P w1 w2 -> frame P w2 w3 -> frame P w1 w3.
Proof.
  intros [H1 H1'] [H2 H2']. split; [lia |].
  intros l Hl HP. rewrite H2' by (lia || exact HP). apply H1'; assumption.
Qed.

Lemma framed_ret {A} P (a : A) : framed P (ret a).
Proof. intros w. apply frame_refl. Qed.

Lemma framed_raise {A} P (e : exn) : framed P (@raise A e).
Proof. intros w. apply frame_refl. Qed.

Lemma framed_lift {A} P (r : result A) : framed P (lift r).
Proof. intros w. apply frame_refl. Qed.

Lemma framed_read_array P (l : loc) : framed P (read_array l).
Proof.
  intros w. unfold read_array.
  destruct (w_heap w !! l) as [[]|]; apply frame_refl.
Qed.

Lemma framed_read_list P (l : loc) : framed P (read_list l).
Proof.
  intros w. unfold read_list.
  destruct (w_heap w !! l) as [[]|]; apply frame_refl.
Qed.

Lemma framed_bind {A B} P (c : M A) (k : A -> M B) :
  framed P c -> (forall a, framed P (k a)) -> framed P (bind c k).
Proof.
  intros Hc Hk w. unfold bind. specialize (Hc w).
  destruct (c w) as [[a|e] w1]; simpl in *; [| exact Hc].
  eapply frame_trans; [exact Hc | apply Hk].
Qed.

Lemma framed_forM {A St} P (l : list A) (body : A -> St -> M St) :
  (forall x s, framed P (body x s)) -> forall s, framed P (forM l body s).
Proof.
  intros Hbody. induction l as [|x l IH]; intros s; simpl.
  - apply framed_ret.
  - apply framed_bind; [apply Hbody | exact IH].
Qed.

Lemma framed_list_getitem P (lst : loc) (i : nat) :
  framed P (list_getitem lst i).
Proof.
  unfold list_getitem. apply framed_bind; [apply framed_read_list |].
  intros xs. apply framed_lift.
Qed.

Lemma framed_alloc P (o : obj) : framed P (alloc o).
Proof.
  intros w. unfold alloc, frame. simpl. split.
  - rewrite length_app. lia.
  - intros l Hl _. apply lookup_app_l, Hl.
Qed.

Lemma framed_list_setitem (P : loc -> Prop) (lst : loc) (i : nat) (v : loc) :
  P lst -> framed P (list_setitem lst i v).
Proof.
  intros HP w. unfold list_setitem, bind, read_list.
  destruct (w_heap w !! lst) as [[a|xs]|]; simpl; try apply frame_refl.
  destruct (decide (i < length xs)); simpl; [| apply frame_refl].
  unfold frame. simpl. split.
  - rewrite length_insert. lia.
  - intros l' Hl HnP. apply list_lookup_insert_ne. congruence.
Qed.

Lemma framed_native P libcf (c : call) : framed P (Regrid.native libcf c).
Proof. intros w. unfold frame. simpl. split; [lia | reflexivity]. Qed.

Lemma framed_catchError P (st : Z) (lineno : nat) :
  framed P (catchError st lineno).
Proof.
  unfold catchError. destruct (decide _); [apply framed_raise | apply framed_ret].
Qed.

Lemma quiet_ret {A} (a : A) : quiet (ret a).
Proof. intros w. reflexivity. Qed.

Lemma quiet_raise {A} (e : exn) : quiet (@raise A e).
Proof. intros w. reflexivity. Qed.

Lemma quiet_lift {A} (r : result A) : quiet (lift r).
Proof. intros w. reflexivity. Qed.

Lemma quiet_read_array (l : loc) : quiet (read_array l).
Proof.
  intros w. unfold read_array. destruct (w_heap w !! l) as [[]|]; reflexivity.
Qed.

Lemma quiet_read_list (l : loc) : quiet (read_list l).
Proof.
  intros w. unfold read_list. destruct (w_heap w !! l) as [[]|]; reflexivity.
Qed.

Lemma quiet_bind {A B} (c : M A) (k : A -> M B) :
  quiet c -> (forall a, quiet (k a)) -> quiet (bind c k).
Proof.
  intros Hc Hk w. unfold bind. specialize (Hc w).
  destruct (c w) as [[a|e] w1]; simpl in *; [| exact Hc].
  rewrite Hk. exact Hc.
Qed.

Lemma quiet_forM {A St} (l : list A) (body : A -> St -> M St) :
  (forall x s, quiet (body x s)) -> forall s, quiet (forM l body s).
Proof.
  intros Hbody. induction l as [|x l IH]; intros s; simpl.
  - apply quiet_ret.
  - apply quiet_bind; [apply Hbody | exact IH].
Qed.

Lemma quiet_list_getitem (lst : loc) (i : nat) : quiet (list_getitem lst i).
Proof.
  unfold list_getitem. apply quiet_bind; [apply quiet_read_list |].
  intros xs. apply quiet_lift.
Qed.

Lemma quiet_alloc (o : obj) : quiet (alloc o).
Proof. intros w. reflexivity. Qed.

Lemma quiet_list_setitem (lst : loc) (i : nat) (v : loc) :
  quiet (list_setitem lst i v).
Proof.
  intros w. unfold list_setitem, bind, read_list.
  destruct (w_heap w !! lst) as [[a|xs]|]; simpl; try reflexivity.
  destruct (decide (i < length xs)); reflexivity.
Qed.

Ltac branch_tac :=
  match goal with
  | |- _ (if ?b then _ else _) => destruct b
  | |- _ _ (if ?b then _ else _) => destruct b
  | |- _ (match ?p with (_, _) => _ end) => destruct p
  | |- _ _ (match ?p with (_, _) => _ end) => destruct p
  | |- _ (match ?u with tt => _ end) => destruct u
  | |- _ _ (match ?u with tt => _ end) => destruct u
  end.

Ltac framed_tac :=
  repeat first
    [ apply framed_ret | apply framed_raise | apply framed_lift
    | apply framed_read_array | apply framed_read_list
    | apply framed_list_getitem | apply framed_alloc
    | apply framed_native | apply framed_catchError
    | apply framed_list_setitem; reflexivity
    | apply framed_forM; intros
    | apply framed_bind; [| intros]
    | progress cbv zeta
    | branch_tac ].

Ltac quiet_tac :=
  repeat first
    [ apply quiet_ret | apply quiet_raise | apply quiet_lift
    | apply quiet_read_array | apply quiet_read_list
    | apply quiet_list_getitem | apply quiet_alloc
    | apply quiet_list_setitem
    | apply quiet_forM; intros
    | apply quiet_bind; [| intros]
    | progress cbv zeta
    | branch_tac ].

Lemma framed_makeCurvilinear (coords : loc) :
  framed (eq coords) (makeCurvilinear coords).
Proof. unfold makeCurvilinear. framed_tac. Qed.

Lemma quiet_makeCurvilinear (coords : loc) : quiet (makeCurvilinear coords).
Proof. unfold makeCurvilinear. quiet_tac. Qed.

(** X5.  Whether it returns or raises, [makeCurvilinear] makes no native
    call, leaves every array of the store as it is, and leaves every
    object other than its list as it is: it only adds arrays and assigns
    to the elements of the list it was given. *)
Theorem makeCurvilinear_frame (coords : loc) (w : world) :
  let w' := (makeCurvilinear coords w).2 in
  w_trace w' = w_trace w /\
  (forall l a, w_heap w !! l = Some (ObjArray a) ->
               w_heap w' !! l = Some (ObjArray a)) /\
  (forall l, l <> coords -> l < length (w_heap w) ->
             w_heap w' !! l = w_heap w !! l).
Proof.
  cbv zeta. split; [apply quiet_makeCurvilinear |]. split.
  - apply (steady_makeCurvilinear coords w).
  - intros l Hne Hl.
    apply (framed_makeCurvilinear coords w); [exact Hl | congruence].
Qed.

(** ** What [apply] may write *)

Lemma same_but_data_refl (l : loc) (w : world) : same_but_data l w w.
Proof.
  split; [reflexivity |]. split; [reflexivity |].
  destruct (w_heap w !! l) as [[a|xs]|]; eauto.
Qed.

Lemma same_but_data_trans (l : loc) (w1 w2 w3 : world) :
  same_but_data l w1 w2 -> same_but_data l w2 w3 -> same_but_data l w1 w3.
Proof.
  intros (Hl1 & Ho1 & Ha1) (Hl2 & Ho2 & Ha2).
  split; [congruence |]. split.
  - intros l' Hne. rewrite Ho2 by exact Hne. apply Ho1, Hne.
  - destruct (w_heap w1 !! l) as [[a|xs]|].
    + destruct Ha1 as (a' & E' & Hd & Hs & Hn). rewrite E' in Ha2.
      destruct Ha2 as (a'' & E'' & Hd' & Hs' & Hn').
      exists a''. repeat split; congruence.
    + rewrite Ha1 in Ha2. exact Ha2.
    + rewrite Ha1 in Ha2. exact Ha2.
Qed.

Lemma same_but_data_trace (l : loc) (w : world) (tr : list call) :
  same_but_data l w {| w_heap := w_heap w; w_trace := tr |}.
Proof.
  unfold same_but_data. simpl.
  split; [reflexivity |]. split; [reflexivity |].
  destruct (w_heap w !! l) as [[a|xs]|]; eauto.
Qed.

Lemma data_only_ret {A} l (a : A) : data_only l (ret a).
Proof. intros w. apply same_but_data_refl. Qed.

Lemma data_only_raise {A} l (e : exn) : data_only l (@raise A e).
Proof. intros w. apply same_but_data_refl. Qed.

Lemma data_only_lift {A} l (r : result A) : data_only l (lift r).
Proof. intros w. apply same_but_data_refl. Qed.

Lemma data_only_read_array l (x : loc) : data_only l (read_array x).
Proof.
  intros w. unfold read_array.
  destruct (w_heap w !! x) as [[]|]; apply same_but_data_refl.
Qed.

Lemma data_only_native l libcf (c : call) : data_only l (Regrid.native libcf c).
Proof. intros w. apply same_but_data_trace. Qed.

Lemma data_only_catchError l (st : Z) (lineno : nat) :
  data_only l (catchError st lineno).
Proof.
  unfold catchError.
  destruct (decide _); [apply data_only_raise | apply data_only_ret].
Qed.

Lemma data_only_bind {A B} l (c : M A) (k : A -> M B) :
  data_only l c -> (forall a, data_only l (k a)) -> data_only l (bind c k).
Proof.
  intros Hc Hk w. unfold bind. specialize (Hc w).
  destruct (c w) as [[a|e] w1]; simpl in *; [| exact Hc].
  eapply same_but_data_trans; [exact Hc | apply Hk].
Qed.

Lemma data_only_poke_array (l : loc) (new : list Q) :
  data_only l (poke_array l new).
Proof.
  intros w. unfold poke_array, bind, read_array.
  destruct (w_heap w !! l) as [[a|xs]|] eqn:E; simpl;
    try (apply same_but_data_refl).
  unfold same_but_data. simpl. rewrite E.
  split; [apply length_insert |]. split.
  - intros l' Hne. apply list_lookup_insert_ne. congruence.
  - eexists. split.
    + apply list_lookup_insert_eq. eapply lookup_lt_Some, E.
    + simpl. repeat split. apply length_write_buffer.
Qed.

Ltac data_only_tac :=
  repeat first
    [ apply data_only_ret | apply data_only_raise | apply data_only_lift
    | apply data_only_read_array | apply data_only_native
    | apply data_only_catchError | apply data_only_poke_array
    | apply data_only_bind; [| intros]
    | progress cbv zeta
    | branch_tac ].

(** X6.  Whatever the native library answers and whether [apply] returns
    or raises, the store holds the same objects afterwards, except for the
    values of [dst_data]: no object is added, [src_data] and every other
    object are as they were, and [dst_data] keeps its dtype, its shape and
    its number of elements. *)
Theorem apply_writes_dst_data_only (NC_FILL_DOUBLE NC_FILL_FLOAT : Q)
    (NC_FILL_INT : Z) libcf (s : Regrid.self) (src_data dst_data : loc)
    (w : world) :
  same_but_data dst_data w
    (Regrid.apply NC_FILL_DOUBLE NC_FILL_FLOAT NC_FILL_INT libcf
       s src_data dst_data w).2.
Proof.
  revert w. change (data_only dst_data
    (Regrid.apply NC_FILL_DOUBLE NC_FILL_FLOAT NC_FILL_INT libcf
       s src_data dst_data)).
  unfold Regrid.apply, Regrid.set_data. data_only_tac.
Qed.

(** ** The sizes of a stencil *)





(** ** The normalizer on grids that are curvilinear already *)

(** Descriptors that all have as many dimensions as the list has elements
    are kept as they are. *)
Lemma makeCurvilinear_kept (coords : loc) (xs : list loc) (w : world) :
  w_heap w !! coords = Some (ObjList xs) ->
  Forall (fun x => exists a, w_heap w !! x = Some (ObjArray a) /\
                             length (shape a) = length xs) xs ->
  exists dims,
    makeCurvilinear coords w = (Ok (coords, dims), w) /\
    length dims = length xs /\
    forall i x a, xs !! i = Some x -> w_heap w !! x = Some (ObjArray a) ->
                  dims !! i = shape a !! i.
Proof.
  intros Hxs Hall. rewrite Forall_lookup in Hall.
  unfold makeCurvilinear.
  erewrite bind_run by (apply read_list_run, Hxs). cbv zeta.
  set (N := length xs) in *.
  (* the sizes *)
  match goal with
  | |- context [bind (forM (range N) ?body ?init) ?k w] =>
      assert (Hloop1 : exists st u,
                forM (range N) body init w = (Ok st, u) /\
                (u = w /\ length st.2 = N /\
                 forall j x a, j < N -> xs !! j = Some x ->
                   w_heap w !! x = Some (ObjArray a) ->
                   st.2 !! j = shape a !! j))
  end.
  { apply (forM_range_invariant
             (fun i (st : nat * list nat) u =>
                u = w /\ length st.2 = i /\
                forall j x a, j < i -> xs !! j = Some x ->
                  w_heap w !! x = Some (ObjArray a) ->
                  st.2 !! j = shape a !! j)).
    - intros i [cnt dims] u Hi (-> & Hlen & Hdims). simpl in Hlen, Hdims.
      destruct (lookup_lt_is_Some_2 xs i Hi) as [x Hx].
      destruct (Hall _ _ Hx) as (a & Ha & Hrank).
      destruct (lookup_lt_is_Some_2 (shape a) i ltac:(lia)) as [d Hd].
      erewrite bind_run by (eapply list_getitem_run; eassumption).
      erewrite bind_run by (apply read_array_run, Ha).
      assert (Hstep : forall j x' a', j < S i -> xs !! j = Some x' ->
                w_heap w !! x' = Some (ObjArray a') ->
                (dims ++ [d]) !! j = shape a' !! j).
      { intros j x' a' Hj Hx' Ha'.
        destruct (decide (j = i)) as [->|Hne].
        - rewrite lookup_app_r by lia.
          replace (i - length dims) with 0 by lia. simpl.
          congruence.
        - rewrite lookup_app_l by lia. eapply Hdims; eauto. lia. }
      destruct (decide (length (shape a) = 1)) as [H1|H1].
      + (* one dimension: the descriptor is both an axis and curvilinear *)
        assert (Hi0 : i = 0) by lia. rewrite Hi0 in Hd.
        unfold py_len. destruct (shape a) as [|d' shp]; [discriminate |].
        assert (d' = d) as -> by (cbn in Hd; congruence).
        erewrite bind_run by reflexivity.
        eexists _, _. split; [reflexivity |]. simpl.
        split; [reflexivity |].
        split; [rewrite length_app; simpl; lia | exact Hstep].
      + destruct (decide (length (shape a) = N)) as [_|]; [| contradiction].
        erewrite bind_run by (apply lift_ok, getitem_lookup, Hd).
        eexists _, _. split; [reflexivity |]. simpl.
        split; [reflexivity |].
        split; [rewrite length_app; simpl; lia | exact Hstep].
    - simpl. repeat split; try reflexivity. intros; lia. }
  destruct Hloop1 as ([cnt dims] & ? & Eloop1 & -> & Hlen & Hdims).
  simpl in Hlen, Hdims.
  erewrite bind_run by exact Eloop1. cbn [snd].
  (* the conversion: nothing to do *)
  match goal with
  | |- context [bind (forM (range N) ?body ?init) ?k w] =>
      assert (Hloop2 : exists st u,
                forM (range N) body init w = (Ok st, u) /\ u = w)
  end.
  { apply (forM_range_invariant (fun _ (_ : unit) u => u = w)); [| reflexivity].
    intros i [] u Hi ->.
    destruct (lookup_lt_is_Some_2 xs i Hi) as [x Hx].
    destruct (Hall _ _ Hx) as (a & Ha & Hrank).
    erewrite bind_run by (eapply list_getitem_run; eassumption).
    erewrite bind_run by (apply read_array_run, Ha). cbv zeta.
    destruct (decide (length (shape a) = N)) as [_|]; [| contradiction].
    eexists _, _. split; reflexivity. }
  destruct Hloop2 as ([] & ? & Eloop2 & ->).
  erewrite bind_run by exact Eloop2.
  exists dims. split; [reflexivity |]. split; [exact Hlen |].
  intros i x a Hx Ha. eapply Hdims; eauto.
  eapply lookup_lt_Some, Hx.
Qed.

(** ** The normalizer on rectilinear grids *)

Lemma getTensorProduct_ok (axis : ndarray) (dim : nat) (dims : list nat) :
  dims !! dim = Some (length (data axis)) ->
  getTensorProduct axis dim dims
  = Ok {| dtype_of := dtype_of axis; shape := dims;
          data := tensor_data (data axis) dim dims |}.
Proof.
  intros Hd. rewrite getTensorProduct_cases, length_tensor_data.
  pose proof (take_drop_middle dims dim _ Hd) as Hsplit.
  destruct (decide _) as [_|Hne]; [reflexivity |].
  exfalso. apply Hne. rewrite <- Hsplit at 1.
  rewrite size_of_shape_app. simpl.
  replace (dim + 1) with (S dim) by lia. lia.
Qed.

Lemma flat_map_replicate_1 {A} (l : list A) : flat_map (replicate 1) l = l.
Proof. induction l as [|x l IH]; simpl; [reflexivity | f_equal; exact IH]. Qed.

(** A 1-D array is its own tensor product in a grid of one dimension. *)
Lemma axis_is_own_tensor (a : ndarray) :
  shape a = [length (data a)] ->
  a = {| dtype_of := dtype_of a; shape := [length (data a)];
         data := tensor_data (data a) 0 [length (data a)] |}.
Proof.
  intros Hs. destruct a as [dt shp d]. simpl in *. subst shp.
  change (tensor_data d 0 [length d]) with (flat_map (replicate 1) d ++ []).
  rewrite app_nil_r, flat_map_replicate_1. reflexivity.
Qed.

(** On a list of 1-D axes the normalizer returns, whatever the number and
    the lengths of the axes: the sizes are the lengths of the axes, and
    element [i] of the list is an array of the dtype of axis [i], of the
    shape of the grid, holding the tensor product of the axis. *)
Lemma makeCurvilinear_axes (coords : loc) (xs : list loc)
    (axes : list ndarray) (w : world) :
  w_heap w !! coords = Some (ObjList xs) ->
  Forall2 (fun x a => w_heap w !! x = Some (ObjArray a) /\
                      shape a = [length (data a)]) xs axes ->
  let dims := map (fun a => length (data a)) axes in
  exists ys w',
    makeCurvilinear coords w = (Ok (coords, dims), w') /\
    w_heap w' !! coords = Some (ObjList ys) /\
    length ys = length xs /\
    forall i a, axes !! i = Some a ->
      exists y, ys !! i = Some y /\
                w_heap w' !! y
                = Some (ObjArray {| dtype_of := dtype_of a; shape := dims;
                                    data := tensor_data (data a) i dims |}).
Proof.
  intros Hxs Hall dims.
  pose proof (Forall2_length _ _ _ Hall) as Hlen.
  unfold makeCurvilinear.
  erewrite bind_run by (apply read_list_run, Hxs). cbv zeta.
  set (N := length xs) in *.
  assert (Hax : forall i a, axes !! i = Some a ->
            exists x, xs !! i = Some x /\
                      w_heap w !! x = Some (ObjArray a) /\
                      shape a = [length (data a)]).
  { intros i a Ha.
    destruct (Forall2_lookup_r _ _ _ _ _ Hall Ha) as (x & Hx & Hxa & Hs).
    eauto. }
  (* the sizes *)
  match goal with
  | |- context [bind (forM (range N) ?body ?init) ?k w] =>
      assert (Hloop1 : exists st u,
                forM (range N) body init w = (Ok st, u) /\
                (u = w /\
                 st.2 = map (fun a => length (data a)) (take N axes)))
  end.
  { apply (forM_range_invariant
             (fun i (st : nat * list nat) u =>
                u = w /\
                st.2 = map (fun a => length (data a)) (take i axes))).
    - intros i [cnt ds] u Hi (-> & Hds). simpl in Hds.
      destruct (lookup_lt_is_Some_2 axes i ltac:(lia)) as [a Ha].
      destruct (Hax _ _ Ha) as (x & Hx & Hxa & Hs).
      erewrite bind_run by (eapply list_getitem_run; eassumption).
      erewrite bind_run by (apply read_array_run, Hxa).
      rewrite Hs. change (length [length (data a)]) with 1.
      destruct (decide (1 = 1)) as [_|]; [| contradiction].
      unfold py_len. rewrite Hs.
      erewrite bind_run by reflexivity.
      eexists _, _. split; [reflexivity |]. simpl.
      split; [reflexivity |].
      rewrite (take_S_r _ _ _ Ha), map_app, Hds. reflexivity.
    - simpl. split; reflexivity. }
  destruct Hloop1 as ([cnt ds] & ? & Eloop1 & -> & Hds). simpl in Hds.
  rewrite take_ge in Hds by lia. fold dims in Hds. subst ds.
  erewrite bind_run by exact Eloop1. cbn [snd].
  (* the conversion *)
  match goal with
  | |- context [bind (forM (range N) ?body ?init) ?k w] =>
      assert (Hloop2 : exists st u,
                forM (range N) body init w = (Ok st, u) /\
                exists zs,
                  w_heap u !! coords = Some (ObjList zs) /\
                  length zs = N /\
                  (forall l o, w_heap w !! l = Some o -> l <> coords ->
                               w_heap u !! l = Some o) /\
                  (forall j, N <= j -> zs !! j = xs !! j) /\
                  (forall j a, j < N -> axes !! j = Some a ->
                     exists y, zs !! j = Some y /\
                       w_heap u !! y
                       = Some (ObjArray {| dtype_of := dtype_of a;
                                           shape := dims;
                                           data := tensor_data (data a) j dims |})))
  end.
  { apply (forM_range_invariant
             (fun i (_ : unit) u =>
                exists zs,
                  w_heap u !! coords = Some (ObjList zs) /\
                  length zs = N /\
                  (forall l o, w_heap w !! l = Some o -> l <> coords ->
                               w_heap u !! l = Some o) /\
                  (forall j, i <= j -> zs !! j = xs !! j) /\
                  (forall j a, j < i -> axes !! j = Some a ->
                     exists y, zs !! j = Some y /\
                       w_heap u !! y
                       = Some (ObjArray {| dtype_of := dtype_of a;
                                           shape := dims;
                                           data := tensor_data (data a) j dims |}))));
      cycle 1.
    - exists xs. repeat split; auto. intros; lia.
    - intros i [] u Hi (zs & Hzs & Hzlen & Hkeep & Hrest & Hdone).
      destruct (lookup_lt_is_Some_2 axes i ltac:(lia)) as [a Ha].
      destruct (Hax _ _ Ha) as (x & Hx & Hxa & Hs).
      assert (Hxc : x <> coords) by congruence.
      assert (Hzi : zs !! i = Some x) by (rewrite Hrest by lia; exact Hx).
      assert (Hdi : dims !! i = Some (length (data a)))
        by (unfold dims; rewrite list_lookup_fmap, Ha; reflexivity).
      erewrite bind_run by (eapply list_getitem_run; eassumption).
      erewrite bind_run by (apply read_array_run, Hkeep; eassumption).
      cbv zeta. rewrite Hs. change (length [length (data a)]) with 1.
      destruct (decide (1 = N)) as [HN1|HN1].
      + (* one axis: it is kept as it is *)
        assert (i = 0) by lia. subst i.
        eexists _, _. split; [reflexivity |].
        exists zs. repeat split; auto.
        * intros j Hj. apply Hrest. lia.
        * intros j a' Hj Ha'. assert (j = 0) by lia. subst j.
          assert (a' = a) by congruence. subst a'.
          exists x. split; [exact Hzi |].
          rewrite (Hkeep _ _ Hxa Hxc). do 2 f_equal.
          assert (Hdims : dims = [length (data a)]).
          { unfold dims.
            destruct axes as [|a0 [|a1 axes]]; simpl in Hlen; try lia.
            simpl in Ha. injection Ha as ->. reflexivity. }
          rewrite Hdims. apply axis_is_own_tensor, Hs.
      + destruct (decide (1 = 1)) as [_|]; [| contradiction].
        erewrite bind_run by (apply lift_ok, getTensorProduct_ok, Hdi).
        erewrite bind_run by apply alloc_run.
        assert (Hcl : coords < length (w_heap u))
          by (eapply lookup_lt_Some, Hzs).
        unfold list_setitem.
        erewrite bind_run
          by (apply read_list_run; simpl; rewrite lookup_app_l by exact Hcl;
              exact Hzs).
        destruct (decide (i < length zs)) as [_|]; [| lia].
        eexists _, _. split; [reflexivity |]. simpl.
        exists (<[i := length (w_heap u)]> zs).
        split; [apply list_lookup_insert_eq; rewrite length_app; simpl; lia |].
        split; [rewrite length_insert; exact Hzlen |].
        split; [| split].
        * intros l o Hl Hlc.
          rewrite list_lookup_insert_ne by congruence.
          rewrite lookup_app_l
            by (eapply lookup_lt_Some, Hkeep; eassumption).
          apply Hkeep; assumption.
        * intros j Hj. rewrite list_lookup_insert_ne by lia.
          apply Hrest. lia.
        * intros j a' Hj Ha'.
          destruct (decide (j = i)) as [->|Hne].
          -- assert (a' = a) by congruence. subst a'.
             exists (length (w_heap u)).
             split; [apply list_lookup_insert_eq; lia |].
             rewrite list_lookup_insert_ne by lia.
             apply list_lookup_middle. reflexivity.
          -- destruct (Hdone j a' ltac:(lia) Ha') as (y & Hy & Hyr).
             exists y. split; [rewrite list_lookup_insert_ne by lia; exact Hy |].
             rewrite list_lookup_insert_ne by congruence.
             rewrite lookup_app_l by (eapply lookup_lt_Some, Hyr).
             exact Hyr. }
  destruct Hloop2 as ([] & w' & Eloop2 & zs & Hzs & Hzlen & _ & _ & Hdone).
  erewrite bind_run by exact Eloop2.
  exists zs, w'. split; [reflexivity |]. split; [exact Hzs |].
  split; [exact Hzlen |].
  intros i a Ha. apply Hdone; [| exact Ha].
  apply lookup_lt_Some in Ha. lia.
Qed.

(** X8.  When every descriptor of the list has as many dimensions as the
    list has descriptors, [makeCurvilinear] returns the list untouched: the
    store is exactly as it was, and the size it reports for dimension [i]
    is the [i]-th size of the [i]-th descriptor.  It does not compare the
    shapes of the descriptors with one another. *)
Theorem makeCurvilinear_curvilinear (coords : loc) (xs : list loc) (w : world) :
  w_heap w !! coords = Some (ObjList xs) ->
  Forall (fun x => exists a, w_heap w !! x = Some (ObjArray a) /\
                             length (shape a) = length xs) xs ->
  exists dims,
    makeCurvilinear coords w = (Ok (coords, dims), w) /\
    length dims = length xs /\
    forall i x a, xs !! i = Some x -> w_heap w !! x = Some (ObjArray a) ->
                  dims !! i = shape a !! i.
Proof. apply makeCurvilinear_kept. Qed.

(** The value of a tensor product at a multi-index. *)
Lemma tensor_item (d : list Q) (dt : dtype) (i : nat) (dims ks : list nat)
    (k : nat) (x : Q) :
  dims !! i = Some (length d) ->
  Forall2 lt ks dims ->
  ks !! i = Some k ->
  d !! k = Some x ->
  item {| dtype_of := dt; shape := dims; data := tensor_data d i dims |} ks
  = Ok x.
Proof.
  intros Hi Hks Hk Hx.
  pose proof (take_drop_middle dims i _ Hi) as Hsplit.
  assert (Hleni : length (take i dims) = i).
  { apply length_take_le. apply lookup_lt_Some in Hi. lia. }
  rewrite <- Hsplit in Hks.
  apply Forall2_app_inv_r in Hks as (kb & krest & Hkb & Hrest & ->).
  apply Forall2_cons_inv_r in Hrest as (k' & ka & Hk' & Hka & ->).
  assert (Hlenkb : length kb = i) by (apply Forall2_length in Hkb; lia).
  rewrite lookup_app_r in Hk by lia.
  replace (i - length kb) with 0 in Hk by lia.
  simpl in Hk. injection Hk as ->.
  destruct (ravel_offset _ _ Hkb) as (rb & Hrb & Eb).
  destruct (ravel_offset _ _ Hka) as (ra & Hra & Ea).
  unfold item. cbn [shape data].
  rewrite <- Hsplit at 1.
  rewrite (ravel_app _ _ _ _ Hkb), Eb. simpl.
  destruct (decide (k < length d)) as [_|]; [| contradiction].
  rewrite Ea.
  pose proof (outer_outer_data
                {| dtype_of := dt; shape := [length d]; data := d |} i dims)
    as Hdata.
  cbn [data dtype_of numpy_outer numpy_ones] in Hdata. rewrite <- Hdata.
  replace (i + 1) with (S i) by lia.
  rewrite (tensor_data_lookup _ _ _ rb k ra x Hrb Hra Hx). reflexivity.
Qed.

(** X9.  On a list of 1-D axes, of any number and lengths,
    [makeCurvilinear] returns: the sizes it reports are the lengths of the
    axes, and element [i] of the list is afterwards an array of the dtype
    of axis [i] and of the shape of the grid whose value at every
    multi-index [(k_0, ..., k_{N-1})] is the value of the axis at [k_i]. *)
Theorem makeCurvilinear_rectilinear (coords : loc) (xs : list loc)
    (axes : list ndarray) (w : world) :
  w_heap w !! coords = Some (ObjList xs) ->
  Forall2 (fun x a => w_heap w !! x = Some (ObjArray a) /\
                      shape a = [length (data a)]) xs axes ->
  let dims := map (fun a => length (data a)) axes in
  exists ys w',
    makeCurvilinear coords w = (Ok (coords, dims), w') /\
    w_heap w' !! coords = Some (ObjList ys) /\
    forall i a, axes !! i = Some a ->
      exists y r,
        ys !! i = Some y /\
        w_heap w' !! y = Some (ObjArray r) /\
        dtype_of r = dtype_of a /\
        shape r = dims /\
        forall ks k, Forall2 lt ks dims -> ks !! i = Some k ->
          exists v, item a [k] = Ok v /\ item r ks = Ok v.
Proof.
  intros Hxs Hall dims.
  destruct (makeCurvilinear_axes coords xs axes w Hxs Hall)
    as (ys & w' & E & Hys & _ & Hel).
  exists ys, w'. split; [exact E |]. split; [exact Hys |].
  intros i a Ha. destruct (Hel i a Ha) as (y & Hy & Hr).
  eexists y, _. split; [exact Hy |]. split; [exact Hr |].
  split; [reflexivity |]. split; [reflexivity |].
  intros ks k Hks Hk.
  assert (Hdi : dims !! i = Some (length (data a)))
    by (unfold dims; rewrite list_lookup_fmap, Ha; reflexivity).
  assert (Hkl : k < length (data a)).
  { destruct (Forall2_lookup_l _ _ _ _ _ Hks Hk) as (d & Hd & Hkd).
    fold dims in Hd. congruence. }
  destruct (lookup_lt_is_Some_2 (data a) k Hkl) as [v Hv].
  exists v. split.
  - destruct (Forall2_lookup_r _ _ _ _ _ Hall Ha) as (x & _ & _ & Hs).
    unfold item. rewrite Hs. simpl.
    destruct (decide (k < length (data a))); [| contradiction].
    rewrite Hv. reflexivity.
  - apply (tensor_item _ _ _ _ _ k); assumption.
Qed.

(** X10.  Normalizing a list of 1-D axes a second time changes nothing:
    the second call returns the same sizes and leaves the store exactly as
    the first call left it. *)
Theorem makeCurvilinear_twice (coords : loc) (xs : list loc)
    (axes : list ndarray) (w : world) :
  w_heap w !! coords = Some (ObjList xs) ->
  Forall2 (fun x a => w_heap w !! x = Some (ObjArray a) /\
                      shape a = [length (data a)]) xs axes ->
  exists dims w1,
    makeCurvilinear coords w = (Ok (coords, dims), w1) /\
    makeCurvilinear coords w1 = (Ok (coords, dims), w1).
Proof.
  intros Hxs Hall.
  pose proof (Forall2_length _ _ _ Hall) as Hlen.
  destruct (makeCurvilinear_axes coords xs axes w Hxs Hall)
    as (ys & w1 & E & Hys & Hylen & Hel).
  eexists _, w1. split; [exact E |].
  destruct (makeCurvilinear_kept coords ys w1 Hys) as (dims' & E' & Hl' & Hd').
  { apply Forall_lookup. intros i y Hy.
    destruct (lookup_lt_is_Some_2 axes i) as [a Ha].
    { apply lookup_lt_Some in Hy. lia. }
    destruct (Hel i a Ha) as (y' & Hy' & Hr).
    assert (y' = y) by congruence. subst y'.
    eexists. split; [exact Hr |]. simpl. rewrite length_map. lia. }
  rewrite E'. do 3 f_equal.
  apply list_eq. intros i.
  destruct (decide (i < length axes)) as [Hi|Hi].
  - destruct (lookup_lt_is_Some_2 axes i Hi) as [a Ha].
    destruct (Hel i a Ha) as (y & Hy & Hr).
    rewrite (Hd' i y _ Hy Hr). reflexivity.
  - rewrite !lookup_ge_None_2; [reflexivity | | ].
    + rewrite length_map. lia.
    + lia.
Qed.

(** ** What the normalizer has done when it returns *)

Lemma lift_ok_inv {A} (r : result A) (a : A) (w w' : world) :
  lift r w = (Ok a, w') -> r = Ok a /\ w' = w.
Proof. unfold lift. intros H. injection H as -> ->. split; reflexivity. Qed.

Lemma read_array_ok_inv (l : loc) (a : ndarray) (w w' : world) :
  read_array l w = (Ok a, w') ->
  w_heap w !! l = Some (ObjArray a) /\ w' = w.
Proof.
  unfold read_array. destruct (w_heap w !! l) as [[b|xs]|];
    intros H; try discriminate.
  injection H as -> ->. split; reflexivity.
Qed.

Lemma read_list_ok_inv (l : loc) (xs : list loc) (w w' : world) :
  read_list l w = (Ok xs, w') ->
  w_heap w !! l = Some (ObjList xs) /\ w' = w.
Proof.
  unfold read_list. destruct (w_heap w !! l) as [[b|ys]|];
    intros H; try discriminate.
  injection H as -> ->. split; reflexivity.
Qed.

Lemma list_getitem_ok_inv (lst : loc) (i : nat) (c : loc) (w w' : world) :
  list_getitem lst i w = (Ok c, w') ->
  exists xs, w_heap w !! lst = Some (ObjList xs) /\ xs !! i = Some c /\ w' = w.
Proof.
  unfold list_getitem. intros H.
  apply bind_ok_inv in H as (xs & w1 & E & H).
  apply read_list_ok_inv in E as [E ->].
  apply lift_ok_inv in H as [H ->].
  exists xs. split; [exact E |]. split; [| reflexivity].
  apply getitem_nat_inv, H.
Qed.

Lemma list_setitem_ok_inv (lst : loc) (i : nat) (v : loc) (u : unit)
    (w w' : world) :
  list_setitem lst i v w = (Ok u, w') ->
  exists xs,
    w_heap w !! lst = Some (ObjList xs) /\ i < length xs /\
    w' = {| w_heap := <[lst := ObjList (<[i := v]> xs)]> (w_heap w);
            w_trace := w_trace w |}.
Proof.
  unfold list_setitem. intros H.
  apply bind_ok_inv in H as (xs & w1 & E & H).
  apply read_list_ok_inv in E as [E ->].
  destruct (decide (i < length xs)) as [Hi|]; [| discriminate].
  injection H as _ <-. eauto.
Qed.

Lemma reshape_ok_inv (a r : ndarray) (dims : list nat) :
  reshape a dims = Ok r -> shape r = dims.
Proof.
  unfold reshape. destruct (decide _); [| discriminate].
  intros H. injection H as <-. reflexivity.
Qed.

(** A loop over [range(n)] that has returned has taken the invariant of the
    first round to the invariant of the last. *)
Lemma forM_range_returned {St} (I : nat -> St -> world -> Prop) (n : nat)
    (body : nat -> St -> M St) :
  (forall i s w s' w', i < n -> I i s w ->
     body i s w = (Ok s', w') -> I (S i) s' w') ->
  forall s w s' w',
    I 0 s w -> forM (range n) body s w = (Ok s', w') -> I n s' w'.
Proof.
  intros Hbody. unfold range.
  assert (Hgen : forall m j s w s' w', j + m = n -> I j s w ->
            forM (seq j m) body s w = (Ok s', w') -> I n s' w').
  { induction m as [|m IH]; intros j s w s' w' Hj HI H; simpl in H.
    - apply ret_ok_inv in H as [<- <-]. replace n with j by lia. exact HI.
    - apply bind_ok_inv in H as (s1 & w1 & E & H).
      eapply (IH (S j)); [lia | | exact H].
      eapply Hbody; [| exact HI | exact E]. lia. }
  intros s w s' w' HI H. eapply Hgen; [| exact HI | exact H]. lia.
Qed.

Lemma reads_ret {A} (a : A) : reads (ret a).
Proof. intros w. reflexivity. Qed.

Lemma reads_raise {A} (e : exn) : reads (@raise A e).
Proof. intros w. reflexivity. Qed.

Lemma reads_lift {A} (r : result A) : reads (lift r).
Proof. intros w. reflexivity. Qed.

Lemma reads_read_array (l : loc) : reads (read_array l).
Proof.
  intros w. unfold read_array. destruct (w_heap w !! l) as [[]|]; reflexivity.
Qed.

Lemma reads_read_list (l : loc) : reads (read_list l).
Proof.
  intros w. unfold read_list. destruct (w_heap w !! l) as [[]|]; reflexivity.
Qed.

Lemma reads_bind {A B} (c : M A) (k : A -> M B) :
  reads c -> (forall a, reads (k a)) -> reads (bind c k).
Proof.
  intros Hc Hk w. unfold bind. specialize (Hc w).
  destruct (c w) as [[a|e] w1]; simpl in *; [| exact Hc].
  rewrite Hk. exact Hc.
Qed.

Lemma reads_forM {A St} (l : list A) (body : A -> St -> M St) :
  (forall x s, reads (body x s)) -> forall s, reads (forM l body s).
Proof.
  intros Hbody. induction l as [|x l IH]; intros s; simpl.
  - apply reads_ret.
  - apply reads_bind; [apply Hbody | exact IH].
Qed.

Lemma reads_list_getitem (lst : loc) (i : nat) : reads (list_getitem lst i).
Proof.
  unfold list_getitem. apply reads_bind; [apply reads_read_list |].
  intros xs. apply reads_lift.
Qed.

Ltac reads_tac :=
  repeat first
    [ apply reads_ret | apply reads_raise | apply reads_lift
    | apply reads_read_array | apply reads_read_list
    | apply reads_list_getitem
    | apply reads_forM; intros
    | apply reads_bind; [| intros]
    | progress cbv zeta
    | branch_tac ].

(** When [makeCurvilinear] returns, every element of its list is an array
    with as many dimensions as the list has elements: a descriptor that
    had that many dimensions already, in its place, or a new array of the
    shape the function reports. *)
Lemma makeCurvilinear_returned (coords c : loc) (xs : list loc)
    (dims : list nat) (w w' : world) :
  w_heap w !! coords = Some (ObjList xs) ->
  makeCurvilinear coords w = (Ok (c, dims), w') ->
  exists ys,
    w_heap w' !! coords = Some (ObjList ys) /\
    length ys = length xs /\
    forall i y, ys !! i = Some y ->
      exists a, w_heap w' !! y = Some (ObjArray a) /\
                length (shape a) = length xs /\
                (xs !! i = Some y \/ shape a = dims).
Proof.
  intros Hxs H.
  destruct (makeCurvilinear_returns _ _ _ _ _ _ Hxs H) as [-> Hdims].
  unfold makeCurvilinear in H.
  apply bind_ok_inv in H as (cs & w1 & Ecs & H).
  apply read_list_ok_inv in Ecs as [Ecs ->].
  assert (cs = xs) by congruence. subst cs.
  apply bind_ok_inv in H as (cd & w2 & Eloop1 & H). cbv zeta in H.
  assert (w2 = w) as ->.
  { match type of Eloop1 with
    | forM ?l ?body ?init w = _ =>
        assert (Hreads : reads (forM l body init))
    end.
    { reads_tac. }
    specialize (Hreads w). rewrite Eloop1 in Hreads. exact Hreads. }
  apply bind_ok_inv in H as (u & w3 & Eloop2 & H).
  apply ret_ok_inv in H as [H <-]. injection H as <-.
  set (N := length xs) in *.
  match type of Eloop2 with
  | forM _ ?body _ _ = _ =>
  pose proof (forM_range_returned
    (fun i (_ : unit) u =>
       exists zs,
         w_heap u !! coords = Some (ObjList zs) /\
         length zs = N /\
         (forall j, i <= j -> zs !! j = xs !! j) /\
         (forall j y, j < i -> zs !! j = Some y ->
            exists a, w_heap u !! y = Some (ObjArray a) /\
                      length (shape a) = N /\
                      (xs !! j = Some y \/ shape a = cd.2)))
    N body) as Hinv
  end.
  edestruct Hinv as (zs & Hzs & Hzlen & _ & Hdone);
    [| | exact Eloop2 |]; cycle 1.
  - exists xs. repeat split; auto. intros; lia.
  - exists zs. split; [exact Hzs |]. split; [exact Hzlen |].
    intros i y Hy. apply (Hdone i y); [| exact Hy].
    apply lookup_lt_Some in Hy. lia.
  - clear Hinv Eloop2. intros i [] u0 [] u' Hi (zs & Hzs & Hzlen & Hrest & Hdone) Hb.
    apply bind_ok_inv in Hb as (c0 & u1 & E0 & Hb).
    apply list_getitem_ok_inv in E0 as (zs' & Hzs' & Hc0 & ->).
    assert (zs' = zs) by congruence. subst zs'.
    apply bind_ok_inv in Hb as (a & u1 & E0 & Hb).
    apply read_array_ok_inv in E0 as [Ha ->]. cbv zeta in Hb.
    assert (Hcl : coords < length (w_heap u0))
      by (eapply lookup_lt_Some, Hzs).
    assert (Hnew : forall r u1,
              (bind (alloc (ObjArray r)) (fun l => list_setitem coords i l)) u0
              = (Ok tt, u1) ->
              shape r = cd.2 ->
              exists zs1,
                w_heap u1 !! coords = Some (ObjList zs1) /\
                length zs1 = N /\
                (forall j, S i <= j -> zs1 !! j = xs !! j) /\
                (forall j y, j < S i -> zs1 !! j = Some y ->
                   exists a, w_heap u1 !! y = Some (ObjArray a) /\
                             length (shape a) = N /\
                             (xs !! j = Some y \/ shape a = cd.2))).
    { intros r u1 E Hshape.
      apply bind_ok_inv in E as (l & u2 & El & E).
      rewrite alloc_run in El. injection El as <- <-.
      apply list_setitem_ok_inv in E as (zs1 & Hzs1 & _ & ->).
      simpl in Hzs1. rewrite lookup_app_l in Hzs1 by exact Hcl.
      assert (zs1 = zs) by congruence. subst zs1.
      exists (<[i := length (w_heap u0)]> zs). simpl.
      split; [apply list_lookup_insert_eq; rewrite length_app; simpl; lia |].
      split; [rewrite length_insert; exact Hzlen |].
      split.
      - intros j Hj. rewrite list_lookup_insert_ne by lia. apply Hrest. lia.
      - intros j y Hj Hy.
        destruct (decide (j = i)) as [->|Hne].
        + rewrite list_lookup_insert_eq in Hy by lia. injection Hy as <-.
          exists r. rewrite list_lookup_insert_ne by lia.
          split; [apply list_lookup_middle; reflexivity |].
          split; [rewrite Hshape; exact Hdims | right; exact Hshape].
        + rewrite list_lookup_insert_ne in Hy by lia.
          destruct (Hdone j y ltac:(lia) Hy) as (b & Hb' & Hrank & Hor).
          exists b. split; [| split; assumption].
          rewrite list_lookup_insert_ne by congruence.
          rewrite lookup_app_l by (eapply lookup_lt_Some, Hb').
          exact Hb'. }
    destruct (decide (length (shape a) = N)) as [Hrank|Hrank].
    { apply ret_ok_inv in Hb as [_ <-].
      exists zs. split; [exact Hzs |]. split; [exact Hzlen |]. split.
      - intros j Hj. apply Hrest. lia.
      - intros j y Hj Hy.
        destruct (decide (j = i)) as [->|Hne].
        + assert (y = c0) by congruence. subst y.
          exists a. split; [exact Ha |]. split; [exact Hrank |].
          left. rewrite <- Hrest by lia. exact Hc0.
        + apply Hdone; [lia | exact Hy]. }
    destruct (decide (length (shape a) = 1)) as [H1|H1].
    { apply bind_ok_inv in Hb as (r & u1 & E & Hb).
      apply lift_ok_inv in E as [E ->].
      apply (Hnew r u' Hb). unfold getTensorProduct in E.
      apply reshape_ok_inv in E. exact E. }
    destruct (decide _) as [Hspecial|Hother].
    { apply bind_ok_inv in Hb as (c1 & u1 & E & Hb).
      apply list_getitem_ok_inv in E as (? & _ & _ & ->).
      apply bind_ok_inv in Hb as (a1 & u1 & E & Hb).
      apply read_array_ok_inv in E as [_ ->].
      apply bind_ok_inv in Hb as (n0 & u1 & E & Hb).
      apply lift_ok_inv in E as [_ ->]. cbv zeta in Hb.
      apply bind_ok_inv in Hb as (r & u1 & E & Hb).
      apply lift_ok_inv in E as [E ->].
      apply (Hnew r u' Hb). apply reshape_ok_inv in E. exact E. }
    exfalso.
    apply bind_ok_inv in Hb as (zs1 & u1 & _ & Hb).
    apply bind_ok_inv in Hb as (shapes & u2 & _ & Hb).
    discriminate.
Qed.

(** X11.  When [makeCurvilinear] returns, it returns the list it was given
    and one size per descriptor, and every element of the list is an array
    with as many dimensions as the list is long: the descriptor that was
    there, or a new array whose shape is the sizes returned. *)
Theorem makeCurvilinear_postcondition (coords c : loc) (xs : list loc)
    (dims : list nat) (w w' : world) :
  w_heap w !! coords = Some (ObjList xs) ->
  makeCurvilinear coords w = (Ok (c, dims), w') ->
  c = coords /\ length dims = length xs /\
  exists ys,
    w_heap w' !! coords = Some (ObjList ys) /\
    length ys = length xs /\
    forall i y, ys !! i = Some y ->
      exists a, w_heap w' !! y = Some (ObjArray a) /\
                length (shape a) = length xs /\
                (xs !! i = Some y \/ shape a = dims).
Proof.
  intros Hxs H.
  destruct (makeCurvilinear_returns _ _ _ _ _ _ Hxs H) as [Hc Hdims].
  split; [exact Hc |]. split; [exact Hdims |].
  exact (makeCurvilinear_returned _ _ _ _ _ _ Hxs H).
Qed.

(** ** The constructor on rectilinear grids *)

Lemma insert_fill {A} (done : list A) (i n : nat) (x z : A) :
  length done = i -> i < n ->
  <[i := x]> (done ++ replicate (n - i) z)
  = (done ++ [x]) ++ replicate (n - S i) z.
Proof.
  intros Hlen Hi.
  replace (n - i) with (S (n - S i)) by lia. simpl.
  rewrite insert_app_r_alt by lia.
  replace (i - length done) with 0 by lia. simpl.
  rewrite <- app_assoc. reflexivity.
Qed.

(** On two lists of 1-D axes, of the same number [N >= 2], and with a
    native library whose calls succeed, the constructor returns an
    operator whose sizes are the lengths of the axes and whose coordinates
    are new float64 arrays holding the tensor products of the axes,
    converted to float64. *)
Lemma init_axes (LIBCFDIR : string) (CDLL : string -> bool)
    libcf astype
    (src_grid dst_grid : loc) (xs ys : list loc)
    (src_axes dst_axes : list ndarray) (w : world) :
  CDLL (LIBCFDIR +:+ ".so") = true ->
  (forall tr c, status (libcf tr c) = 0%Z) ->
  w_heap w !! src_grid = Some (ObjList xs) ->
  w_heap w !! dst_grid = Some (ObjList ys) ->
  src_grid <> dst_grid ->
  Forall2 (fun x a => w_heap w !! x = Some (ObjArray a) /\
                      shape a = [length (data a)]) xs src_axes ->
  Forall2 (fun x a => w_heap w !! x = Some (ObjArray a) /\
                      shape a = [length (data a)]) ys dst_axes ->
  length ys = length xs ->
  1 < length xs ->
  let sdims := map (fun a => length (data a)) src_axes in
  let ddims := map (fun a => length (data a)) dst_axes in
  exists s w',
    Regrid.__init__ LIBCFDIR CDLL libcf astype src_grid dst_grid w = (Ok s, w') /\
    Regrid.ndims s = length xs /\
    Regrid.src_dims s = map (fun d => c_int (Z.of_nat d)) sdims /\
    Regrid.dst_dims s = map (fun d => c_int (Z.of_nat d)) ddims /\
    length (getSrcGrid s) = length xs /\
    length (getDstGrid s) = length xs /\
    (forall i a, src_axes !! i = Some a ->
       exists l, getSrcGrid s !! i = Some l /\
         w_heap w' !! l
         = Some (ObjArray {| dtype_of := float64; shape := sdims;
                             data := map (astype (dtype_of a) float64)
                                    (tensor_data (data a) i sdims) |})) /\
    (forall i a, dst_axes !! i = Some a ->
       exists l, getDstGrid s !! i = Some l /\
         w_heap w' !! l
         = Some (ObjArray {| dtype_of := float64; shape := ddims;
                             data := map (astype (dtype_of a) float64)
                                    (tensor_data (data a) i ddims) |})) /\
    length (w_trace w') = length (w_trace w) + 2 * length xs + 3 /\
    (forall l a, w_heap w !! l = Some (ObjArray a) ->
                 w_heap w' !! l = Some (ObjArray a)).
Proof.
  intros Hlib Hok Hsrc Hdst Hneq Hsa Hda Hlen HN sdims ddims.
  set (N := length xs) in *.
  pose proof (Forall2_length _ _ _ Hsa) as Hsl.
  pose proof (Forall2_length _ _ _ Hda) as Hdl.
  (* the two conversions *)
  destruct (makeCurvilinear_axes src_grid xs src_axes w Hsrc Hsa)
    as (zs & w1 & E1 & Hzs & Hzlen & Hzel). fold sdims in E1, Hzel.
  pose proof (framed_makeCurvilinear src_grid w) as Hf1.
  pose proof (steady_makeCurvilinear src_grid w) as Hs1.
  pose proof (quiet_makeCurvilinear src_grid w) as Hq1.
  rewrite E1 in Hf1, Hs1, Hq1. simpl in Hf1, Hs1, Hq1.
  assert (Hdst1 : w_heap w1 !! dst_grid = Some (ObjList ys)).
  { rewrite (proj2 Hf1) by (eauto using lookup_lt_Some). exact Hdst. }
  assert (Hda1 : Forall2 (fun x a => w_heap w1 !! x = Some (ObjArray a) /\
                            shape a = [length (data a)]) ys dst_axes).
  { eapply Forall2_impl; [exact Hda |]. intros x a [Hx Hs].
    split; [apply (proj1 Hs1), Hx | exact Hs]. }
  destruct (makeCurvilinear_axes dst_grid ys dst_axes w1 Hdst1 Hda1)
    as (zd & w2 & E2 & Hzd & Hzdlen & Hzdel). fold ddims in E2, Hzdel.
  pose proof (framed_makeCurvilinear dst_grid w1) as Hf2.
  pose proof (steady_makeCurvilinear dst_grid w1) as Hs2.
  pose proof (quiet_makeCurvilinear dst_grid w1) as Hq2.
  rewrite E2 in Hf2, Hs2, Hq2. simpl in Hf2, Hs2, Hq2.
  assert (Hzs2 : w_heap w2 !! src_grid = Some (ObjList zs)).
  { rewrite (proj2 Hf2) by (eauto using lookup_lt_Some). exact Hzs. }
  assert (Hzel2 : forall i a, src_axes !! i = Some a ->
            exists y, zs !! i = Some y /\
              w_heap w2 !! y
              = Some (ObjArray {| dtype_of := dtype_of a; shape := sdims;
                                  data := tensor_data (data a) i sdims |})).
  { intros i a Ha. destruct (Hzel i a Ha) as (y & Hy & Hr).
    exists y. split; [exact Hy | apply (proj1 Hs2), Hr]. }
  clear Hzel.
  (* the prologue *)
  unfold Regrid.__init__. rewrite Hlib.
  erewrite bind_run by reflexivity.
  erewrite bind_run by (apply read_list_run, Hsrc).
  erewrite bind_run by (apply read_list_run, Hdst).
  fold N. rewrite Hlen. cbv zeta.
  destruct (decide (N <> N)) as [|_]; [contradiction |].
  destruct (decide (N <= 0)) as [|_]; [lia |].
  destruct (decide (1 < N)) as [_|]; [| contradiction].
  erewrite bind_run; cycle 1.
  { erewrite bind_run by exact E1. erewrite bind_run by exact E2.
    reflexivity. }
  cbn [fst snd].
  (* the loop that copies the sizes *)
  lazymatch goal with
  | |- context [bind (forM (range N) ?body ?init) ?k w2] =>
      assert (Hloop1 : exists st u,
                forM (range N) body init w2 = (Ok st, u) /\
                (u = w2 /\
                 length st.1.1.1 = N /\ length st.1.1.2 = N /\
                 st.1.2 = map (fun d => c_int (Z.of_nat d)) (take N sdims)
                          ++ replicate (N - N) 0%Z /\
                 st.2 = map (fun d => c_int (Z.of_nat d)) (take N ddims)
                        ++ replicate (N - N) 0%Z))
  end.
  { apply (forM_range_invariant
             (fun i (st : list string * list string * list Z * list Z) u =>
                u = w2 /\
                length st.1.1.1 = N /\ length st.1.1.2 = N /\
                st.1.2 = map (fun d => c_int (Z.of_nat d)) (take i sdims)
                         ++ replicate (N - i) 0%Z /\
                st.2 = map (fun d => c_int (Z.of_nat d)) (take i ddims)
                       ++ replicate (N - i) 0%Z)).
    - intros i [[[n1 n2] d1] d2] u Hi (-> & Hn1 & Hn2 & H1 & H2).
      simpl in Hn1, Hn2, H1, H2.
      destruct (lookup_lt_is_Some_2 sdims i) as [v Hv];
        [unfold sdims; rewrite length_map; lia |].
      destruct (lookup_lt_is_Some_2 ddims i) as [v' Hv'];
        [unfold ddims; rewrite length_map; lia |].
      assert (Ht1 : length (map (fun d => c_int (Z.of_nat d)) (take i sdims)) = i).
      { rewrite length_map, length_take.
        apply lookup_lt_Some in Hv. lia. }
      assert (Ht2 : length (map (fun d => c_int (Z.of_nat d)) (take i ddims)) = i).
      { rewrite length_map, length_take.
        apply lookup_lt_Some in Hv'. lia. }
      erewrite bind_run by reflexivity.
      erewrite bind_run by (apply lift_ok, getitem_lookup, Hv).
      erewrite bind_run
        by (apply lift_ok, c_int_setitem_run; subst d1;
            rewrite length_app, Ht1, length_replicate; lia).
      erewrite bind_run by reflexivity.
      erewrite bind_run by (apply lift_ok, getitem_lookup, Hv').
      erewrite bind_run
        by (apply lift_ok, c_int_setitem_run; subst d2;
            rewrite length_app, Ht2, length_replicate; lia).
      eexists _, _. split; [reflexivity |]. simpl.
      rewrite !length_insert.
      split; [reflexivity |]. split; [exact Hn1 |]. split; [exact Hn2 |].
      subst d1 d2.
      rewrite (insert_fill _ i N) by (assumption || lia).
      rewrite (insert_fill _ i N) by (assumption || lia).
      rewrite (take_S_r _ _ _ Hv), (take_S_r _ _ _ Hv'), !map_app.
      split; reflexivity.
    - simpl. rewrite !length_replicate, Nat.sub_0_r.
      repeat split; reflexivity. }
  destruct Hloop1 as ([[[n1 n2] d1] d2] & ? & Eloop1 & -> & _ & _ & Hd1 & Hd2).
  simpl in Hd1, Hd2.
  rewrite Nat.sub_diag, app_nil_r, take_ge in Hd1, Hd2
    by (unfold sdims, ddims; rewrite length_map; lia).
  subst d1 d2.
  erewrite bind_run by exact Eloop1. cbv beta iota.
  (* the loop that defines the coordinates *)
  lazymatch goal with
  | |- context [bind (forM (range N) ?body ?init) ?k w2] =>
      assert (Hloop2 : exists st u,
                forM (range N) body init w2 = (Ok st, u) /\
                ((exists extra, w_heap u = w_heap w2 ++ extra) /\
                 length (w_trace u) = length (w_trace w2) + 2 * N /\
                 length st.1.1.1 = N /\ length st.1.1.2 = N /\
                 length st.1.2 = N /\ length st.2 = N /\
                 (forall j a, j < N -> src_axes !! j = Some a ->
                    exists l, st.1.1.1 !! j = Some l /\
                      w_heap u !! l
                      = Some (ObjArray {| dtype_of := float64; shape := sdims;
                                          data := map (astype (dtype_of a) float64)
                                    (tensor_data (data a) j sdims) |})) /\
                 (forall j a, j < N -> dst_axes !! j = Some a ->
                    exists l, st.1.1.2 !! j = Some l /\
                      w_heap u !! l
                      = Some (ObjArray {| dtype_of := float64; shape := ddims;
                                          data := map (astype (dtype_of a) float64)
                                    (tensor_data (data a) j ddims) |}))))
  end.
  { apply (forM_range_invariant
             (fun i (st : list loc * list loc * list Z * list Z) u =>
                (exists extra, w_heap u = w_heap w2 ++ extra) /\
                length (w_trace u) = length (w_trace w2) + 2 * i /\
                length st.1.1.1 = i /\ length st.1.1.2 = i /\
                length st.1.2 = N /\ length st.2 = N /\
                (forall j a, j < i -> src_axes !! j = Some a ->
                   exists l, st.1.1.1 !! j = Some l /\
                     w_heap u !! l
                     = Some (ObjArray {| dtype_of := float64; shape := sdims;
                                         data := map (astype (dtype_of a) float64)
                                    (tensor_data (data a) j sdims) |})) /\
                (forall j a, j < i -> dst_axes !! j = Some a ->
                   exists l, st.1.1.2 !! j = Some l /\
                     w_heap u !! l
                     = Some (ObjArray {| dtype_of := float64; shape := ddims;
                                         data := map (astype (dtype_of a) float64)
                                    (tensor_data (data a) j ddims) |})))).
    - intros i [[[sc dc] ids] idd] u Hi
        ([extra Hu] & Htr & Hsc & Hdc & His & Hid & Hsel & Hdel).
      simpl in Hsc, Hdc, His, Hid, Hsel, Hdel.
      assert (Hold : forall l o, w_heap w2 !! l = Some o ->
                w_heap u !! l = Some o).
      { intros l o Hl. rewrite Hu.
        rewrite lookup_app_l by (eapply lookup_lt_Some, Hl). exact Hl. }
      destruct (lookup_lt_is_Some_2 src_axes i ltac:(lia)) as [a Ha].
      destruct (lookup_lt_is_Some_2 dst_axes i ltac:(lia)) as [b Hb].
      destruct (Hzel2 i a Ha) as (y & Hy & Hyr).
      destruct (Hzdel i b Hb) as (y' & Hy' & Hyr').
      (* the source coordinate *)
      erewrite bind_run
        by (eapply list_getitem_run; [apply Hold, Hzs2 | exact Hy]).
      erewrite bind_run by (apply read_array_run, Hold, Hyr).
      erewrite bind_run by apply alloc_run.
      erewrite bind_run by apply native_run.
      rewrite Hok.
      erewrite bind_run by apply catchError_zero.
      erewrite bind_run by (apply lift_ok, c_int_setitem_run; lia).
      (* the destination coordinate *)
      erewrite bind_run
        by (eapply list_getitem_run;
            [simpl; rewrite lookup_app_l by (eapply lookup_lt_Some, Hold, Hzd);
             apply Hold, Hzd | exact Hy']).
      erewrite bind_run
        by (apply read_array_run; simpl;
            rewrite lookup_app_l by (eapply lookup_lt_Some, Hold, Hyr');
            apply Hold, Hyr').
      erewrite bind_run by apply alloc_run.
      erewrite bind_run by apply native_run.
      rewrite Hok.
      erewrite bind_run by apply catchError_zero.
      erewrite bind_run by (apply lift_ok, c_int_setitem_run; lia).
      eexists _, _. split; [reflexivity |]. simpl.
      split; [exists ((extra ++ [ObjArray (numpy_array astype
                 {| dtype_of := dtype_of a; shape := sdims;
                    data := tensor_data (data a) i sdims |} float64)])
                ++ [ObjArray (numpy_array astype
                 {| dtype_of := dtype_of b; shape := ddims;
                    data := tensor_data (data b) i ddims |} float64)]);
              rewrite Hu, <- !app_assoc; reflexivity |].
      split; [rewrite !length_app; simpl; lia |].
      split; [rewrite length_app; simpl; lia |].
      split; [rewrite length_app; simpl; lia |].
      split; [rewrite length_insert; exact His |].
      split; [rewrite length_insert; exact Hid |].
      split.
      + intros j a' Hj Ha'.
        destruct (decide (j = i)) as [->|Hne].
        * assert (a' = a) by congruence. subst a'.
          exists (length (w_heap u)).
          split; [rewrite lookup_app_r by lia;
                  replace (length (w_heap u) - length sc) with
                    (length (w_heap u) - length sc) by lia;
                  rewrite Hsc, Nat.sub_diag; reflexivity |].
          rewrite lookup_app_l by (rewrite length_app; simpl; lia).
          apply list_lookup_middle. reflexivity.
        * destruct (Hsel j a' ltac:(lia) Ha') as (l & Hl & Hlr).
          exists l. split; [rewrite lookup_app_l by lia; exact Hl |].
          rewrite <- app_assoc.
          rewrite lookup_app_l by (eapply lookup_lt_Some, Hlr). exact Hlr.
      + intros j b' Hj Hb'.
        destruct (decide (j = i)) as [->|Hne].
        * assert (b' = b) by congruence. subst b'.
          exists (length (w_heap u ++ [ObjArray (numpy_array astype
                    {| dtype_of := dtype_of a; shape := sdims;
                       data := tensor_data (data a) i sdims |} float64)])).
          split; [rewrite lookup_app_r by lia;
                  rewrite Hdc, Nat.sub_diag; reflexivity |].
          apply list_lookup_middle. reflexivity.
        * destruct (Hdel j b' ltac:(lia) Hb') as (l & Hl & Hlr).
          exists l. split; [rewrite lookup_app_l by lia; exact Hl |].
          rewrite <- app_assoc.
          rewrite lookup_app_l by (eapply lookup_lt_Some, Hlr). exact Hlr.
    - simpl. unfold c_int_array. rewrite length_replicate.
      split; [exists []; rewrite app_nil_r; reflexivity |].
      repeat split; try reflexivity; try lia; intros; lia. }
  destruct Hloop2 as ([[[sc dc] ids] idd] & u & Eloop2 & [extra Hu] & Htr
                      & Hsc & Hdc & _ & _ & Hsel & Hdel).
  simpl in Hsc, Hdc, Hsel, Hdel.
  erewrite bind_run by exact Eloop2. cbv beta iota.
  (* the grids and the operator *)
  erewrite bind_run by apply native_run. rewrite Hok.
  erewrite bind_run by apply catchError_zero.
  erewrite bind_run by apply native_run. rewrite Hok.
  erewrite bind_run by apply catchError_zero.
  erewrite bind_run by apply native_run. rewrite Hok.
  erewrite bind_run by apply catchError_zero.
  eexists _, _. split; [reflexivity |]. simpl.
  unfold getSrcGrid, getDstGrid. simpl.
  repeat split; try assumption; try reflexivity.
  - intros i a Ha. apply Hsel; [| exact Ha].
    apply lookup_lt_Some in Ha. lia.
  - intros i b Hb. apply Hdel; [| exact Hb].
    apply lookup_lt_Some in Hb. lia.
  - rewrite !length_app. simpl. rewrite Htr, Hq2, Hq1. lia.
  - intros l a Hl. rewrite Hu.
    apply (proj1 Hs1), (proj1 Hs2) in Hl.
    rewrite lookup_app_l by (eapply lookup_lt_Some, Hl). exact Hl.
Qed.

(** X12.  On two lists of [N >= 2] 1-D axes, and with a native library
    whose calls succeed, the constructor returns an operator of [N]
    dimensions whose sizes are the lengths of the axes.  [getSrcGrid] and
    [getDstGrid] then give [N] new float64 arrays each, of the shape of
    the grid, that hold the tensor products of the axes, every value
    converted by numpy from the dtype of its axis to float64.  The
    constructor makes [2 N + 3] native calls and leaves every array of the
    caller as it was. *)
Theorem init_rectilinear (LIBCFDIR : string) (CDLL : string -> bool)
    libcf astype
    (src_grid dst_grid : loc) (xs ys : list loc)
    (src_axes dst_axes : list ndarray) (w : world) :
  CDLL (LIBCFDIR +:+ ".so") = true ->
  (forall tr c, status (libcf tr c) = 0%Z) ->
  w_heap w !! src_grid = Some (ObjList xs) ->
  w_heap w !! dst_grid = Some (ObjList ys) ->
  src_grid <> dst_grid ->
  Forall2 (fun x a => w_heap w !! x = Some (ObjArray a) /\
                      shape a = [length (data a)]) xs src_axes ->
  Forall2 (fun x a => w_heap w !! x = Some (ObjArray a) /\
                      shape a = [length (data a)]) ys dst_axes ->
  length ys = length xs ->
  1 < length xs ->
  let sdims := map (fun a => length (data a)) src_axes in
  let ddims := map (fun a => length (data a)) dst_axes in
  exists s w',
    Regrid.__init__ LIBCFDIR CDLL libcf astype src_grid dst_grid w = (Ok s, w') /\
    Regrid.ndims s = length xs /\
    Regrid.src_dims s = map (fun d => c_int (Z.of_nat d)) sdims /\
    Regrid.dst_dims s = map (fun d => c_int (Z.of_nat d)) ddims /\
    length (getSrcGrid s) = length xs /\
    length (getDstGrid s) = length xs /\
    (forall i a, src_axes !! i = Some a ->
       exists l, getSrcGrid s !! i = Some l /\
         w_heap w' !! l
         = Some (ObjArray {| dtype_of := float64; shape := sdims;
                             data := map (astype (dtype_of a) float64)
                                    (tensor_data (data a) i sdims) |})) /\
    (forall i a, dst_axes !! i = Some a ->
       exists l, getDstGrid s !! i = Some l /\
         w_heap w' !! l
         = Some (ObjArray {| dtype_of := float64; shape := ddims;
                             data := map (astype (dtype_of a) float64)
                                    (tensor_data (data a) i ddims) |})) /\
    length (w_trace w') = length (w_trace w) + 2 * length xs + 3 /\
    (forall l a, w_heap w !! l = Some (ObjArray a) ->
                 w_heap w' !! l = Some (ObjArray a)).
Proof.
  intros Hlib Hok Hsrc Hdst Hneq Hsa Hda Hlen HN.
  exact (init_axes LIBCFDIR CDLL libcf astype src_grid dst_grid xs ys
           src_axes dst_axes w Hlib Hok Hsrc Hdst Hneq Hsa Hda Hlen HN).
Qed.

Lemma c_int_small (z : Z) :
  (0 <= z < 2 ^ 31)%Z -> c_int z = z.
Proof.
  intros Hz. unfold c_int.
  rewrite Z.mod_small by lia. lia.
Qed.

Lemma map_c_int_small (ds : list nat) :
  Forall (fun d => (Z.of_nat d < 2 ^ 31)%Z) ds ->
  map (fun d => c_int (Z.of_nat d)) ds = map Z.of_nat ds.
Proof.
  induction 1 as [|d ds Hd _ IH]; simpl; [reflexivity |].
  rewrite c_int_small by lia. f_equal. exact IH.
Qed.

(** X13.  The operator that the constructor builds from two lists of
    [N >= 2] 1-D axes, each shorter than [2 ^ 31], takes the fields whose
    shapes are the lengths of the axes: on such fields of supported
    types, in whatever store they are, and with a native library whose
    calls succeed, [apply] runs to its end. *)
Theorem init_then_apply (LIBCFDIR : string) (CDLL : string -> bool)
    (NC_FILL_DOUBLE NC_FILL_FLOAT : Q) (NC_FILL_INT : Z) libcf astype
    (src_grid dst_grid : loc) (xs ys : list loc)
    (src_axes dst_axes : list ndarray) (w : world)
    (s : Regrid.self) (w' w2 : world) (src_data dst_data : loc)
    (src dst : ndarray) :
  CDLL (LIBCFDIR +:+ ".so") = true ->
  (forall tr c, status (libcf tr c) = 0%Z) ->
  w_heap w !! src_grid = Some (ObjList xs) ->
  w_heap w !! dst_grid = Some (ObjList ys) ->
  src_grid <> dst_grid ->
  Forall2 (fun x a => w_heap w !! x = Some (ObjArray a) /\
                      shape a = [length (data a)]) xs src_axes ->
  Forall2 (fun x a => w_heap w !! x = Some (ObjArray a) /\
                      shape a = [length (data a)]) ys dst_axes ->
  length ys = length xs ->
  1 < length xs ->
  Forall (fun a => (Z.of_nat (length (data a)) < 2 ^ 31)%Z) src_axes ->
  Forall (fun a => (Z.of_nat (length (data a)) < 2 ^ 31)%Z) dst_axes ->
  Regrid.__init__ LIBCFDIR CDLL libcf astype src_grid dst_grid w = (Ok s, w') ->
  w_heap w2 !! src_data = Some (ObjArray src) ->
  w_heap w2 !! dst_data = Some (ObjArray dst) ->
  shape src = map (fun a => length (data a)) src_axes ->
  shape dst = map (fun a => length (data a)) dst_axes ->
  supported_dtype (dtype_of src) = true ->
  supported_dtype (dtype_of dst) = true ->
  (Regrid.apply NC_FILL_DOUBLE NC_FILL_FLOAT NC_FILL_INT libcf
     s src_data dst_data w2).1 = Ok tt.
Proof.
  intros Hlib Hok Hsrc Hdst Hneq Hsa Hda Hlen HN Hss Hsd Hinit
    Hsrc' Hdst' Hshs Hshd Esrc Edst.
  destruct (init_axes LIBCFDIR CDLL libcf astype src_grid dst_grid xs ys
              src_axes dst_axes w Hlib Hok Hsrc Hdst Hneq Hsa Hda Hlen HN)
    as (s0 & w0 & E & Hnd & Hsdims & Hddims & _).
  rewrite E in Hinit. injection Hinit as <- <-.
  pose proof (Forall2_length _ _ _ Hsa) as Hsl.
  pose proof (Forall2_length _ _ _ Hda) as Hdl.
  rewrite map_c_int_small in Hsdims
    by (apply Forall_map; exact Hss).
  rewrite map_c_int_small in Hddims
    by (apply Forall_map; exact Hsd).
  rewrite (apply_by_dtype NC_FILL_DOUBLE NC_FILL_FLOAT NC_FILL_INT libcf Hok
             s0 src_data dst_data src dst w2 Hsrc' Hdst').
  - rewrite Esrc, Edst. reflexivity.
  - lia.
  - rewrite Hsdims, Hnd, !length_map. lia.
  - rewrite Hddims, Hnd, !length_map. lia.
  - rewrite Hsdims, Hshs. reflexivity.
  - rewrite Hddims, Hshd. reflexivity.
Qed.

(** ** The constructor on grids that it refuses *)

(** X14.  When [CDLL] fails on the first suffix the constructor raises
    its [OSError] and tries no other suffix; when the normalizer refuses
    one of the two grids the constructor raises the error of the
    normalizer.  In both cases no native call has been made. *)
Theorem init_refusal (LIBCFDIR : string) (CDLL : string -> bool)
    libcf astype
    (src_grid dst_grid : loc) (xs ys : list loc) (w : world) :
  w_heap w !! src_grid = Some (ObjList xs) ->
  w_heap w !! dst_grid = Some (ObjList ys) ->
  length ys = length xs ->
  1 < length xs ->
  let out := Regrid.__init__ LIBCFDIR CDLL libcf astype src_grid dst_grid w in
  (CDLL (LIBCFDIR +:+ ".so") = false -> out = (Raise OSError, w)) /\
  (CDLL (LIBCFDIR +:+ ".so") = true ->
   forall e, (makeCurvilinear src_grid w).1 = Raise e ->
     out = (Raise e, (makeCurvilinear src_grid w).2) /\
     w_trace out.2 = w_trace w) /\
  (CDLL (LIBCFDIR +:+ ".so") = true ->
   forall r w1 e, makeCurvilinear src_grid w = (Ok r, w1) ->
     (makeCurvilinear dst_grid w1).1 = Raise e ->
     out = (Raise e, (makeCurvilinear dst_grid w1).2) /\
     w_trace out.2 = w_trace w).
Proof.
  intros Hsrc Hdst Hlen HN out. subst out.
  unfold Regrid.__init__.
  split; [| split].
  - intros ->. reflexivity.
  - intros -> e He.
    erewrite bind_run by reflexivity.
    erewrite bind_run by (apply read_list_run, Hsrc).
    erewrite bind_run by (apply read_list_run, Hdst).
    rewrite Hlen. cbv zeta.
    destruct (decide (length xs <> length xs)) as [|_]; [contradiction |].
    destruct (decide (length xs <= 0)) as [|_]; [lia |].
    destruct (decide (1 < length xs)) as [_|]; [| contradiction].
    pose proof (quiet_makeCurvilinear src_grid w) as Hq.
    destruct (makeCurvilinear src_grid w) as [r1 w1] eqn:E1.
    simpl in He, Hq. subst r1.
    erewrite bind_run_raise
      by (erewrite bind_run_raise by exact E1; reflexivity).
    split; [reflexivity | exact Hq].
  - intros -> r w1 e E1 He.
    erewrite bind_run by reflexivity.
    erewrite bind_run by (apply read_list_run, Hsrc).
    erewrite bind_run by (apply read_list_run, Hdst).
    rewrite Hlen. cbv zeta.
    destruct (decide (length xs <> length xs)) as [|_]; [contradiction |].
    destruct (decide (length xs <= 0)) as [|_]; [lia |].
    destruct (decide (1 < length xs)) as [_|]; [| contradiction].
    pose proof (quiet_makeCurvilinear src_grid w) as Hq1.
    rewrite E1 in Hq1. simpl in Hq1.
    pose proof (quiet_makeCurvilinear dst_grid w1) as Hq2.
    destruct (makeCurvilinear dst_grid w1) as [r2 w2] eqn:E2.
    simpl in He, Hq2. subst r2.
    erewrite bind_run_raise
      by (erewrite bind_run by exact E1;
          erewrite bind_run_raise by exact E2; reflexivity).
    split; [reflexivity | simpl; congruence].
Qed.

(** ** The native calls of [apply] *)


(** X15.  On two fields of the right shape and of supported types, and
    with a native library whose calls succeed, [apply] makes seven native
    calls: it defines the source data and sets it through the entry point
    of its dtype, with the identifier the definition handed back; it does
    the same for the destination data; it applies the weights to these
    two identifiers; and it frees the two data objects, the source
    first.  In the store it writes what the interpolation gave into the
    buffer of [dst_data] and changes nothing else. *)
Theorem apply_calls (NC_FILL_DOUBLE NC_FILL_FLOAT : Q) (NC_FILL_INT : Z)
    libcf (s : Regrid.self) (src_data dst_data : loc) (src dst : ndarray)
    (w : world) :
  (forall tr c, status (libcf tr c) = 0%Z) ->
  w_heap w !! src_data = Some (ObjArray src) ->
  w_heap w !! dst_data = Some (ObjArray dst) ->
  0 < Regrid.ndims s ->
  length (Regrid.src_dims s) = Regrid.ndims s ->
  length (Regrid.dst_dims s) = Regrid.ndims s ->
  map Z.of_nat (shape src) = Regrid.src_dims s ->
  map Z.of_nat (shape dst) = Regrid.dst_dims s ->
  supported_dtype (dtype_of src) = true ->
  supported_dtype (dtype_of dst) = true ->
  let set_data_of := fun (dataid : Z) (a : ndarray) =>
    if decide (dtype_of a = float64)
    then nccf_set_data_double dataid (data a) 0 NC_FILL_DOUBLE
    else if decide (dtype_of a = float32)
    then nccf_set_data_float dataid (data a) 0 NC_FILL_FLOAT
    else nccf_set_data_int dataid (data a) 0 (c_int NC_FILL_INT) in
  let d1 := nccf_def_data (Regrid.src_gridid s) "src_data" "" "" "" in
  let src_dataid := out_int (libcf (w_trace w) d1) in
  let c1 := set_data_of src_dataid src in
  let d2 := nccf_def_data (Regrid.dst_gridid s) "dst_data" "" "" "" in
  let dst_dataid := out_int (libcf (w_trace w ++ [d1; c1]) d2) in
  let c2 := set_data_of dst_dataid dst in
  let a := nccf_apply_regrid (Regrid.regridid s) src_dataid dst_dataid in
  let out := out_reals (libcf (w_trace w ++ [d1; c1; d2; c2]) a) in
  Regrid.apply NC_FILL_DOUBLE NC_FILL_FLOAT NC_FILL_INT libcf
    s src_data dst_data w
  = (Ok tt,
     {| w_heap := <[dst_data := ObjArray
                      {| dtype_of := dtype_of dst; shape := shape dst;
                         data := write_buffer (data dst) out |}]> (w_heap w);
        w_trace := w_trace w ++
          [d1; c1; d2; c2; a;
           nccf_free_data src_dataid; nccf_free_data dst_dataid] |}).
Proof.
  intros Hok Hsrc Hdst HN Hls Hld Hss Hsd Esrc Edst. cbv zeta.
  unfold Regrid.apply. cbv zeta.
  erewrite bind_run by (apply read_array_run, Hsrc).
  erewrite bind_run by (apply lift_ok, shape_test_same; eassumption).
  cbn [Bool.eqb].
  erewrite bind_run by (apply read_array_run, Hdst).
  erewrite bind_run by (apply lift_ok, shape_test_same; eassumption).
  cbn [Bool.eqb].
  erewrite bind_run by apply native_run.
  rewrite Hok.
  erewrite bind_run by apply catchError_zero.
  erewrite bind_run; cycle 1.
  { rewrite set_data_run by exact Esrc. cbv zeta. rewrite Hok.
    destruct (decide (0%Z <> 0%Z)) as [H|_]; [contradiction | reflexivity]. }
  erewrite bind_run by apply native_run.
  rewrite Hok.
  erewrite bind_run by apply catchError_zero.
  erewrite bind_run; cycle 1.
  { rewrite set_data_run by exact Edst. cbv zeta. rewrite Hok.
    destruct (decide (0%Z <> 0%Z)) as [H|_]; [contradiction | reflexivity]. }
  erewrite bind_run by apply native_run.
  erewrite bind_run by (apply poke_array_run; simpl; exact Hdst).
  rewrite Hok.
  erewrite bind_run by apply catchError_zero.
  erewrite bind_run by apply native_run.
  rewrite Hok.
  erewrite bind_run by apply catchError_zero.
  erewrite bind_run by apply native_run.
  rewrite Hok.
  unfold catchError.
  destruct (decide (0%Z <> 0%Z)) as [H|_]; [contradiction |].
  unfold ret. cbn [w_trace w_heap].
  repeat rewrite <- app_assoc. cbn [app]. reflexivity.
Qed.


(** ** The fill values *)

(** X17.  [getNetCDFFillValue] has a value for five numeric types, among
    them the three that [apply] accepts; for every other type it raises
    the error of the module that names the type.  The value is a float
    for the two float types and an integer for the three integer types. *)
Theorem getNetCDFFillValue_types (NC_FILL_DOUBLE NC_FILL_FLOAT : Q)
    (NC_FILL_INT NC_FILL_SHORT NC_FILL_BYTE : Z) (dt : dtype) :
  let fill := getNetCDFFillValue NC_FILL_DOUBLE NC_FILL_FLOAT NC_FILL_INT
                NC_FILL_SHORT NC_FILL_BYTE in
  (fill dt = Raise (CDMSError (InvalidType dt)) <->
   ~ In dt [float64; float32; int32; int16; int8]) /\
  (supported_dtype dt = true -> exists v, fill dt = Ok v) /\
  ((exists q, fill dt = Ok (PyFloat q)) <-> dt = float64 \/ dt = float32) /\
  ((exists z, fill dt = Ok (PyInteger z)) <->
   dt = int32 \/ dt = int16 \/ dt = int8).
Proof.
  unfold supported_dtype, getNetCDFFillValue. cbv zeta.
  rewrite bool_decide_eq_true.
  destruct dt; simpl; unfold not; repeat split; intros;
    repeat match goal with
           | H : ex _ |- _ => destruct H
           end;
    intuition (try discriminate; try congruence; eauto).
Qed.

(** ** What [addForbiddenBox] does, for every box *)

(** X18.  Whatever the operator and the two index vectors,
    [addForbiddenBox] raises and makes no native call: the error of the
    method when a vector has not the length of the grid, [TypeError]
    otherwise when the grid has a dimension, and [IndexError] when it has
    none. *)
Theorem addForbiddenBox_total libcf (s : Regrid.self) (lo hi : list Z)
    (w : world) :
  Regrid.addForbiddenBox libcf s lo hi w
  = (Raise (if decide (length lo <> Regrid.ndims s) then
              CDMSError (LoLength (length lo) (Regrid.ndims s))
            else if decide (length hi <> Regrid.ndims s) then
              CDMSError (HiLength (length hi) (Regrid.ndims s))
            else if decide (0 < Regrid.ndims s) then TypeError
            else IndexError), w).
Proof.
  unfold Regrid.addForbiddenBox.
  destruct (decide (length lo <> Regrid.ndims s)); [reflexivity |].
  destruct (decide (length hi <> Regrid.ndims s)); [reflexivity |].
  destruct (decide (0 < Regrid.ndims s)) as [HN|HN].
  - erewrite bind_run_raise; [reflexivity |].
    unfold lift. rewrite c_int_array_init_tuple by exact HN. reflexivity.
  - assert (H0 : Regrid.ndims s = 0) by lia. rewrite H0. reflexivity.
Qed.

(** ** The locator and the periodicity list *)

(** X19.  When the periodicity list has a true entry past the last
    dimension, [_findIndices] raises [IndexError] before it copies the
    guess and before any native call: the store and the trace are as they
    were. *)
Theorem findIndices_periodicity_error libcf (s : Regrid.self)
    (targetPos guess : loc) (pos : ndarray) (nitermax : Z) (tolpos : Q)
    (is_periodic : list bool) (i : nat) (w : world) :
  w_heap w !! targetPos = Some (ObjArray pos) ->
  Regrid.ndims s <= i ->
  is_periodic !! i = Some true ->
  Regrid._findIndices libcf s targetPos nitermax tolpos guess is_periodic w
  = (Raise IndexError, w).
Proof.
  intros Hpos Hi Ht. unfold Regrid._findIndices.
  erewrite bind_run by (apply read_array_run, Hpos).
  erewrite bind_run_raise; [reflexivity |].
  unfold lift. rewrite getPeriodicityArray_cases.
  destruct (existsb id (drop (Regrid.ndims s) is_periodic)) eqn:Eex;
    [reflexivity |].
  exfalso. apply (existsb_id_lookup _ (i - Regrid.ndims s) Eex).
  rewrite lookup_drop.
  replace (Regrid.ndims s + (i - Regrid.ndims s)) with i by lia. exact Ht.
Qed.

(** ** The added properties at the data of the test *)

Lemma getTensorProduct_total_witness :
  getTensorProduct Test.src_y 1 [4; 3; 2]
  = Ok {| dtype_of := int64; shape := [4; 3; 2];
          data := tensor_data [10; 20; 30]%Q 1 [4; 3; 2] |}.
Proof.
  apply (getTensorProduct_total Test.src_y 1 3 [4; 3; 2]).
  - reflexivity.
  - repeat (constructor; [lia |]). constructor.
Defined.

Lemma apply_src_shape_witness :
  Regrid.apply Test.NC_FILL_DOUBLE Test.NC_FILL_FLOAT Test.NC_FILL_INT
    Test.libcf Test.rg Test.src_data_2d_loc Test.dst_data_loc Test.w3
  = (Raise IndexError, Test.w3).
Proof.
  apply (apply_src_shape Test.NC_FILL_DOUBLE Test.NC_FILL_FLOAT
           Test.NC_FILL_INT Test.libcf Test.rg Test.src_data_2d_loc
           Test.dst_data_loc Test.src_data_2d Test.w3).
  - vm_compute. reflexivity.
  - simpl. lia.
  - reflexivity.
  - simpl. discriminate.
Defined.

Lemma makeCurvilinear_curvilinear_witness :
  exists dims,
    makeCurvilinear Data.src_grid Data.w_curvilinear
    = (Ok (Data.src_grid, dims), Data.w_curvilinear) /\
    length dims = 2.
Proof.
  destruct (makeCurvilinear_curvilinear Data.src_grid [0; 1]
              Data.w_curvilinear) as (dims & E & Hlen & _).
  - reflexivity.
  - repeat (constructor; [eexists; split; reflexivity |]). constructor.
  - exists dims. split; [exact E | exact Hlen].
Defined.

Lemma makeCurvilinear_rectilinear_witness :
  exists ys w',
    makeCurvilinear Test.src_grid Test.w0
    = (Ok (Test.src_grid, [4; 3; 2]), w') /\
    w_heap w' !! Test.src_grid = Some (ObjList ys).
Proof.
  destruct (makeCurvilinear_rectilinear Test.src_grid [0; 1; 2]
              [Test.src_x; Test.src_y; Test.src_z] Test.w0)
    as (ys & w' & E & Hys & _).
  - reflexivity.
  - repeat (constructor; [split; reflexivity |]). constructor.
  - exists ys, w'. split; [exact E | exact Hys].
Defined.

Lemma makeCurvilinear_twice_witness :
  exists dims w1,
    makeCurvilinear Test.src_grid Test.w0 = (Ok (Test.src_grid, dims), w1) /\
    makeCurvilinear Test.src_grid w1 = (Ok (Test.src_grid, dims), w1).
Proof.
  apply (makeCurvilinear_twice Test.src_grid [0; 1; 2]
           [Test.src_x; Test.src_y; Test.src_z] Test.w0).
  - reflexivity.
  - repeat (constructor; [split; reflexivity |]). constructor.
Defined.

Lemma makeCurvilinear_postcondition_witness :
  exists ys,
    w_heap (makeCurvilinear Test.src_grid Test.w0).2 !! Test.src_grid
    = Some (ObjList ys) /\
    length ys = 3.
Proof.
  destruct (makeCurvilinear_postcondition Test.src_grid Test.src_grid
              [0; 1; 2] [4; 3; 2] Test.w0
              (makeCurvilinear Test.src_grid Test.w0).2)
    as (_ & _ & ys & Hys & Hlen & _).
  - reflexivity.
  - vm_compute. reflexivity.
  - exists ys. split; [exact Hys | exact Hlen].
Defined.

Lemma init_rectilinear_witness :
  exists s w',
    Regrid.__init__ "libcf" (fun _ => true) Test.libcf Test.astype
      Test.src_grid Test.dst_grid Test.w0 = (Ok s, w') /\
    Regrid.ndims s = 3 /\
    Regrid.src_dims s = [4; 3; 2]%Z /\
    length (getSrcGrid s) = 3.
Proof.
  destruct (init_rectilinear "libcf" (fun _ => true) Test.libcf
              Test.astype
              Test.src_grid Test.dst_grid [0; 1; 2] [3; 4; 5]
              [Test.src_x; Test.src_y; Test.src_z]
              [Test.dst_x; Test.dst_y; Test.dst_z] Test.w0)
    as (s & w' & E & Hn & Hd & _ & Hl & _).
  - reflexivity.
  - intros tr c. reflexivity.
  - reflexivity.
  - reflexivity.
  - discriminate.
  - repeat (constructor; [split; reflexivity |]). constructor.
  - repeat (constructor; [split; reflexivity |]). constructor.
  - reflexivity.
  - simpl. lia.
  - exists s, w'. split; [exact E |]. split; [exact Hn |].
    split; [exact Hd | exact Hl].
Defined.

Lemma init_then_apply_witness :
  (Regrid.apply Test.NC_FILL_DOUBLE Test.NC_FILL_FLOAT Test.NC_FILL_INT
     Test.libcf Test.rg Test.src_data_loc Test.dst_data_loc Test.w2).1
  = Ok tt.
Proof.
  apply (init_then_apply "libcf" (fun _ => true) Test.NC_FILL_DOUBLE
           Test.NC_FILL_FLOAT Test.NC_FILL_INT Test.libcf Test.astype
           Test.src_grid Test.dst_grid [0; 1; 2] [3; 4; 5]
           [Test.src_x; Test.src_y; Test.src_z]
           [Test.dst_x; Test.dst_y; Test.dst_z] Test.w0
           Test.rg Test.w1 Test.w2 Test.src_data_loc Test.dst_data_loc
           Test.src_data Test.dst_data).
  - reflexivity.
  - intros tr c. reflexivity.
  - reflexivity.
  - reflexivity.
  - discriminate.
  - repeat (constructor; [split; reflexivity |]). constructor.
  - repeat (constructor; [split; reflexivity |]). constructor.
  - reflexivity.
  - simpl. lia.
  - repeat (constructor; [reflexivity |]). constructor.
  - repeat (constructor; [reflexivity |]). constructor.
  - vm_compute. reflexivity.
  - vm_compute. reflexivity.
  - vm_compute. reflexivity.
  - reflexivity.
  - reflexivity.
  - reflexivity.
  - reflexivity.
Defined.

Lemma init_refusal_witness :
  Regrid.__init__ "libcf" (fun _ => true) Test.libcf Test.astype 3 3 Test.w_planes
  = (Raise IndexError, (makeCurvilinear 3 Test.w_planes).2).
Proof.
  destruct (init_refusal "libcf" (fun _ => true) Test.libcf Test.astype
              3 3
              [0; 1; 2] [0; 1; 2] Test.w_planes) as (_ & H & _).
  - reflexivity.
  - reflexivity.
  - reflexivity.
  - simpl. lia.
  - apply H; [reflexivity | vm_compute; reflexivity].
Defined.

Lemma apply_calls_witness :
  exists w',
    Regrid.apply Test.NC_FILL_DOUBLE Test.NC_FILL_FLOAT Test.NC_FILL_INT
      Test.libcf Test.rg Test.src_data_loc Test.dst_data_loc Test.w2
    = (Ok tt, w') /\
    length (w_trace w') = length (w_trace Test.w2) + 7.
Proof.
  eexists. split.
  - apply (apply_calls Test.NC_FILL_DOUBLE Test.NC_FILL_FLOAT
             Test.NC_FILL_INT Test.libcf Test.rg Test.src_data_loc
             Test.dst_data_loc Test.src_data Test.dst_data Test.w2).
    + intros tr c. reflexivity.
    + vm_compute. reflexivity.
    + vm_compute. reflexivity.
    + simpl. lia.
    + reflexivity.
    + reflexivity.
    + reflexivity.
    + reflexivity.
    + reflexivity.
    + reflexivity.
  - cbn [w_trace]. rewrite length_app. reflexivity.
Defined.


Lemma findIndices_periodicity_error_witness :
  Regrid._findIndices Test.libcf Test.rg Test.target_pos_loc 20 (1 # 100)
    Test.guess_loc [false; false; false; true] Test.w_locate
  = (Raise IndexError, Test.w_locate).
Proof.
  apply (findIndices_periodicity_error Test.libcf Test.rg
           Test.target_pos_loc Test.guess_loc Test.target_pos 20 (1 # 100)
           [false; false; false; true] 3 Test.w_locate).
  - vm_compute. reflexivity.
  - simpl. lia.
  - reflexivity.
Defined.

Lemma apply_type_error_only_if_witness :
  supported_dtype (dtype_of Test.src_data) = false \/
  supported_dtype (dtype_of Data.short_data) = false.
Proof.
  apply (apply_type_error_only_if Test.NC_FILL_DOUBLE Test.NC_FILL_FLOAT
           Test.NC_FILL_INT Test.libcf Test.rg Data.src_data_loc
           Data.short_data_loc Test.src_data Data.short_data
           Data.w_short (CDMSError (InvalidDstDataType int16))).
  - vm_compute. reflexivity.
  - vm_compute. reflexivity.
  - simpl. lia.
  - reflexivity.
  - reflexivity.
  - reflexivity.
  - reflexivity.
  - vm_compute. reflexivity.
  - exact I.
Defined.

